(** * Mariposa notes adapters for Open WebUI: a shallow embedding

    The repository holds two plugins that talk to the Mariposa notes service:

    - [Filter] (mariposa_filter.py, adapter A) rewrites the last message of a
      chat turn before the model sees it;
    - [Pipe] (mariposa_pipe.py, adapter B) answers recognised commands itself
      with an HTML artifact.

    Modelling choices, in one place:

    - A Python [str] is a Rocq [string] holding its UTF-8 encoding.  The
      character classes used by the code ([str.strip], [str.lower], and the
      regular expression classes for whitespace, digits and letter case) are
      those of Unicode in Python; here they are written out for ASCII, where
      the two agree.  A property that depends on how the text of a message is
      classified is therefore stated for a text of ASCII characters
      ([ascii_text]), or has hypotheses that leave no other text.
    - JSON values and the chat-turn payload are values of [pyval]; a [dict] is
      an association list in insertion order, each key occurring once.  JSON
      numbers are integers.  The payload is a tree decoded from a request, so
      no two positions of it share an object.
    - Python exceptions are the [Raise] outcome of [result].
    - The notes service is a function from a request to what [requests]
      observes.  One adapter call never asks the same URL twice, so a function
      covers every behaviour of the service during that call.
    - The order in which Python enumerates a [set] is not fixed by the
      language; it is the parameter [SetOrder]. *)

From Stdlib Require Import String Ascii List ZArith Lia Bool DecimalString.
Import ListNotations.
Open Scope string_scope.

(** ** Text *)

Definition nl : string := String "010"%char EmptyString.
Definition dq : string := String "034"%char EmptyString.
Definition sq : string := "'".

Definition code_in (lo hi : nat) (c : ascii) : bool :=
  let n := nat_of_ascii c in ((lo <=? n) && (n <=? hi))%nat.

(** [str.isspace] on ASCII: TAB, LF, VT, FF, CR, FS, GS, RS, US and space. *)
Definition is_space (c : ascii) : bool := code_in 9 13 c || code_in 28 32 c.

(** The decimal digits of ASCII. *)
Definition is_digit (c : ascii) : bool := code_in 48 57 c.

Definition lower_char (c : ascii) : ascii :=
  if code_in 65 90 c then ascii_of_nat (nat_of_ascii c + 32) else c.

(** [str.lower] on ASCII text: the letters A to Z are lowered, every
    other byte is kept. *)
Fixpoint lower (s : string) : string :=
  match s with
  | EmptyString => EmptyString
  | String c s' => String (lower_char c) (lower s')
  end.

Fixpoint lstrip (s : string) : string :=
  match s with
  | EmptyString => EmptyString
  | String c s' => if is_space c then lstrip s' else s
  end.

Fixpoint rstrip (s : string) : string :=
  match s with
  | EmptyString => EmptyString
  | String c s' =>
      match rstrip s' with
      | EmptyString => if is_space c then EmptyString else String c EmptyString
      | r => String c r
      end
  end.

(** [str.strip] on ASCII text *)
Definition strip (s : string) : string := rstrip (lstrip s).

(** [str.startswith] *)
Definition startswith (s p : string) : bool := prefix p s.

(** [sep.join] over strings *)
Definition join (sep : string) (l : list string) : string := String.concat sep l.

(** [sub in s] for two strings *)
Fixpoint contains (sub s : string) : bool :=
  prefix sub s ||
  match s with
  | EmptyString => false
  | String _ s' => contains sub s'
  end.

(** [str] of an [int] *)
Definition str_of_int (z : Z) : string := NilZero.string_of_int (Z.to_int z).

(** The code points of a string: a byte in 128..191 continues the code point
    before it. *)
Definition is_continuation (c : ascii) : bool := code_in 128 191 c.

Fixpoint code_points (s : string) : list string :=
  match s with
  | EmptyString => []
  | String c s' =>
      match code_points s' with
      | String c' h :: t =>
          if is_continuation c' then String c (String c' h) :: t
          else String c EmptyString :: String c' h :: t
      | l => String c EmptyString :: l
      end
  end.

Definition hex_digit (n : nat) : ascii :=
  if (n <? 10)%nat then ascii_of_nat (48 + n) else ascii_of_nat (87 + n).

(** [repr] of a [str]: single quotes unless the text has a single quote and
    no double quote; backslash escapes for the quote, the backslash, TAB, LF,
    CR and the other ASCII control characters. *)
Definition repr_char (quote : ascii) (c : ascii) : string :=
  let n := nat_of_ascii c in
  if Ascii.eqb c quote || Ascii.eqb c "\"%char then String "\"%char (String c EmptyString)
  else if (n =? 9)%nat then "\t"
  else if (n =? 10)%nat then "\n"
  else if (n =? 13)%nat then "\r"
  else if ((n <? 32) || (n =? 127))%nat then
    String "\"%char (String "x"%char
      (String (hex_digit (n / 16)) (String (hex_digit (n mod 16)) EmptyString)))
  else String c EmptyString.

Fixpoint repr_chars (quote : ascii) (s : string) : string :=
  match s with
  | EmptyString => EmptyString
  | String c s' => repr_char quote c ++ repr_chars quote s'
  end.

Definition repr_str (s : string) : string :=
  let quote := if contains sq s && negb (contains dq s) then "034"%char else "'"%char in
  String quote (repr_chars quote s) ++ String quote EmptyString.

(** ** Python values *)

#[warnings="-register-all"]
Inductive pyval : Type :=
  | VNone
  | VBool (b : bool)
  | VInt (z : Z)
  | VStr (s : string)
  | VList (l : list pyval)
  | VDict (d : list (string * pyval)).

Definition dict : Type := list (string * pyval).

(** Truth value of an object, as [if x:] and [not x] read it. *)
Definition truthy (v : pyval) : bool :=
  match v with
  | VNone => false
  | VBool b => b
  | VInt z => negb (z =? 0)%Z
  | VStr s => negb (s =? EmptyString)
  | VList l => match l with [] => false | _ => true end
  | VDict d => match d with [] => false | _ => true end
  end.

Fixpoint dict_get (k : string) (d : dict) : option pyval :=
  match d with
  | [] => None
  | (k', v) :: d' => if k' =? k then Some v else dict_get k d'
  end.

(** [d[k] = v]: the binding of [k] is replaced where it stands, a new key
    goes last. *)
Fixpoint dict_set (k : string) (v : pyval) (d : dict) : dict :=
  match d with
  | [] => [(k, v)]
  | (k', v') :: d' => if k' =? k then (k', v) :: d' else (k', v') :: dict_set k v d'
  end.

Definition dict_keys (d : dict) : list string := map fst d.

(** [d.get(k, default)] on a dict *)
Definition dict_get_default (k : string) (default : pyval) (d : dict) : pyval :=
  match dict_get k d with
  | Some v => v
  | None => default
  end.

(** [repr(x)] and [str(x)], the latter being what an f-string field shows. *)
Fixpoint py_repr (v : pyval) : string :=
  match v with
  | VNone => "None"
  | VBool true => "True"
  | VBool false => "False"
  | VInt z => str_of_int z
  | VStr s => repr_str s
  | VList l => "[" ++ join ", " (map py_repr l) ++ "]"
  | VDict d =>
      "{" ++ join ", "
        ((fix items (d : list (string * pyval)) : list string :=
            match d with
            | [] => []
            | (k, x) :: d' => (repr_str k ++ ": " ++ py_repr x) :: items d'
            end) d) ++ "}"
  end.

Definition py_str (v : pyval) : string :=
  match v with
  | VStr s => s
  | _ => py_repr v
  end.

(** ** Exceptions *)

Inductive exn : Type := AttributeError | TypeError | KeyError | IndexError.

Inductive result (A : Type) : Type :=
  | Ok (a : A)
  | Raise (e : exn).

Arguments Ok {A} a.
Arguments Raise {A} e.

Definition rbind {A B : Type} (m : result A) (f : A -> result B) : result B :=
  match m with
  | Ok a => f a
  | Raise e => Raise e
  end.

Notation "x <~ m ;; k" := (rbind m (fun x => k))
  (at level 61, m at next level, right associativity).

Fixpoint mapR {A B : Type} (f : A -> result B) (l : list A) : result (list B) :=
  match l with
  | [] => Ok []
  | a :: l' => b <~ f a ;; bs <~ mapR f l' ;; Ok (b :: bs)
  end.

(** *** Operations on objects of unknown type *)

(** [x.get(k, default)]: only a dict has the method. *)
Definition py_get (x : pyval) (k : string) (default : pyval) : result pyval :=
  match x with
  | VDict d => Ok (dict_get_default k default d)
  | _ => Raise AttributeError
  end.

(** [x.strip()]: only a str has the method. *)
Definition py_strip (x : pyval) : result string :=
  match x with
  | VStr s => Ok (strip s)
  | _ => Raise AttributeError
  end.

(** [for item in x] *)
Definition py_iter (x : pyval) : result (list pyval) :=
  match x with
  | VList l => Ok l
  | VStr s => Ok (map VStr (code_points s))
  | VDict d => Ok (map VStr (dict_keys d))
  | _ => Raise TypeError
  end.

(** [len(x)] *)
Definition py_len (x : pyval) : result Z :=
  match x with
  | VList l => Ok (Z.of_nat (List.length l))
  | VStr s => Ok (Z.of_nat (List.length (code_points s)))
  | VDict d => Ok (Z.of_nat (List.length d))
  | _ => Raise TypeError
  end.

(** [l] as all its items but the last, and the last. *)
Fixpoint split_last {A : Type} (l : list A) : option (list A * A) :=
  match l with
  | [] => None
  | x :: l' =>
      match split_last l' with
      | None => Some ([], x)
      | Some (init, y) => Some (x :: init, y)
      end
  end.

(** [x[-1]] *)
Definition py_last (x : pyval) : result pyval :=
  match x with
  | VList l =>
      match split_last l with
      | Some (_, v) => Ok v
      | None => Raise IndexError
      end
  | VStr s =>
      match split_last (code_points s) with
      | Some (_, c) => Ok (VStr c)
      | None => Raise IndexError
      end
  | VDict _ => Raise KeyError
  | _ => Raise TypeError
  end.

(** [k in x] for a str [k] *)
Definition py_contains (k : string) (x : pyval) : result bool :=
  match x with
  | VDict d => Ok (match dict_get k d with Some _ => true | None => false end)
  | VList l => Ok (existsb (fun v => match v with VStr s => s =? k | _ => false end) l)
  | VStr s => Ok (contains k s)
  | _ => Raise TypeError
  end.

(** [x[k]] for a str [k] *)
Definition py_item (x : pyval) (k : string) : result pyval :=
  match x with
  | VDict d => match dict_get k d with Some v => Ok v | None => Raise KeyError end
  | _ => Raise TypeError
  end.

(** [sep.join(x)]: every item has to be a str. *)
Definition py_join (sep : string) (x : pyval) : result string :=
  items <~ py_iter x ;;
  strs <~ mapR (fun v => match v with VStr s => Ok s | _ => Raise TypeError end) items ;;
  Ok (join sep strs).

(** ** Regular expressions

    The fragment of Python's [re] the adapters use, with the backtracking
    order of the library: a greedy quantifier tries the longest run first, a
    lazy one the shortest, an optional item is tried before it is skipped.
    Every quantified item of the patterns below is a single character class. *)

Inductive cclass : Type :=
  | CLit (c : ascii)         (* a literal character *)
  | CSet (l : list ascii)    (* [...] *)
  | CDigit                   (* \d *)
  | CSpace                   (* \s *)
  | CDot.                    (* . (no DOTALL: anything but a line feed) *)

Inductive regex : Type :=
  | REps
  | RChr (c : cclass)
  | RSeq (r1 r2 : regex)
  | RAlt (r1 r2 : regex)
  | ROpt (r : regex)         (* r? *)
  | RPlus (c : cclass)       (* c+ *)
  | RPlusLazy (c : cclass)   (* c+? *)
  | RGroup (r : regex)       (* ( r ), the pattern's one capturing group *)
  | RBol                     (* ^ *)
  | REol.                    (* $ *)

Infix "+++" := RSeq (at level 60, right associativity).

Fixpoint lit (s : string) : regex :=
  match s with
  | EmptyString => REps
  | String c s' => RChr (CLit c) +++ lit s'
  end.

(** [icase] is the IGNORECASE flag.  The classes are those of [re] on ASCII
    text. *)
Definition cc_match (icase : bool) (cc : cclass) (a : ascii) : bool :=
  match cc with
  | CLit c => if icase then Ascii.eqb (lower_char a) (lower_char c) else Ascii.eqb a c
  | CSet l => existsb (Ascii.eqb a) l
  | CDigit => is_digit a
  | CSpace => is_space a
  | CDot => negb (Ascii.eqb a "010"%char)
  end.

(** The first [n] characters of [s]. *)
Definition take (n : nat) (s : string) : string := substring 0 n s.

(** What a successful match leaves: the text after the match and group 1. *)
Definition matched : Type := (string * option string)%type.

Fixpoint star_greedy (icase : bool) (cc : cclass) (s : string)
    (k : string -> option matched) : option matched :=
  match s with
  | String a s' =>
      if cc_match icase cc a then
        match star_greedy icase cc s' k with
        | Some m => Some m
        | None => k s
        end
      else k s
  | EmptyString => k s
  end.

Fixpoint star_lazy (icase : bool) (cc : cclass) (s : string)
    (k : string -> option matched) : option matched :=
  match k s with
  | Some m => Some m
  | None =>
      match s with
      | String a s' => if cc_match icase cc a then star_lazy icase cc s' k else None
      | EmptyString => None
      end
  end.

(** [rmatch icase whole r s g k]: match [r] at the front of [s], a suffix of
    the subject [whole], with group 1 so far [g]; [k] continues with what is
    left. *)
Fixpoint rmatch (icase : bool) (whole : string) (r : regex) (s : string)
    (g : option string) (k : string -> option string -> option matched)
    {struct r} : option matched :=
  match r with
  | REps => k s g
  | RChr cc =>
      match s with
      | String a s' => if cc_match icase cc a then k s' g else None
      | EmptyString => None
      end
  | RSeq r1 r2 =>
      rmatch icase whole r1 s g (fun s1 g1 => rmatch icase whole r2 s1 g1 k)
  | RAlt r1 r2 =>
      match rmatch icase whole r1 s g k with
      | Some m => Some m
      | None => rmatch icase whole r2 s g k
      end
  | ROpt r1 =>
      match rmatch icase whole r1 s g k with
      | Some m => Some m
      | None => k s g
      end
  | RPlus cc =>
      match s with
      | String a s' =>
          if cc_match icase cc a then star_greedy icase cc s' (fun s1 => k s1 g) else None
      | EmptyString => None
      end
  | RPlusLazy cc =>
      match s with
      | String a s' =>
          if cc_match icase cc a then star_lazy icase cc s' (fun s1 => k s1 g) else None
      | EmptyString => None
      end
  | RGroup r1 =>
      rmatch icase whole r1 s g
        (fun s1 _ => k s1 (Some (take (String.length s - String.length s1) s)))
  | RBol => if (String.length s =? String.length whole)%nat then k s g else None
  | REol => if (s =? EmptyString) || (s =? nl) then k s g else None
  end.

(** [re.match(r, s)] *)
Definition re_match (icase : bool) (r : regex) (s : string) : option matched :=
  rmatch icase s r s None (fun rest g => Some (rest, g)).

(** [m = re.match(r, s)] followed by [m.group(1)] under [if m:].  In each
    pattern of the adapters the group lies on every path, so a match sets it. *)
Definition re_group1 (icase : bool) (r : regex) (s : string) : option string :=
  match re_match icase r s with
  | Some (_, Some g) => Some g
  | _ => None
  end.

(** [re.findall(r, s)] for a pattern with no group that matches no empty
    text: the matches from left to right, none overlapping another.  [skip]
    counts the characters of the last match still to step over. *)
Fixpoint findall_from (icase : bool) (r : regex) (whole s : string) (skip : nat)
    : list string :=
  match s with
  | EmptyString => []
  | String _ s' =>
      match skip with
      | S n => findall_from icase r whole s' n
      | O =>
          match rmatch icase whole r s None (fun rest g => Some (rest, g)) with
          | Some (rest, _) =>
              let m := take (String.length s - String.length rest) s in
              m :: findall_from icase r whole s' (String.length m - 1)
          | None => findall_from icase r whole s' 0
          end
      end
  end.

Definition findall (icase : bool) (r : regex) (s : string) : list string :=
  findall_from icase r s s 0.

(** ** The order of a set

    [list(set(xs))] holds each distinct element of [xs] once, in an order the
    language leaves open. *)

Class SetOrder : Type := {
  set_list : list string -> list string;
  set_list_NoDup : forall l, NoDup (set_list l);
  set_list_In : forall l x, In x (set_list l) <-> In x l
}.

(** One such order: each element where it stands last. *)
#[export] Instance last_seen_order : SetOrder := {
  set_list := nodup string_dec;
  set_list_NoDup := NoDup_nodup string_dec;
  set_list_In := fun l x => nodup_In string_dec l x
}.

(** ** The notes service as [requests] shows it *)

Inductive http_method : Type := GET | DELETE.

(** A response: its status code, the text of the [HTTPError] that
    [raise_for_status] raises for it, and what [r.json()] gives: the decoded
    body, or the text of the exception for a body that is not JSON. *)
Record response : Type := {
  status_code : Z;
  http_error : string;
  json : string + pyval
}.

(** What a request comes to: an exception of the transport (refused
    connection, timeout) with its text, or a response. *)
Inductive reply : Type :=
  | NoReply (msg : string)
  | Reply (r : response).

Definition service : Type := http_method -> string -> reply.

(** [raise_for_status] raises for the 4xx and 5xx codes. *)
Definition error_status (r : response) : bool :=
  ((400 <=? status_code r) && (status_code r <? 600))%Z.

(** The body of the [try] in [api_get] of both adapters,
    [r = requests.get(url, timeout=5); r.raise_for_status(); return r.json()]:
    the value returned, or the text [str(e)] of the exception raised. *)
Definition http_get_json (svc : service) (url : string) : string + pyval :=
  match svc GET url with
  | NoReply msg => inl msg
  | Reply r => if error_status r then inl (http_error r) else json r
  end.

(** ** Commands and the chat turn *)

Inductive command : Type :=
  | ListNotes
  | ReadNote (slug : string)
  | CreateNote
  | SearchNotes (query : string)
  | DeleteNote (slug : string)
  | ListCategories
  | ListTags
  | Help
  | Unrecognized.

(** [r"note-\d+"] *)
Definition slug_re : regex := lit "note-" +++ RPlus CDigit.

(** [r"\s+(note-\d+)"], the argument of the commands that take a slug. *)
Definition slug_argument : regex := RPlus CSpace +++ RGroup slug_re.

(** The state an adapter call runs in: the payload [body], which the caller
    still holds when the call is over, and the events handed to the host's
    event emitter. *)
Record world : Type := {
  w_body : dict;
  w_events : list pyval
}.

Definition M (A : Type) : Type := world -> result A * world.

Definition ret {A : Type} (a : A) : M A := fun w => (Ok a, w).

Definition bind {A B : Type} (m : M A) (f : A -> M B) : M B :=
  fun w =>
    match m w with
    | (Ok a, w') => f a w'
    | (Raise e, w') => (Raise e, w')
    end.

Notation "x <- m ;; k" := (bind m (fun x => k))
  (at level 61, m at next level, right associativity).
Notation "m ;;; k" := (bind m (fun _ => k))
  (at level 61, right associativity).

Definition lift {A : Type} (r : result A) : M A := fun w => (r, w).

Definition get_body : M dict := fun w => (Ok (w_body w), w).

(** [return body]: the object returned is the payload itself. *)
Definition return_body : M pyval := b <- get_body ;; ret (VDict b).

(** [body] after [messages[-1][key] = v], where [messages] is the list
    under [body["messages"]] and its last item is a dict. *)
Definition store_last (key : string) (v : pyval) (body : dict) : option dict :=
  match dict_get "messages" body with
  | Some (VList l) =>
      match split_last l with
      | Some (init, VDict m) =>
          Some (dict_set "messages" (VList (init ++ [VDict (dict_set key v m)])%list) body)
      | _ => None
      end
  | _ => None
  end.

(** [messages[-1]["content"] = text] *)
Definition set_last_content (text : string) : M unit :=
  fun w =>
    match store_last "content" (VStr text) (w_body w) with
    | Some b => (Ok tt, {| w_body := b; w_events := w_events w |})
    | None => (Raise TypeError, w)
    end.

(** [await __event_emitter__(event)] under [if __event_emitter__:];
    [emitter] tells whether the host passed one. *)
Definition emit (emitter : bool) (event : pyval) : M unit :=
  fun w =>
    if emitter
    then (Ok tt, {| w_body := w_body w; w_events := (w_events w ++ [event])%list |})
    else (Ok tt, w).

(** The event of [emit_status]. *)
Definition status_event (description : string) (done : bool) : pyval :=
  VDict [("type", VStr "status");
         ("data", VDict [("description", VStr description); ("done", VBool done)])].

(** The query of [fetch_notes]:
    ["?" + "&".join(f"{k}={v}" for k, v in params.items() if v)] under
    [if params:]. *)
Definition query_string (params : option dict) : string :=
  match params with
  | Some p =>
      if truthy (VDict p)
      then "?" ++ join "&" (map (fun kv => fst kv ++ "=" ++ py_str (snd kv))
                              (filter (fun kv => truthy (snd kv)) p))
      else EmptyString
  | None => EmptyString
  end.

(** * Adapter A: the filter (mariposa_filter.py) *)

Module Filter.

Record Valves : Type := {
  mariposa_url : string;
  enable_auto_fetch : bool;
  enable_slash_commands : bool
}.

Definition default_valves : Valves := {|
  mariposa_url := "http://host.docker.internal:3020";
  enable_auto_fetch := true;
  enable_slash_commands := true
|}.

(** [r"/?read\s+(note-\d+)"] *)
Definition read_re : regex :=
  ROpt (RChr (CLit "/"%char)) +++ lit "read" +++ slug_argument.

(** [r"/?search\s+(.+)"] *)
Definition search_re : regex :=
  ROpt (RChr (CLit "/"%char)) +++ lit "search" +++ RPlus CSpace +++ RGroup (RPlus CDot).

(** The tests of the slash-command block of [inlet], in their order; both
    patterns are used with [re.match] and IGNORECASE. *)
Definition parse (cmd : string) : command :=
  if (cmd =? "/notes") || (cmd =? "notes") || startswith cmd "/notes " then ListNotes
  else
    match re_group1 true read_re cmd with
    | Some slug => ReadNote slug
    | None =>
        if (cmd =? "/new") || (cmd =? "new") then CreateNote
        else
          match re_group1 true search_re cmd with
          | Some query => SearchNotes query
          | None => Unrecognized
          end
    end.

(** The f-string of [render_note_md]. *)
Definition note_md (title category tags_str slug updated content : string) : string :=
  "### " ++ title ++ nl
  ++ nl
  ++ "**Category:** " ++ category ++ " | **Tags:** " ++ tags_str ++ "  " ++ nl
  ++ "**Slug:** `" ++ slug ++ "` | **Updated:** " ++ updated ++ nl
  ++ nl
  ++ "---" ++ nl
  ++ nl
  ++ content ++ nl
  ++ nl
  ++ "---" ++ nl
  ++ nl
  ++ "**Actions:** `read " ++ slug ++ "` · `edit " ++ slug ++ "` · `delete " ++ slug ++ "`" ++ nl.

Definition render_note_md (note : pyval) (compact : bool) : result string :=
  title <~ py_get note "title" (VStr "Untitled") ;;
  slug <~ py_get note "slug" (VStr EmptyString) ;;
  category <~ py_get note "category" (VStr "uncategorized") ;;
  tags <~ py_get note "tags" (VList []) ;;
  content <~ py_get note "content" (VStr EmptyString) ;;
  updated <~ py_get note "updatedAt" (VStr EmptyString) ;;
  tags_str <~ (if truthy tags
               then items <~ py_iter tags ;;
                    Ok (join ", " (map (fun t => "`" ++ py_str t ++ "`") items))
               else Ok "_no tags_") ;;
  if compact then
    n <~ py_len tags ;;
    Ok ("**" ++ py_str title ++ "** (" ++ py_str slug ++ ") — _" ++ py_str category
        ++ "_ · " ++ str_of_int n ++ " tags")
  else
    Ok (note_md (py_str title) (py_str category) tags_str (py_str slug) (py_str updated)
          (if truthy content then py_str content else "_No content_")).

(** One line of [render_notes_list_md]. *)
Definition notes_list_line (n : pyval) : result string :=
  title <~ py_get n "title" (VStr "Untitled") ;;
  slug <~ py_get n "slug" (VStr EmptyString) ;;
  category <~ py_get n "category" (VStr EmptyString) ;;
  tags <~ py_get n "tags" (VList []) ;;
  tags_str <~ (if truthy tags
               then joined <~ py_join ", " tags ;; Ok ("[" ++ joined ++ "]")
               else Ok EmptyString) ;;
  Ok ("- **" ++ py_str title ++ "** `" ++ py_str slug ++ "` — _" ++ py_str category
      ++ "_ " ++ tags_str).

Definition render_notes_list_md (notes : pyval) : result string :=
  if negb (truthy notes) then Ok "⚠️ **No notes found.** Use `/new` to create one."
  else
    total <~ py_len notes ;;
    items <~ py_iter notes ;;
    lines <~ mapR notes_list_line items ;;
    Ok (join nl (app (("### Your Notes (" ++ str_of_int total ++ " total)" ++ nl) :: lines)
                     [nl ++ "_Say `read <slug>` to view a note._"])).

Definition render_error_md (title message : string) : string :=
  "⚠️ **" ++ title ++ "**" ++ nl ++ nl ++ message.

(** The f-string of [render_creation_form]. *)
Definition creation_form (cats_str tags_str : string) : string :=
  "I'd like to create a new note. Please help me fill in:" ++ nl
  ++ nl
  ++ "📝 **Title:** [required]  " ++ nl
  ++ "📁 **Category:** " ++ cats_str ++ "  " ++ nl
  ++ "🏷️ **Tags:** " ++ tags_str ++ "  " ++ nl
  ++ "📄 **Content:** [what should the note contain?]" ++ nl
  ++ nl
  ++ "_Guide me through each field one at a time._".

(** One block of the context that the auto-fetch puts before the message. *)
Definition context_part (slug : string) (note : pyval) : result string :=
  title <~ py_get note "title" VNone ;;
  category <~ py_get note "category" VNone ;;
  tags <~ py_get note "tags" (VList []) ;;
  tags_str <~ py_join ", " tags ;;
  content <~ py_get note "content" (VStr "(empty)") ;;
  Ok ("**" ++ py_str title ++ "** (`" ++ slug ++ "`)" ++ nl
      ++ "Category: " ++ py_str category ++ " | Tags: " ++ tags_str ++ nl
      ++ "Content: " ++ py_str content ++ nl).

(** The f-string the auto-fetch stores as the message. *)
Definition with_context (context original_msg : string) : string :=
  "[Context: Referenced notes]" ++ nl ++ nl ++ context
  ++ nl ++ nl ++ "[User message:] " ++ original_msg.

Section Adapter.

Context (self : Valves) (svc : service) (order : SetOrder).

(** *** API helpers *)

Definition api_get (endpoint : string) : pyval :=
  match http_get_json svc (mariposa_url self ++ endpoint) with
  | inr data => data
  | inl _ => VNone
  end.

Definition api_delete (endpoint : string) : bool :=
  match svc DELETE (mariposa_url self ++ endpoint) with
  | Reply r => (status_code r =? 204)%Z
  | NoReply _ => false
  end.

Definition fetch_note (slug : string) : pyval := api_get ("/api/notes/" ++ slug).

Definition fetch_notes (params : option dict) : result pyval :=
  let data := api_get ("/api/notes" ++ query_string params) in
  if truthy data then py_get data "notes" (VList []) else Ok (VList []).

Definition fetch_categories : result pyval :=
  let data := api_get "/api/categories" in
  if truthy data then py_get data "categories" (VList []) else Ok (VList []).

Definition fetch_tags : result pyval :=
  let data := api_get "/api/tags" in
  if truthy data then py_get data "tags" (VList []) else Ok (VList []).

Definition render_creation_form : result string :=
  categories <~ fetch_categories ;;
  tags <~ fetch_tags ;;
  cats_str <~ (if truthy categories
               then items <~ py_iter categories ;;
                    Ok (join ", " (map (fun c => "`" ++ py_str c ++ "`") items))
               else Ok "`uncategorized`") ;;
  tags_str <~ (if truthy tags
               then items <~ py_iter tags ;;
                    Ok (join ", " (map (fun t => "`" ++ py_str t ++ "`") items))
               else Ok "_none yet_") ;;
  Ok (creation_form cats_str tags_str).

(** *** The inlet *)

(** The loop of the auto-fetch: the context blocks of the slugs whose note
    the service has, in the order of [slugs]. *)
Fixpoint context_parts (slugs : list string) : result (list string) :=
  match slugs with
  | [] => Ok []
  | slug :: rest =>
      let note := fetch_note slug in
      if truthy note then
        part <~ context_part slug note ;;
        parts <~ context_parts rest ;;
        Ok (part :: parts)
      else context_parts rest
  end.

(** [list(set(re.findall(r"note-\d+", original_msg, re.IGNORECASE)))] *)
Definition mentioned_slugs (original_msg : string) : list string :=
  set_list (findall true slug_re original_msg).

Definition auto_fetch (original_msg : string) : M pyval :=
  if enable_auto_fetch self then
    let slugs := mentioned_slugs original_msg in
    match slugs with
    | [] => return_body
    | _ :: _ =>
        parts <- lift (context_parts slugs) ;;
        match parts with
        | [] => return_body
        | _ :: _ =>
            let context := join (nl ++ "---" ++ nl) parts in
            set_last_content (with_context context original_msg) ;;;
            return_body
        end
    end
  else return_body.

Definition emit_status (emitter : bool) (description : string) (done : bool) : M unit :=
  emit emitter (status_event description done).

(** [inlet] from the slash commands on; [original_msg] is the trimmed
    content of the last message. *)
Definition on_message (emitter : bool) (original_msg : string) : M pyval :=
  if enable_slash_commands self then
    let cmd := strip (lower original_msg) in
    match parse cmd with
    | ListNotes =>
        emit_status emitter "Fetching notes..." false ;;;
        notes <- lift (fetch_notes None) ;;
        md <- lift (render_notes_list_md notes) ;;
        emit_status emitter "Notes loaded" true ;;;
        set_last_content ("[User requested note list. Display this to them:]"
                          ++ nl ++ nl ++ md) ;;;
        return_body
    | ReadNote slug =>
        emit_status emitter ("Fetching " ++ slug ++ "...") false ;;;
        let note := fetch_note slug in
        (if truthy note then
           md <- lift (render_note_md note false) ;;
           emit_status emitter "Note loaded" true ;;;
           set_last_content ("[User requested to read " ++ slug ++ ". Display this:]"
                             ++ nl ++ nl ++ md)
         else
           let md := render_error_md "Note not found"
                       ("Could not find `" ++ slug ++ "`.") in
           emit_status emitter "Not found" true ;;;
           set_last_content ("[Error: note not found]" ++ nl ++ nl ++ md)) ;;;
        return_body
    | CreateNote =>
        form <- lift render_creation_form ;;
        set_last_content form ;;;
        return_body
    | SearchNotes query =>
        emit_status emitter ("Searching for '" ++ query ++ "'...") false ;;;
        notes <- lift (fetch_notes (Some [("search", VStr query)])) ;;
        md <- (if truthy notes then
                 md <- lift (render_notes_list_md notes) ;;
                 found <- lift (py_len notes) ;;
                 emit_status emitter ("Found " ++ str_of_int found ++ " notes") true ;;;
                 ret md
               else
                 let md := render_error_md "No results"
                             ("No notes found matching '" ++ query ++ "'.") in
                 emit_status emitter "No results" true ;;;
                 ret md) ;;
        set_last_content ("[Search results for '" ++ query ++ "':]"
                          ++ nl ++ nl ++ md) ;;;
        return_body
    | _ => auto_fetch original_msg
    end
  else auto_fetch original_msg.

Definition inlet (emitter : bool) : M pyval :=
  body <- get_body ;;
  let messages := dict_get_default "messages" (VList []) body in
  if negb (truthy messages) then return_body
  else
    last <- lift (py_last messages) ;;
    last_msg <- lift (py_get last "content" (VStr EmptyString)) ;;
    match last_msg with
    | VStr text => on_message emitter (strip text)
    | _ => return_body
    end.

(** [outlet] hands the payload back as it is. *)
Definition outlet : M pyval := return_body.

End Adapter.

End Filter.

(** * Adapter B: the pipe (mariposa_pipe.py) *)

Module Pipe.

Record Valves : Type := {
  mariposa_url : string;
  passthrough_model : string
}.

Definition default_valves : Valves := {|
  mariposa_url := "http://host.docker.internal:3020";
  passthrough_model := EmptyString
|}.

(** [r"^/?(?:read|show|open|view)\s+(note-\d+)$"] *)
Definition read_re : regex :=
  RBol +++ ROpt (RChr (CLit "/"%char))
  +++ RAlt (lit "read") (RAlt (lit "show") (RAlt (lit "open") (lit "view")))
  +++ slug_argument +++ REol.

(** [r'^/?search\s+["\']?(.+?)["\']?$'] *)
Definition search_re : regex :=
  RBol +++ ROpt (RChr (CLit "/"%char)) +++ lit "search" +++ RPlus CSpace
  +++ ROpt (RChr (CSet ["034"%char; "'"%char])) +++ RGroup (RPlusLazy CDot)
  +++ ROpt (RChr (CSet ["034"%char; "'"%char])) +++ REol.

(** [r"^/?delete\s+(note-\d+)$"] *)
Definition delete_re : regex :=
  RBol +++ ROpt (RChr (CLit "/"%char)) +++ lit "delete" +++ slug_argument +++ REol.

(** [cmd in [...]] for a list of strings *)
Definition one_of (cmd : string) (keywords : list string) : bool :=
  existsb (String.eqb cmd) keywords.

Definition help_keywords : list string := ["help"; "/help"; "?"; "notes help"].
Definition notes_keywords : list string :=
  ["notes"; "/notes"; "list notes"; "show notes"; "my notes"].
Definition categories_keywords : list string :=
  ["categories"; "/categories"; "list categories"; "show categories"].
Definition tags_keywords : list string :=
  ["tags"; "/tags"; "list tags"; "show tags"; "all tags"].

(** The tests of [pipe], in their order; the patterns are used with
    [re.match] and no flag. *)
Definition parse (cmd : string) : command :=
  if one_of cmd help_keywords then Help
  else if one_of cmd notes_keywords then ListNotes
  else
    match re_group1 false read_re cmd with
    | Some slug => ReadNote slug
    | None =>
        match re_group1 false search_re cmd with
        | Some query => SearchNotes query
        | None =>
            if one_of cmd categories_keywords then ListCategories
            else if one_of cmd tags_keywords then ListTags
            else
              match re_group1 false delete_re cmd with
              | Some slug => DeleteNote slug
              | None => Unrecognized
              end
        end
    end.

(** *** HTML rendering *)

Definition css_styles : string :=
  nl
  ++ "<style>" ++ nl
  ++ ".note-card {" ++ nl
  ++ "    border: 1px solid #444;" ++ nl
  ++ "    border-radius: 8px;" ++ nl
  ++ "    padding: 16px;" ++ nl
  ++ "    margin: 8px 0;" ++ nl
  ++ "    background: #1e1e1e;" ++ nl
  ++ "    font-family: system-ui, -apple-system, sans-serif;" ++ nl
  ++ "}" ++ nl
  ++ ".note-card-light {" ++ nl
  ++ "    background: #f8f8f8;" ++ nl
  ++ "    border-color: #ddd;" ++ nl
  ++ "}" ++ nl
  ++ ".note-header {" ++ nl
  ++ "    display: flex;" ++ nl
  ++ "    justify-content: space-between;" ++ nl
  ++ "    align-items: center;" ++ nl
  ++ "    margin-bottom: 12px;" ++ nl
  ++ "}" ++ nl
  ++ ".note-title {" ++ nl
  ++ "    font-size: 18px;" ++ nl
  ++ "    font-weight: 600;" ++ nl
  ++ "    color: #e0e0e0;" ++ nl
  ++ "    margin: 0;" ++ nl
  ++ "}" ++ nl
  ++ ".note-card-light .note-title {" ++ nl
  ++ "    color: #222;" ++ nl
  ++ "}" ++ nl
  ++ ".note-category {" ++ nl
  ++ "    background: #333;" ++ nl
  ++ "    color: #aaa;" ++ nl
  ++ "    padding: 4px 10px;" ++ nl
  ++ "    border-radius: 4px;" ++ nl
  ++ "    font-size: 12px;" ++ nl
  ++ "}" ++ nl
  ++ ".note-card-light .note-category {" ++ nl
  ++ "    background: #e0e0e0;" ++ nl
  ++ "    color: #555;" ++ nl
  ++ "}" ++ nl
  ++ ".note-tags {" ++ nl
  ++ "    margin-bottom: 12px;" ++ nl
  ++ "}" ++ nl
  ++ ".note-tag {" ++ nl
  ++ "    background: #2a4a2a;" ++ nl
  ++ "    color: #8f8;" ++ nl
  ++ "    padding: 3px 8px;" ++ nl
  ++ "    border-radius: 4px;" ++ nl
  ++ "    font-size: 11px;" ++ nl
  ++ "    margin-right: 6px;" ++ nl
  ++ "    display: inline-block;" ++ nl
  ++ "}" ++ nl
  ++ ".note-card-light .note-tag {" ++ nl
  ++ "    background: #d4edda;" ++ nl
  ++ "    color: #155724;" ++ nl
  ++ "}" ++ nl
  ++ ".note-meta {" ++ nl
  ++ "    color: #888;" ++ nl
  ++ "    font-size: 12px;" ++ nl
  ++ "    margin-bottom: 12px;" ++ nl
  ++ "}" ++ nl
  ++ ".note-content {" ++ nl
  ++ "    background: #252525;" ++ nl
  ++ "    padding: 12px;" ++ nl
  ++ "    border-radius: 6px;" ++ nl
  ++ "    color: #ccc;" ++ nl
  ++ "    font-size: 14px;" ++ nl
  ++ "    white-space: pre-wrap;" ++ nl
  ++ "    line-height: 1.5;" ++ nl
  ++ "}" ++ nl
  ++ ".note-card-light .note-content {" ++ nl
  ++ "    background: #fff;" ++ nl
  ++ "    color: #333;" ++ nl
  ++ "    border: 1px solid #e0e0e0;" ++ nl
  ++ "}" ++ nl
  ++ ".note-actions {" ++ nl
  ++ "    margin-top: 14px;" ++ nl
  ++ "    display: flex;" ++ nl
  ++ "    gap: 8px;" ++ nl
  ++ "}" ++ nl
  ++ ".note-btn {" ++ nl
  ++ "    padding: 8px 14px;" ++ nl
  ++ "    border: none;" ++ nl
  ++ "    border-radius: 5px;" ++ nl
  ++ "    cursor: pointer;" ++ nl
  ++ "    font-size: 13px;" ++ nl
  ++ "    font-weight: 500;" ++ nl
  ++ "}" ++ nl
  ++ ".note-btn-read {" ++ nl
  ++ "    background: #2a4a2a;" ++ nl
  ++ "    color: #8f8;" ++ nl
  ++ "}" ++ nl
  ++ ".note-btn-edit {" ++ nl
  ++ "    background: #4a4a2a;" ++ nl
  ++ "    color: #ff8;" ++ nl
  ++ "}" ++ nl
  ++ ".note-btn-delete {" ++ nl
  ++ "    background: #4a2a2a;" ++ nl
  ++ "    color: #f88;" ++ nl
  ++ "}" ++ nl
  ++ ".note-list-item {" ++ nl
  ++ "    border: 1px solid #333;" ++ nl
  ++ "    border-radius: 6px;" ++ nl
  ++ "    padding: 12px 16px;" ++ nl
  ++ "    margin: 6px 0;" ++ nl
  ++ "    background: #1a1a1a;" ++ nl
  ++ "    display: flex;" ++ nl
  ++ "    justify-content: space-between;" ++ nl
  ++ "    align-items: center;" ++ nl
  ++ "}" ++ nl
  ++ ".note-card-light .note-list-item {" ++ nl
  ++ "    background: #fff;" ++ nl
  ++ "    border-color: #ddd;" ++ nl
  ++ "}" ++ nl
  ++ ".note-list-title {" ++ nl
  ++ "    font-weight: 500;" ++ nl
  ++ "    color: #e0e0e0;" ++ nl
  ++ "}" ++ nl
  ++ ".note-card-light .note-list-title {" ++ nl
  ++ "    color: #222;" ++ nl
  ++ "}" ++ nl
  ++ ".note-list-meta {" ++ nl
  ++ "    color: #666;" ++ nl
  ++ "    font-size: 12px;" ++ nl
  ++ "}" ++ nl
  ++ ".note-error {" ++ nl
  ++ "    border: 1px solid #a33;" ++ nl
  ++ "    border-radius: 8px;" ++ nl
  ++ "    padding: 16px;" ++ nl
  ++ "    margin: 8px 0;" ++ nl
  ++ "    background: #2a1a1a;" ++ nl
  ++ "}" ++ nl
  ++ ".note-error-title {" ++ nl
  ++ "    color: #f66;" ++ nl
  ++ "    font-weight: 600;" ++ nl
  ++ "    margin-bottom: 6px;" ++ nl
  ++ "}" ++ nl
  ++ ".note-error-msg {" ++ nl
  ++ "    color: #a88;" ++ nl
  ++ "    font-size: 14px;" ++ nl
  ++ "}" ++ nl
  ++ ".note-help {" ++ nl
  ++ "    color: #888;" ++ nl
  ++ "    font-size: 13px;" ++ nl
  ++ "    margin-top: 12px;" ++ nl
  ++ "    padding: 10px;" ++ nl
  ++ "    background: #252525;" ++ nl
  ++ "    border-radius: 6px;" ++ nl
  ++ "}" ++ nl
  ++ ".note-card-light .note-help {" ++ nl
  ++ "    background: #f0f0f0;" ++ nl
  ++ "}" ++ nl
  ++ "</style>" ++ nl.

(** The f-string of [render_note_card]. *)
Definition note_card (title category tags_html slug updated content : string) : string :=
  nl
  ++ "<div class=" ++ dq ++ "note-card" ++ dq ++ ">" ++ nl
  ++ "    <div class=" ++ dq ++ "note-header" ++ dq ++ ">" ++ nl
  ++ "        <h3 class=" ++ dq ++ "note-title" ++ dq ++ ">" ++ title ++ "</h3>" ++ nl
  ++ "        <span class=" ++ dq ++ "note-category" ++ dq ++ ">" ++ category ++ "</span>" ++ nl
  ++ "    </div>" ++ nl
  ++ "    <div class=" ++ dq ++ "note-tags" ++ dq ++ ">" ++ tags_html ++ "</div>" ++ nl
  ++ "    <div class=" ++ dq ++ "note-meta" ++ dq ++ ">" ++ nl
  ++ "        <strong>Slug:</strong> " ++ slug ++ " &nbsp;|&nbsp; <strong>Updated:</strong> " ++ updated ++ nl
  ++ "    </div>" ++ nl
  ++ "    <div class=" ++ dq ++ "note-content" ++ dq ++ ">" ++ content ++ "</div>" ++ nl
  ++ "    <div class=" ++ dq ++ "note-help" ++ dq ++ ">" ++ nl
  ++ "        üí° To modify: <code>change title to " ++ dq ++ "..." ++ dq ++ "</code> ¬∑ <code>add tag " ++ dq ++ "..." ++ dq ++ "</code> ¬∑ <code>update content to " ++ dq ++ "..." ++ dq ++ "</code>" ++ nl
  ++ "    </div>" ++ nl
  ++ "</div>" ++ nl.

Definition render_note_card (note : pyval) : result string :=
  title <~ py_get note "title" (VStr "Untitled") ;;
  slug <~ py_get note "slug" (VStr EmptyString) ;;
  category <~ py_get note "category" (VStr "uncategorized") ;;
  tags <~ py_get note "tags" (VList []) ;;
  content <~ py_get note "content" (VStr EmptyString) ;;
  updated <~ py_get note "updatedAt" (VStr EmptyString) ;;
  tags_html <~ (if truthy tags
                then items <~ py_iter tags ;;
                     Ok (join EmptyString
                           (map (fun t => "<span class=" ++ dq ++ "note-tag" ++ dq ++ ">"
                                          ++ py_str t ++ "</span>") items))
                else Ok ("<span style=" ++ dq ++ "color:#666;font-size:12px;" ++ dq
                         ++ ">no tags</span>")) ;;
  Ok (note_card (py_str title) (py_str category) tags_html (py_str slug) (py_str updated)
        (if truthy content then py_str content else "(empty)")).

Definition render_error (title message : string) : string :=
  nl
  ++ "<div class=" ++ dq ++ "note-error" ++ dq ++ ">" ++ nl
  ++ "    <div class=" ++ dq ++ "note-error-title" ++ dq ++ ">‚ö†Ô∏è " ++ title ++ "</div>" ++ nl
  ++ "    <div class=" ++ dq ++ "note-error-msg" ++ dq ++ ">" ++ message ++ "</div>" ++ nl
  ++ "</div>" ++ nl.

(** The f-string appended to [items] in [render_note_list]. *)
Definition note_list_item (title category tag_count slug : string) : string :=
  nl
  ++ "<div class=" ++ dq ++ "note-list-item" ++ dq ++ ">" ++ nl
  ++ "    <span class=" ++ dq ++ "note-list-title" ++ dq ++ ">" ++ title ++ "</span>" ++ nl
  ++ "    <span class=" ++ dq ++ "note-list-meta" ++ dq ++ ">" ++ category ++ " ¬∑ " ++ tag_count ++ " tags ¬∑ <code>" ++ slug ++ "</code></span>" ++ nl
  ++ "</div>" ++ nl.

(** The f-string that [render_note_list] returns. *)
Definition note_list_card (total items : string) : string :=
  nl
  ++ "<div class=" ++ dq ++ "note-card" ++ dq ++ ">" ++ nl
  ++ "    <h3 class=" ++ dq ++ "note-title" ++ dq ++ ">Your Notes (" ++ total ++ ")</h3>" ++ nl
  ++ "    <div style=" ++ dq ++ "margin-top:12px;" ++ dq ++ ">" ++ nl
  ++ "        " ++ items ++ nl
  ++ "    </div>" ++ nl
  ++ "    <div class=" ++ dq ++ "note-help" ++ dq ++ ">" ++ nl
  ++ "        üí° Say <code>read note-X</code> to view a note ¬∑ <code>search " ++ dq ++ "..." ++ dq ++ "</code> to filter" ++ nl
  ++ "    </div>" ++ nl
  ++ "</div>" ++ nl.

Definition render_note_list (notes : pyval) : result string :=
  if negb (truthy notes) then
    Ok (render_error "No notes found"
          ("You don't have any notes yet. Say <code>create note titled " ++ dq ++ "..."
           ++ dq ++ "</code> to make one."))
  else
    ns <~ py_iter notes ;;
    items <~ mapR (fun n =>
                     title <~ py_get n "title" (VStr "Untitled") ;;
                     slug <~ py_get n "slug" (VStr EmptyString) ;;
                     category <~ py_get n "category" (VStr EmptyString) ;;
                     tags <~ py_get n "tags" (VList []) ;;
                     tag_count <~ py_len tags ;;
                     Ok (note_list_item (py_str title) (py_str category)
                           (str_of_int tag_count) (py_str slug))) ns ;;
    total <~ py_len notes ;;
    Ok (note_list_card (str_of_int total) (join EmptyString items)).

Definition render_help : string :=
  nl
  ++ "<div class=" ++ dq ++ "note-card" ++ dq ++ ">" ++ nl
  ++ "    <h3 class=" ++ dq ++ "note-title" ++ dq ++ ">Mariposa Notes - Help</h3>" ++ nl
  ++ "    <div class=" ++ dq ++ "note-content" ++ dq ++ ">" ++ nl
  ++ "<strong>Commands:</strong>" ++ nl
  ++ "‚Ä¢ <code>notes</code> or <code>/notes</code> ‚Äî List all notes" ++ nl
  ++ "‚Ä¢ <code>read note-X</code> ‚Äî View a specific note" ++ nl
  ++ "‚Ä¢ <code>search " ++ dq ++ "query" ++ dq ++ "</code> ‚Äî Find notes by title/content" ++ nl
  ++ "‚Ä¢ <code>categories</code> ‚Äî List all categories" ++ nl
  ++ "‚Ä¢ <code>tags</code> ‚Äî List all tags" ++ nl
  ++ nl
  ++ "<strong>Creating & Editing:</strong>" ++ nl
  ++ "‚Ä¢ <code>create note titled " ++ dq ++ "..." ++ dq ++ "</code> ‚Äî Create new note" ++ nl
  ++ "‚Ä¢ <code>delete note-X</code> ‚Äî Delete a note" ++ nl
  ++ nl
  ++ "After viewing a note, you can ask me to:" ++ nl
  ++ "‚Ä¢ Change the title, content, category, or tags" ++ nl
  ++ "‚Ä¢ Summarize or expand the content" ++ nl
  ++ "‚Ä¢ Move it to a different category" ++ nl
  ++ "    </div>" ++ nl
  ++ "</div>" ++ nl.

(** The f-string of [render_categories]. *)
Definition categories_card (items : string) : string :=
  nl
  ++ "<div class=" ++ dq ++ "note-card" ++ dq ++ ">" ++ nl
  ++ "    <h3 class=" ++ dq ++ "note-title" ++ dq ++ ">Categories</h3>" ++ nl
  ++ "    <div style=" ++ dq ++ "margin-top:12px;" ++ dq ++ ">" ++ items ++ "</div>" ++ nl
  ++ "</div>" ++ nl.

(** The chips of [render_categories] and [render_tags_list]. *)
Definition chip (x : pyval) : string :=
  "<span class=" ++ dq ++ "note-tag" ++ dq ++ " style=" ++ dq ++ "margin:4px;" ++ dq ++ ">"
  ++ py_str x ++ "</span>".

Definition render_categories (categories : pyval) : result string :=
  if negb (truthy categories) then Ok (render_error "No categories" "No categories found.")
  else
    cs <~ py_iter categories ;;
    Ok (categories_card (join EmptyString (map chip cs))).

(** The f-string of [render_tags_list]. *)
Definition tags_card (items : string) : string :=
  nl
  ++ "<div class=" ++ dq ++ "note-card" ++ dq ++ ">" ++ nl
  ++ "    <h3 class=" ++ dq ++ "note-title" ++ dq ++ ">All Tags</h3>" ++ nl
  ++ "    <div style=" ++ dq ++ "margin-top:12px;" ++ dq ++ ">" ++ items ++ "</div>" ++ nl
  ++ "</div>" ++ nl.

Definition render_tags_list (tags : pyval) : result string :=
  if negb (truthy tags) then Ok (render_error "No tags" "No tags found.")
  else
    ts <~ py_iter tags ;;
    Ok (tags_card (join EmptyString (map chip ts))).

Definition render_deleted (slug : string) : string :=
  nl
  ++ "<div class=" ++ dq ++ "note-card" ++ dq ++ " style=" ++ dq ++ "border-color:#4a4;" ++ dq ++ ">" ++ nl
  ++ "    <h3 class=" ++ dq ++ "note-title" ++ dq ++ " style=" ++ dq ++ "color:#8f8;" ++ dq ++ ">‚úì Note Deleted</h3>" ++ nl
  ++ "    <div class=" ++ dq ++ "note-meta" ++ dq ++ ">Successfully deleted <code>" ++ slug ++ "</code></div>" ++ nl
  ++ "</div>" ++ nl.

(** [artifact] of [pipe]: the HTML in a fenced block after the stylesheet. *)
Definition artifact (html : string) : string :=
  "```html" ++ nl ++ css_styles ++ nl ++ html ++ nl ++ "```".

(** The text [pipe] returns when no command matched. *)
Definition fallback (user_msg : string) : string :=
  "I received: " ++ dq ++ user_msg ++ dq ++ nl
  ++ nl
  ++ "This doesn't match a notes command. Available commands:" ++ nl
  ++ "- `notes` ‚Äî List all notes  " ++ nl
  ++ "- `read note-X` ‚Äî View a note" ++ nl
  ++ "- `search " ++ dq ++ "query" ++ dq ++ "` ‚Äî Find notes" ++ nl
  ++ "- `help` ‚Äî Show all commands" ++ nl
  ++ nl
  ++ "Or ask me naturally about your notes and I'll use the Mariposa tools to help!".

Section Adapter.

Context (self : Valves) (svc : service).

(** *** API helpers *)

Definition api_get (endpoint : string) : pyval :=
  match http_get_json svc (mariposa_url self ++ endpoint) with
  | inr data => data
  | inl msg => VDict [("error", VStr msg)]
  end.

Definition api_delete (endpoint : string) : pyval :=
  match svc DELETE (mariposa_url self ++ endpoint) with
  | Reply r =>
      if (status_code r =? 204)%Z then VDict [("success", VBool true)]
      else VDict [("error", VStr ("Status " ++ str_of_int (status_code r)))]
  | NoReply msg => VDict [("error", VStr msg)]
  end.

Definition fetch_note (slug : string) : pyval := api_get ("/api/notes/" ++ slug).

Definition fetch_notes (params : option dict) : pyval :=
  api_get ("/api/notes" ++ query_string params).

Definition fetch_categories : result pyval :=
  let data := api_get "/api/categories" in
  if truthy data then
    present <~ py_contains "categories" data ;;
    if present then py_item data "categories" else Ok (VList [])
  else Ok (VList []).

Definition fetch_tags : result pyval :=
  let data := api_get "/api/tags" in
  if truthy data then
    present <~ py_contains "tags" data ;;
    if present then py_item data "tags" else Ok (VList [])
  else Ok (VList []).

(** *** The pipe *)

(** What [pipe] does for a command; [user_msg] is the trimmed message. *)
Definition run (c : command) (user_msg : string) : result string :=
  match c with
  | Help => Ok (artifact render_help)
  | ListNotes =>
      let data := fetch_notes None in
      failed <~ py_contains "error" data ;;
      if failed then
        err <~ py_item data "error" ;;
        Ok (artifact (render_error "Connection Error"
                        ("Could not reach Mariposa: " ++ py_str err)))
      else
        notes <~ py_get data "notes" (VList []) ;;
        html <~ render_note_list notes ;;
        Ok (artifact html)
  | ReadNote slug =>
      let note := fetch_note slug in
      missing <~ (if negb (truthy note) then Ok true else py_contains "error" note) ;;
      if missing then
        Ok (artifact (render_error "Note not found"
                        ("Could not find <code>" ++ slug ++ "</code>")))
      else
        html <~ render_note_card note ;;
        Ok (artifact html)
  | SearchNotes query =>
      let data := fetch_notes (Some [("search", VStr query)]) in
      failed <~ py_contains "error" data ;;
      if failed then
        err <~ py_item data "error" ;;
        Ok (artifact (render_error "Search Error" (py_str err)))
      else
        notes <~ py_get data "notes" (VList []) ;;
        if negb (truthy notes) then
          Ok (artifact (render_error "No results"
                          ("No notes found matching " ++ dq ++ query ++ dq)))
        else
          html <~ render_note_list notes ;;
          Ok (artifact ("<div style=" ++ dq ++ "color:#888;margin-bottom:8px;" ++ dq
                        ++ ">Search results for " ++ dq ++ query ++ dq ++ ":</div>" ++ html))
  | ListCategories =>
      categories <~ fetch_categories ;;
      html <~ render_categories categories ;;
      Ok (artifact html)
  | ListTags =>
      tags <~ fetch_tags ;;
      html <~ render_tags_list tags ;;
      Ok (artifact html)
  | DeleteNote slug =>
      let result := api_delete ("/api/notes/" ++ slug) in
      success <~ py_get result "success" VNone ;;
      if truthy success then Ok (artifact (render_deleted slug))
      else
        err <~ py_get result "error" (VStr "Unknown error") ;;
        Ok (artifact (render_error "Delete Failed"
                        ("Could not delete " ++ slug ++ ": " ++ py_str err)))
  | CreateNote | Unrecognized => Ok (fallback user_msg)
  end.

Definition pipe : M string :=
  body <- get_body ;;
  let messages := dict_get_default "messages" (VList []) body in
  if negb (truthy messages) then ret "No messages received."
  else
    last <- lift (py_last messages) ;;
    content <- lift (py_get last "content" (VStr EmptyString)) ;;
    user_msg <- lift (py_strip content) ;;
    let cmd := strip (lower user_msg) in
    lift (run (parse cmd) user_msg).

End Adapter.

End Pipe.

(** * The vocabulary of the properties *)

(** ** Shapes of text *)

Fixpoint all_chars (p : ascii -> bool) (s : string) : bool :=
  match s with
  | EmptyString => true
  | String c s' => p c && all_chars p s'
  end.

Definition first_char (s : string) : option ascii :=
  match s with
  | EmptyString => None
  | String c _ => Some c
  end.

Fixpoint last_char (s : string) : option ascii :=
  match s with
  | EmptyString => None
  | String c s' =>
      match last_char s' with
      | None => Some c
      | Some d => Some d
      end
  end.

(** A text of ASCII characters.  On such a text [strip], [lower] and the
    classes of the patterns are those of Python. *)
Definition is_ascii (c : ascii) : bool := code_in 0 127 c.

Definition ascii_text (s : string) : bool := all_chars is_ascii s.

(** [s] is not empty and neither starts nor ends with whitespace: the shape
    of every text [strip] returns, the empty one apart. *)
Definition trimmed (s : string) : bool :=
  match first_char s, last_char s with
  | Some a, Some b => negb (is_space a) && negb (is_space b)
  | _, _ => false
  end.

(** The text both adapters match their commands against:
    [content.strip().lower().strip()]. *)
Definition command_text (content : string) : string := strip (lower (strip content)).


(** ** The notes client, operation by operation *)

(** The operations of the notes client. *)
Inductive operation : Type :=
  | GetNote (slug : string)
  | ListNotesOp (params : option dict)
  | ListCategoriesOp
  | ListTagsOp
  | DeleteOp (slug : string).

Definition op_method (op : operation) : http_method :=
  match op with
  | DeleteOp _ => DELETE
  | _ => GET
  end.

Definition op_endpoint (op : operation) : string :=
  match op with
  | GetNote slug => "/api/notes/" ++ slug
  | ListNotesOp params => "/api/notes" ++ query_string params
  | ListCategoriesOp => "/api/categories"
  | ListTagsOp => "/api/tags"
  | DeleteOp slug => "/api/notes/" ++ slug
  end.

(** The operations as the two adapters implement them. *)
Definition client_A (self : Filter.Valves) (svc : service) (op : operation) : result pyval :=
  match op with
  | GetNote slug => Ok (Filter.fetch_note self svc slug)
  | ListNotesOp params => Filter.fetch_notes self svc params
  | ListCategoriesOp => Filter.fetch_categories self svc
  | ListTagsOp => Filter.fetch_tags self svc
  | DeleteOp slug => Ok (VBool (Filter.api_delete self svc ("/api/notes/" ++ slug)))
  end.

Definition client_B (self : Pipe.Valves) (svc : service) (op : operation) : result pyval :=
  match op with
  | GetNote slug => Ok (Pipe.fetch_note self svc slug)
  | ListNotesOp params => Ok (Pipe.fetch_notes self svc params)
  | ListCategoriesOp => Pipe.fetch_categories self svc
  | ListTagsOp => Pipe.fetch_tags self svc
  | DeleteOp slug => Ok (Pipe.api_delete self svc ("/api/notes/" ++ slug))
  end.

(** A GET fails on an exception of the transport, a status that
    [raise_for_status] rejects, or a body that is not JSON; a DELETE fails on
    an exception of the transport or any status but 204. *)
Definition failed (op : operation) (rp : reply) : bool :=
  match rp with
  | NoReply _ => true
  | Reply r =>
      match op with
      | DeleteOp _ => negb (status_code r =? 204)%Z
      | _ => error_status r || match json r with inl _ => true | inr _ => false end
      end
  end.

(** The text of the failure: [str(e)], or the status for a DELETE. *)
Definition failure_text (op : operation) (rp : reply) : string :=
  match rp with
  | NoReply msg => msg
  | Reply r =>
      match op with
      | DeleteOp _ => "Status " ++ str_of_int (status_code r)
      | _ => if error_status r then http_error r
             else match json r with inl msg => msg | inr _ => EmptyString end
      end
  end.

Definition degraded_A (op : operation) : pyval :=
  match op with
  | GetNote _ => VNone
  | DeleteOp _ => VBool false
  | _ => VList []
  end.

Definition degraded_B (op : operation) (msg : string) : pyval :=
  match op with
  | ListCategoriesOp | ListTagsOp => VList []
  | _ => VDict [("error", VStr msg)]
  end.

(** The result holds an error message: a dict with a string under [error]. *)
Definition carries_error (v : pyval) : bool :=
  match v with
  | VDict d => match dict_get "error" d with Some (VStr _) => true | _ => false end
  | _ => false
  end.

(** ** Sample services and chat turns *)

(** A service that refuses every connection. *)
Definition unreachable : service := fun _ _ => NoReply "connection refused".

(** A chat turn whose last message has its content in parts, as the host
    sends it for a message with an attachment. *)
Definition body_with_parts : dict :=
  [("model", VStr "mariposa");
   ("messages",
    VList [VDict [("role", VStr "user");
                  ("content", VList [VDict [("type", VStr "text");
                                            ("text", VStr "notes")]])]])].

(** A chat turn whose last message is the text [text]. *)
Definition body_with_text (text : string) : dict :=
  [("model", VStr "mariposa");
   ("messages", VList [VDict [("role", VStr "user"); ("content", VStr text)]])].

(** A service whose every body is the JSON array [[1]]. *)
Definition array_service : service := fun _ _ =>
  Reply {| status_code := 200; http_error := EmptyString; json := inr (VList [VInt 1]) |}.

(** ** Rendered fields *)

(** What a renderer shows for field [k]: its value, or [placeholder] when
    the note has no such field. *)
Definition shown (k placeholder : string) (note : dict) : string :=
  py_str (dict_get_default k (VStr placeholder) note).

(** What a renderer shows for the content: [placeholder] when the field is
    missing or empty. *)
Definition shown_content (placeholder : string) (note : dict) : string :=
  let content := dict_get_default "content" (VStr EmptyString) note in
  if truthy content then py_str content else placeholder.

(** A field with a placeholder, and the piece of the Markdown and of the
    HTML rendering that shows the placeholder in the place of the field. *)
Definition placeholders : list (string * string * string) :=
  [("title",
    "### Untitled" ++ nl,
    "<h3 class=" ++ dq ++ "note-title" ++ dq ++ ">Untitled</h3>");
   ("category",
    "**Category:** uncategorized | ",
    "<span class=" ++ dq ++ "note-category" ++ dq ++ ">uncategorized</span>");
   ("tags",
    " | **Tags:** _no tags_  " ++ nl,
    "<div class=" ++ dq ++ "note-tags" ++ dq ++ "><span style=" ++ dq
    ++ "color:#666;font-size:12px;" ++ dq ++ ">no tags</span></div>");
   ("content",
    "---" ++ nl ++ nl ++ "_No content_" ++ nl ++ nl ++ "---",
    "<div class=" ++ dq ++ "note-content" ++ dq ++ ">(empty)</div>")].

(** The tags are missing or a list. *)
Definition listed_tags (note : dict) : bool :=
  match dict_get "tags" note with
  | None | Some (VList _) => true
  | Some _ => false
  end.

(** ** The payload before and after a call *)

(** The text of the last message, when the payload has a list of messages
    whose last item is a dict with a string as content (a missing content
    reads as the empty string). *)
Definition chat_text (body : dict) : option string :=
  match dict_get "messages" body with
  | Some (VList l) =>
      match split_last l with
      | Some (_, VDict m) =>
          match dict_get_default "content" (VStr EmptyString) m with
          | VStr text => Some text
          | _ => None
          end
      | _ => None
      end
  | _ => None
  end.

(** Two messages that differ at most in their content. *)
Definition message_frame (x x' : pyval) : Prop :=
  match x, x' with
  | VDict m, VDict m' => forall k, k <> "content" -> dict_get k m' = dict_get k m
  | _, _ => x' = x
  end.

(** Two values of [body["messages"]] that differ at most in the content of
    the last message. *)
Definition messages_frame (x x' : option pyval) : Prop :=
  match x, x' with
  | Some (VList l), Some (VList l') =>
      List.length l' = List.length l /\
      (forall i, S i < List.length l -> nth_error l' i = nth_error l i) /\
      (forall i y y', S i = List.length l ->
         nth_error l i = Some y -> nth_error l' i = Some y' -> message_frame y y')
  | _, _ => x' = x
  end.

(** Two payloads with the same keys in the same order, the same value under
    every key but [messages], and there the same messages but for the
    content of the last one. *)
Definition frame (body body' : dict) : Prop :=
  dict_keys body' = dict_keys body /\
  (forall k, k <> "messages" -> dict_get k body' = dict_get k body) /\
  messages_frame (dict_get "messages" body) (dict_get "messages" body').

(** The one store the filter makes, seen from the payload. *)
Definition stored_content (body body' : dict) : Prop :=
  exists init m v,
    dict_get "messages" body = Some (VList (init ++ [VDict m])%list) /\
    body' = dict_set "messages"
              (VList (init ++ [VDict (dict_set "content" v m)])%list) body.

(** A computation that leaves the payload alone, one that at most stores a
    content, and one that changes nothing at all. *)
Definition keeps_body {A : Type} (m : M A) : Prop :=
  forall w, w_body (snd (m w)) = w_body w.

Definition stores_at_most {A : Type} (m : M A) : Prop :=
  forall w, let body' := w_body (snd (m w)) in
            body' = w_body w \/ stored_content (w_body w) body'.

Definition read_only {A : Type} (m : M A) : Prop :=
  forall w, snd (m w) = w.

(** A computation whose value, when it returns, is the payload as it then
    is. *)
Definition returns_body (m : M pyval) : Prop :=
  forall w v, fst (m w) = Ok v -> v = VDict (w_body (snd (m w))).

(** ** Notes the auto-fetch resolves *)

(** A note as the service documents it, as far as the auto-fetch reads it:
    a JSON object, not empty, whose tags, when it has any, are a list of
    strings. *)
Definition real_note (note : pyval) : bool :=
  match note with
  | VDict d =>
      truthy note &&
      match dict_get "tags" d with
      | None => true
      | Some (VList tags) => forallb (fun t => match t with VStr _ => true | _ => false end) tags
      | Some _ => false
      end
  | _ => false
  end.

(** The context block of a real note. *)
Definition note_block (slug : string) (note : pyval) : string :=
  match note with
  | VDict d =>
      "**" ++ py_str (dict_get_default "title" VNone d) ++ "** (`" ++ slug ++ "`)" ++ nl
      ++ "Category: " ++ py_str (dict_get_default "category" VNone d)
      ++ " | Tags: "
      ++ join ", " (match dict_get "tags" d with
                    | Some (VList tags) => map py_str tags
                    | _ => []
                    end) ++ nl
      ++ "Content: " ++ py_str (dict_get_default "content" (VStr "(empty)") d) ++ nl
  | _ => EmptyString
  end.

(** The payload with [text] as the content of its last message. *)
Definition with_last_content (text : string) (body : dict) : dict :=
  match store_last "content" (VStr text) body with
  | Some body' => body'
  | None => body
  end.

(** The note [note-5] of the scenarios. *)
Definition plan_note : pyval :=
  VDict [("title", VStr "Plan"); ("slug", VStr "note-5"); ("category", VStr "work");
         ("tags", VList [VStr "q1"]); ("content", VStr "Draft plan")].

(** A service that holds that one note and answers 404 to anything else. *)
Definition plan_service : service := fun method url =>
  match method with
  | GET =>
      if url =? "http://host.docker.internal:3020/api/notes/note-5" then
        Reply {| status_code := 200; http_error := EmptyString; json := inr plan_note |}
      else
        Reply {| status_code := 404; http_error := "404 Client Error: Not Found";
                 json := inl "Expecting value" |}
  | DELETE =>
      Reply {| status_code := 404; http_error := "404 Client Error: Not Found";
               json := inl "Expecting value" |}
  end.

(** ** Slugs and mentions *)

(** [s] without the prefix [p], when it has it. *)
Fixpoint drop_prefix (p s : string) : option string :=
  match p with
  | EmptyString => Some s
  | String c p' =>
      match s with
      | String a s' => if Ascii.eqb a c then drop_prefix p' s' else None
      | EmptyString => None
      end
  end.

(** [note-], one or more digits, and nothing else. *)
Definition is_slug (s : string) : bool :=
  match drop_prefix "note-" s with
  | Some (String d ds) => is_digit d && all_chars is_digit ds
  | _ => false
  end.


Definition starts_with (p : ascii -> bool) (s : string) : bool :=
  match s with
  | String c _ => p c
  | EmptyString => false
  end.

(** The words that ask for a note to be read or deleted. *)
Definition read_words : list string := ["read"; "/read"].
Definition delete_words : list string := ["delete"; "/delete"].





(** The words the pipe reads a note for, and the words both adapters search
    for. *)
Definition pipe_read_words : list string :=
  ["read"; "/read"; "show"; "/show"; "open"; "/open"; "view"; "/view"].
Definition search_words : list string := ["search"; "/search"].

(** The keywords of the filter's form for a new note. *)
Definition new_keywords : list string := ["/new"; "new"].

Definition ends_with_digit (s : string) : bool :=
  match last_char s with
  | Some c => is_digit c
  | None => false
  end.

(** ** Arguments of the commands *)

(** The slug or the query a command carries. *)
Definition argument (c : command) : option string :=
  match c with
  | ReadNote slug | DeleteNote slug => Some slug
  | SearchNotes query => Some query
  | _ => None
  end.

(** A character [str.lower] leaves as it is. *)
Definition is_lowered (c : ascii) : bool := Ascii.eqb (lower_char c) c.

(** Group 1, if set, is made of characters of [P]. *)
Definition group_of (P : ascii -> bool) (g : option string) : Prop :=
  forall q, g = Some q -> all_chars P q = true.

(** A class and a pattern whose literal characters are lower-case. *)
Definition lowered_class (cc : cclass) : bool :=
  match cc with
  | CLit c => is_lowered c
  | _ => true
  end.

Fixpoint lowered_regex (r : regex) : bool :=
  match r with
  | RChr cc | RPlus cc | RPlusLazy cc => lowered_class cc
  | RSeq r1 r2 | RAlt r1 r2 => lowered_regex r1 && lowered_regex r2
  | ROpt r1 | RGroup r1 => lowered_regex r1
  | REps | RBol | REol => true
  end.

(** ** Arguments of the search commands *)

(** [\s+(.+)], the argument of the filter's search. *)
Definition line_argument : regex := RPlus CSpace +++ RGroup (RPlus CDot).

Definition is_quote (c : ascii) : bool := Ascii.eqb c "034" || Ascii.eqb c "'".

Definition not_newline (c : ascii) : bool := negb (Ascii.eqb c "010").

(** The end of the pipe's search pattern, [[dq sq]?$]. *)
Definition closing : regex := ROpt (RChr (CSet ["034"%char; "'"%char])) +++ REol.

(** The texts [closing] matches. *)
Definition closes (s : string) : bool :=
  (s =? EmptyString) || (s =? nl) ||
  match s with
  | String a s' => is_quote a && ((s' =? EmptyString) || (s' =? nl))
  | EmptyString => false
  end.

(** [r"\s+[dq sq]?(.+?)[dq sq]?$"], the argument of the pipe's search. *)
Definition quoted_argument : regex :=
  RPlus CSpace +++ ROpt (RChr (CSet ["034"%char; "'"%char])) +++ RGroup (RPlusLazy CDot)
  +++ closing.

Definition ends_with_quote (s : string) : bool :=
  match last_char s with
  | Some c => is_quote c
  | None => false
  end.

(** ** Requests and configurations *)

(** The one request whose answer a command of the pipe uses, if it uses
    any. *)
Definition request_of (c : command) : option (http_method * string) :=
  match c with
  | ListNotes => Some (GET, "/api/notes")
  | ReadNote slug => Some (GET, "/api/notes/" ++ slug)
  | SearchNotes query =>
      Some (GET, "/api/notes" ++ query_string (Some [("search", VStr query)]))
  | ListCategories => Some (GET, "/api/categories")
  | ListTags => Some (GET, "/api/tags")
  | DeleteNote slug => Some (DELETE, "/api/notes/" ++ slug)
  | Help | CreateNote | Unrecognized => None
  end.

(** The filter with its commands switched on. *)
Definition commanding (url : string) (auto_fetch : bool) : Filter.Valves := {|
  Filter.mariposa_url := url;
  Filter.enable_auto_fetch := auto_fetch;
  Filter.enable_slash_commands := true
|}.

(** The commands the filter has. *)
Definition filter_command (c : command) : bool :=
  match c with
  | ListNotes | ReadNote _ | CreateNote | SearchNotes _ => true
  | _ => false
  end.

(** A filter with both of its features switched off. *)
Definition switched_off : Filter.Valves := {|
  Filter.mariposa_url := "http://host.docker.internal:3020";
  Filter.enable_auto_fetch := false;
  Filter.enable_slash_commands := false
|}.

(** [plan_service], but one that deletes whatever it is asked to. *)
Definition plan_service_deleting : service := fun method url =>
  match method with
  | GET => plan_service GET url
  | DELETE => Reply {| status_code := 204; http_error := EmptyString;
                       json := inl "Expecting value" |}
  end.

(** ** Sound data *)

(** A value that reads as false, or a list of real notes. *)
Definition sound_notes (notes : pyval) : bool :=
  negb (truthy notes) ||
  match notes with
  | VList l => forallb real_note l
  | _ => false
  end.

(** A value that reads as false, or a list. *)
Definition sound_names (names : pyval) : bool :=
  negb (truthy names) ||
  match names with
  | VList _ => true
  | _ => false
  end.

(** An object whose field [key], when it has one, is [sound]. *)
Definition sound_object (key : string) (sound : pyval -> bool) (data : pyval) : bool :=
  match data with
  | VDict d =>
      match dict_get key d with
      | Some v => sound v
      | None => true
      end
  | _ => false
  end.

(** The body of a listing as the filter can read it: a value that reads as
    false, or a sound object. *)
Definition sound_listing (key : string) (sound : pyval -> bool) (data : pyval) : bool :=
  negb (truthy data) || sound_object key sound data.

(** A service whose answers the filter can read. *)
Definition sound_for_filter (self : Filter.Valves) (svc : service) : Prop :=
  (forall slug,
     truthy (Filter.fetch_note self svc slug) = false \/
     real_note (Filter.fetch_note self svc slug) = true) /\
  (forall params,
     sound_listing "notes" sound_notes
       (Filter.api_get self svc ("/api/notes" ++ query_string params)) = true) /\
  sound_listing "categories" sound_names (Filter.api_get self svc "/api/categories") = true /\
  sound_listing "tags" sound_names (Filter.api_get self svc "/api/tags") = true.

(** A service whose answers the pipe can read. *)
Definition sound_for_pipe (self : Pipe.Valves) (svc : service) : Prop :=
  (forall slug,
     truthy (Pipe.fetch_note self svc slug) = false \/
     real_note (Pipe.fetch_note self svc slug) = true) /\
  (forall params,
     sound_object "notes" sound_notes (Pipe.fetch_notes self svc params) = true) /\
  sound_listing "categories" sound_names (Pipe.api_get self svc "/api/categories") = true /\
  sound_listing "tags" sound_names (Pipe.api_get self svc "/api/tags") = true.

(** A service that holds one note, one category and one tag, and answers 404
    to anything else. *)
Definition notebook : service := fun method url =>
  let found v := Reply {| status_code := 200; http_error := EmptyString; json := inr v |} in
  let not_found := Reply {| status_code := 404; http_error := "404 Client Error: Not Found";
                            json := inl "Expecting value" |} in
  match method with
  | GET =>
      if url =? "http://host.docker.internal:3020/api/notes/note-5" then found plan_note
      else if url =? "http://host.docker.internal:3020/api/notes" then
        found (VDict [("notes", VList [plan_note])])
      else if url =? "http://host.docker.internal:3020/api/categories" then
        found (VDict [("categories", VList [VStr "work"])])
      else if url =? "http://host.docker.internal:3020/api/tags" then
        found (VDict [("tags", VList [VStr "q1"])])
      else not_found
  | DELETE => not_found
  end.

(** A payload whose last message is a text. *)
Definition textual (body : dict) : Prop := exists text, chat_text body = Some text.

(** A computation that, on a payload whose last message is a text, returns
    and leaves such a payload. *)
Definition runs {A : Type} (m : M A) : Prop :=
  forall w, textual (w_body w) ->
    exists a w', m w = (Ok a, w') /\ textual (w_body w').

(** ** A service that fails *)

(** A service whose every GET fails. *)
Definition offline (svc : service) : Prop :=
  forall url, failed ListCategoriesOp (svc GET url) = true.

(** What the filter stores as the last message for a command when the
    service is offline. *)
Definition offline_answer (c : command) : option string :=
  match c with
  | ListNotes =>
      Some ("[User requested note list. Display this to them:]" ++ nl ++ nl
            ++ "⚠️ **No notes found.** Use `/new` to create one.")
  | ReadNote slug =>
      Some ("[Error: note not found]" ++ nl ++ nl
            ++ Filter.render_error_md "Note not found" ("Could not find `" ++ slug ++ "`."))
  | CreateNote => Some (Filter.creation_form "`uncategorized`" "_none yet_")
  | SearchNotes query =>
      Some ("[Search results for '" ++ query ++ "':]" ++ nl ++ nl
            ++ Filter.render_error_md "No results"
                 ("No notes found matching '" ++ query ++ "'."))
  | _ => None
  end.

(** The card the pipe answers a command with when the service is offline;
    [said] gives the text of the failure of a GET of an endpoint.  A deletion
    sends no GET. *)
Definition offline_card (said : string -> string) (c : command) : option string :=
  match c with
  | Help => Some Pipe.render_help
  | ListNotes =>
      Some (Pipe.render_error "Connection Error"
              ("Could not reach Mariposa: " ++ said (op_endpoint (ListNotesOp None))))
  | ReadNote slug =>
      Some (Pipe.render_error "Note not found" ("Could not find <code>" ++ slug ++ "</code>"))
  | SearchNotes query =>
      Some (Pipe.render_error "Search Error"
              (said (op_endpoint (ListNotesOp (Some [("search", VStr query)])))))
  | ListCategories => Some (Pipe.render_error "No categories" "No categories found.")
  | ListTags => Some (Pipe.render_error "No tags" "No tags found.")
  | _ => None
  end.

(** ** The events of a call *)

Definition is_status_event (v : pyval) : Prop :=
  exists description done, v = status_event description done.

(** A computation that reads nothing but the payload and emits nothing. *)
Definition quiet {A : Type} (c : M A) : Prop :=
  forall w0 w1, w_body w0 = w_body w1 ->
    fst (c w1) = fst (c w0) /\
    w_body (snd (c w1)) = w_body (snd (c w0)) /\
    w_events (snd (c w1)) = w_events w1.

(** A computation that uses the event emitter as a side channel: with or
    without it the value and the payload come out the same, without it
    nothing is emitted, with it at most [n] status events are. *)
Definition side_channel {A : Type} (n : nat) (m : bool -> M A) : Prop :=
  forall w0 w1, w_body w0 = w_body w1 ->
    fst (m true w1) = fst (m false w0) /\
    w_body (snd (m true w1)) = w_body (snd (m false w0)) /\
    w_events (snd (m false w0)) = w_events w0 /\
    exists new,
      w_events (snd (m true w1)) = (w_events w1 ++ new)%list /\
      List.length new <= n /\ Forall is_status_event new.

(** A computation that, when it returns, has appended to the events a list
    of the shape [P]. *)
Definition appends {A : Type} (P : list pyval -> Prop) (m : M A) : Prop :=
  forall w a w', m w = (Ok a, w') ->
    exists new, w_events w' = (w_events w ++ new)%list /\ P new.

Definition no_event (new : list pyval) : Prop := new = [].

(** One status event that says the work is done. *)
Definition closing_status (new : list pyval) : Prop :=
  exists description, new = [status_event description true].

(** No event, or a status that says the work goes on and then one that says
    it is done. *)
Definition status_pair (new : list pyval) : Prop :=
  new = [] \/
  exists d1 d2, new = [status_event d1 false; status_event d2 true].

(** * Properties *)

(** ** Text *)

Lemma append_assoc (a b c : string) : (a ++ b) ++ c = a ++ (b ++ c).
Proof.
  induction a as [|x a IH]; simpl; [reflexivity | now rewrite IH].
Qed.

Lemma append_nil_r (a : string) : a ++ EmptyString = a.
Proof.
  induction a as [|x a IH]; simpl; [reflexivity | now rewrite IH].
Qed.

Lemma append_length (a b : string) :
  String.length (a ++ b) = String.length a + String.length b.
Proof.
  induction a as [|x a IH]; simpl; [reflexivity | now rewrite IH].
Qed.

Lemma is_space_lower (c : ascii) : is_space (lower_char c) = is_space c.
Proof.
  destruct c as [[] [] [] [] [] [] [] []]; reflexivity.
Qed.

Lemma lower_app (a b : string) : lower (a ++ b) = lower a ++ lower b.
Proof.
  induction a as [|x a IH]; simpl; [reflexivity | now rewrite IH].
Qed.

Lemma lower_spaces (ws : string) :
  all_chars is_space (lower ws) = all_chars is_space ws.
Proof.
  induction ws as [|x ws IH]; simpl; [reflexivity | now rewrite is_space_lower, IH].
Qed.

Lemma lstrip_spaces_app (ws s : string) :
  all_chars is_space ws = true -> lstrip (ws ++ s) = lstrip s.
Proof.
  induction ws as [|x ws IH]; simpl; intros H; [reflexivity|].
  apply andb_true_iff in H as [Hx Hws]. rewrite Hx. now apply IH.
Qed.

Lemma rstrip_spaces (ws : string) :
  all_chars is_space ws = true -> rstrip ws = EmptyString.
Proof.
  induction ws as [|x ws IH]; simpl; intros H; [reflexivity|].
  apply andb_true_iff in H as [Hx Hws]. now rewrite (IH Hws), Hx.
Qed.

Lemma rstrip_app_spaces (s ws : string) :
  all_chars is_space ws = true -> rstrip (s ++ ws) = rstrip s.
Proof.
  intros H. induction s as [|x s IH]; simpl.
  - now apply rstrip_spaces.
  - now rewrite IH.
Qed.

Lemma rstrip_keeps (s : string) (b : ascii) :
  last_char s = Some b -> is_space b = false -> rstrip s = s.
Proof.
  induction s as [|x s IH]; simpl; intros Hl Hb; [discriminate|].
  destruct (last_char s) as [d|] eqn:E.
  - rewrite (IH Hl Hb). destruct s; [discriminate | reflexivity].
  - destruct s as [|y s]; [|simpl in E; destruct (last_char s); discriminate].
    simpl. injection Hl as ->. now rewrite Hb.
Qed.

Lemma lstrip_keeps (s : string) (a : ascii) :
  first_char s = Some a -> is_space a = false -> lstrip s = s.
Proof.
  destruct s as [|x s]; simpl; intros Hf Ha; [discriminate|].
  injection Hf as ->. now rewrite Ha.
Qed.

Lemma strip_trimmed (s : string) : trimmed s = true -> strip s = s.
Proof.
  unfold trimmed, strip. intros H.
  destruct (first_char s) as [a|] eqn:Ea; [|discriminate].
  destruct (last_char s) as [b|] eqn:Eb; [|discriminate].
  apply andb_true_iff in H as [Ha Hb].
  apply negb_true_iff in Ha, Hb.
  rewrite (lstrip_keeps s a Ea Ha). now apply (rstrip_keeps s b).
Qed.

(** Whitespace around a trimmed text is what [strip] removes. *)
Lemma strip_padded (ws1 k ws2 : string) :
  all_chars is_space ws1 = true -> all_chars is_space ws2 = true ->
  trimmed k = true -> strip (ws1 ++ k ++ ws2) = k.
Proof.
  intros H1 H2 Hk. unfold strip.
  rewrite lstrip_spaces_app by exact H1.
  unfold trimmed in Hk.
  destruct (first_char k) as [a|] eqn:Ea; [|discriminate].
  destruct (last_char k) as [b|] eqn:Eb; [|discriminate].
  apply andb_true_iff in Hk as [Ha Hb]. apply negb_true_iff in Ha, Hb.
  assert (Hf : first_char (k ++ ws2) = Some a) by (destruct k; [discriminate | exact Ea]).
  rewrite (lstrip_keeps _ a Hf Ha), rstrip_app_spaces by exact H2.
  now apply (rstrip_keeps k b).
Qed.

Lemma lower_lstrip (s : string) : lower (lstrip s) = lstrip (lower s).
Proof.
  induction s as [|x s IH]; simpl; [reflexivity|].
  rewrite is_space_lower. destruct (is_space x); [exact IH | reflexivity].
Qed.

Lemma lower_rstrip (s : string) : lower (rstrip s) = rstrip (lower s).
Proof.
  induction s as [|x s IH]; simpl; [reflexivity|].
  rewrite <- IH, is_space_lower.
  destruct (rstrip s); simpl; [destruct (is_space x)|]; reflexivity.
Qed.

Lemma lower_strip (s : string) : lower (strip s) = strip (lower s).
Proof.
  unfold strip. now rewrite lower_rstrip, lower_lstrip.
Qed.

Lemma command_text_padded (ws1 k ws2 : string) :
  all_chars is_space ws1 = true -> all_chars is_space ws2 = true ->
  trimmed (lower k) = true ->
  command_text (ws1 ++ k ++ ws2) = lower k.
Proof.
  intros H1 H2 Hk. unfold command_text.
  rewrite lower_strip, !lower_app.
  rewrite strip_padded; try (rewrite lower_spaces; assumption); try exact Hk.
  now apply strip_trimmed.
Qed.

Lemma prefix_contains (sub s : string) : prefix sub s = true -> contains sub s = true.
Proof. intros H. destruct s; simpl in *; now rewrite H. Qed.

Lemma contains_app_r (sub a b : string) :
  contains sub b = true -> contains sub (a ++ b) = true.
Proof.
  intros H. induction a as [|c a IH]; [exact H|].
  simpl. rewrite IH. apply orb_true_r.
Qed.

Lemma contains_skip (sub s : string) (c : ascii) :
  contains sub s = true -> contains sub (String c s) = true.
Proof. intros H. simpl. rewrite H. apply orb_true_r. Qed.

(** [sub] occurs in a text that is given as a chain of appended pieces, and
    begins in a piece that is written out. *)
Ltac occurs :=
  repeat first [ apply prefix_contains; reflexivity
               | apply contains_skip
               | apply contains_app_r ].

(** ** C3: the list-notes keywords *)

(** C3.  A message that is one of the list-notes keywords of an adapter, in
    any letter casing and with any whitespace around it, is the list-notes
    command of that adapter: for the filter the keywords are [/notes] and
    [notes], for the pipe [notes], [/notes], [list notes], [show notes] and
    [my notes]. *)
Theorem list_notes_keyword_any_case :
  forall (ws1 text ws2 keyword : string),
    all_chars is_space ws1 = true ->
    all_chars is_space ws2 = true ->
    lower text = keyword ->
    (In keyword ["/notes"; "notes"] ->
     Filter.parse (command_text (ws1 ++ text ++ ws2)) = ListNotes) /\
    (In keyword Pipe.notes_keywords ->
     Pipe.parse (command_text (ws1 ++ text ++ ws2)) = ListNotes).
Proof.
  intros ws1 text ws2 keyword H1 H2 Hk.
  split; intros Hin; simpl in Hin;
    repeat (destruct Hin as [<- | Hin]; [
      rewrite command_text_padded by (try assumption; rewrite Hk; reflexivity);
      rewrite Hk; reflexivity |]);
    contradiction.
Qed.

Lemma list_notes_keyword_any_case_witness :
  Filter.parse (command_text (" " ++ "/Notes" ++ " ")) = ListNotes /\
  Pipe.parse (command_text (" " ++ "/Notes" ++ " ")) = ListNotes.
Proof.
  destruct (list_notes_keyword_any_case " " "/Notes" " " "/notes"
              eq_refl eq_refl eq_refl) as [HA HB].
  split; [apply HA | apply HB]; simpl; auto.
Defined.

(** ** C1: the notes client when the service fails *)

(** C1, as amended.  When the service fails, no operation of the notes
    client raises.  The filter gives [None] for a note, the empty list for the
    three listings and [False] for a delete.  The pipe gives a dict holding
    the error message for a note, the list of notes and a delete, and the
    empty list, with no message, for the categories and the tags. *)
Theorem client_degrades_on_failure :
  forall (a : Filter.Valves) (b : Pipe.Valves) (svc : service) (op : operation),
    failed op (svc (op_method op) (Filter.mariposa_url a ++ op_endpoint op)) = true ->
    failed op (svc (op_method op) (Pipe.mariposa_url b ++ op_endpoint op)) = true ->
    client_A a svc op = Ok (degraded_A op) /\
    client_B b svc op =
      Ok (degraded_B op
            (failure_text op (svc (op_method op) (Pipe.mariposa_url b ++ op_endpoint op)))).
Proof.
  intros a b svc op HA HB.
  destruct op as [slug|params| | |slug]; cbn [op_method op_endpoint] in *;
    unfold client_A, client_B, Filter.fetch_note, Filter.fetch_notes,
      Filter.fetch_categories, Filter.fetch_tags, Filter.api_get, Filter.api_delete,
      Pipe.fetch_note, Pipe.fetch_notes, Pipe.fetch_categories, Pipe.fetch_tags,
      Pipe.api_get, Pipe.api_delete, http_get_json.
  all: lazymatch type of HA with failed _ ?rp = true => destruct rp as [msgA|rA] end.
  all: lazymatch type of HB with failed _ ?rp = true => destruct rp as [msgB|rB] end.
  all: cbn [failed failure_text degraded_A degraded_B] in *.
  all: repeat match goal with
       | H : negb _ = true |- _ => apply negb_true_iff in H; rewrite H
       | H : error_status ?r || _ = true |- _ =>
           destruct (error_status r); cbn [orb] in H
       | H : match json ?r with inl _ => true | inr _ => false end = true |- _ =>
           destruct (json r); [clear H | discriminate H]
       end.
  all: split; reflexivity.
Qed.

Lemma client_degrades_on_failure_witness :
  client_A Filter.default_valves unreachable (GetNote "note-5") = Ok VNone /\
  client_B Pipe.default_valves unreachable (GetNote "note-5")
  = Ok (VDict [("error", VStr "connection refused")]).
Proof.
  exact (client_degrades_on_failure Filter.default_valves Pipe.default_valves
           unreachable (GetNote "note-5") eq_refl eq_refl).
Defined.

(** C1 as the specification words it for the pipe: every operation that fails would
    hand back an error message.  The listing of the categories does not. *)
Lemma pipe_categories_drop_the_error :
  ~ (forall (b : Pipe.Valves) (svc : service) (op : operation),
       failed op (svc (op_method op) (Pipe.mariposa_url b ++ op_endpoint op)) = true ->
       exists v, client_B b svc op = Ok v /\ carries_error v = true).
Proof.
  intros H.
  destruct (H Pipe.default_valves unreachable ListCategoriesOp eq_refl) as [v [Hv He]].
  vm_compute in Hv. injection Hv as <-. discriminate He.
Qed.

(** A status outside 2xx that [raise_for_status] lets through: the body of a
    300 is returned like any other. *)
Example redirect_status_is_read :
  let svc : service := fun _ _ =>
    Reply {| status_code := 300; http_error := EmptyString;
             json := inr (VDict [("title", VStr "Plan")]) |} in
  Filter.fetch_note Filter.default_valves svc "note-5" = VDict [("title", VStr "Plan")].
Proof. reflexivity. Qed.

(** ** C2 and C8: what escapes the adapters *)

(** C2.  The pipe calls [strip] on a content that is no string, and both
    adapters call [get] on a JSON body that is no object: the
    [AttributeError] leaves the adapter. *)
Theorem adapters_raise_on_unexpected_types :
  (forall (self : Pipe.Valves) (svc : service) (events : list pyval),
     fst (Pipe.pipe self svc {| w_body := body_with_parts; w_events := events |})
     = Raise AttributeError) /\
  (forall (self : Pipe.Valves) (events : list pyval),
     fst (Pipe.pipe self array_service
            {| w_body := body_with_text "notes"; w_events := events |})
     = Raise AttributeError) /\
  (forall (order : SetOrder) (emitter : bool) (events : list pyval),
     fst (Filter.inlet Filter.default_valves array_service order emitter
            {| w_body := body_with_text "notes"; w_events := events |})
     = Raise AttributeError).
Proof.
  split; [|split]; intros.
  - reflexivity.
  - reflexivity.
  - destruct emitter; reflexivity.
Qed.

(** The filter guards the same read: a content in parts comes back as it
    was. *)
Example inlet_skips_content_in_parts :
  forall (self : Filter.Valves) (svc : service) (order : SetOrder) (emitter : bool),
    Filter.inlet self svc order emitter {| w_body := body_with_parts; w_events := [] |}
    = (Ok (VDict body_with_parts), {| w_body := body_with_parts; w_events := [] |}).
Proof. reflexivity. Qed.

(** The pipe never reads [passthrough_model]: two configurations that differ
    only there give the same outcome on every input. *)
Lemma pipe_ignores_passthrough_model :
  forall (url model1 model2 : string) (svc : service) (w : world),
    Pipe.pipe {| Pipe.mariposa_url := url; Pipe.passthrough_model := model1 |} svc w
    = Pipe.pipe {| Pipe.mariposa_url := url; Pipe.passthrough_model := model2 |} svc w.
Proof. reflexivity. Qed.

(** C8.  On a content in parts the pipe returns no string, whatever
    [passthrough_model] holds: the outcome is the exception. *)
Theorem pipe_returns_no_string_for_parts :
  forall (url model : string) (svc : service) (events : list pyval),
    let self := {| Pipe.mariposa_url := url; Pipe.passthrough_model := model |} in
    let outcome := fst (Pipe.pipe self svc {| w_body := body_with_parts; w_events := events |}) in
    outcome = Raise AttributeError /\ (forall s : string, outcome <> Ok s).
Proof.
  intros url model svc events. simpl. split; [reflexivity | intros s H; discriminate H].
Qed.

(** ** C9: placeholders of the single-note renderers *)

Lemma dict_get_set_same (k : string) (v : pyval) (d : dict) :
  dict_get k (dict_set k v d) = Some v.
Proof.
  induction d as [|[k' v'] d IH]; simpl.
  - now rewrite String.eqb_refl.
  - destruct (k' =? k) eqn:E; simpl; rewrite E; [reflexivity | exact IH].
Qed.

Lemma dict_get_set_other (k k0 : string) (v : pyval) (d : dict) :
  k0 <> k -> dict_get k0 (dict_set k v d) = dict_get k0 d.
Proof.
  intros Hne. induction d as [|[k' v'] d IH]; simpl.
  - destruct (k =? k0) eqn:E; [apply String.eqb_eq in E; congruence | reflexivity].
  - destruct (k' =? k) eqn:E; simpl.
    + apply String.eqb_eq in E. subst k'.
      destruct (k =? k0) eqn:E0; [apply String.eqb_eq in E0; congruence | reflexivity].
    + destruct (k' =? k0); [reflexivity | exact IH].
Qed.

Lemma dict_get_default_set_same (k : string) (v default : pyval) (d : dict) :
  dict_get_default k default (dict_set k v d) = v.
Proof. unfold dict_get_default. now rewrite dict_get_set_same. Qed.

Lemma dict_get_default_set_other (k k0 : string) (v default : pyval) (d : dict) :
  k0 <> k ->
  dict_get_default k0 default (dict_set k v d) = dict_get_default k0 default d.
Proof. intros H. unfold dict_get_default. now rewrite dict_get_set_other. Qed.

Lemma dict_get_default_missing (k : string) (default : pyval) (d : dict) :
  dict_get k d = None -> dict_get_default k default d = default.
Proof. intros H. unfold dict_get_default. now rewrite H. Qed.

Lemma shown_missing (k placeholder : string) (note : dict) :
  dict_get k note = None -> shown k placeholder note = placeholder.
Proof. intros H. unfold shown. now rewrite (dict_get_default_missing k _ note H). Qed.

Lemma shown_content_missing (placeholder : string) (note : dict) :
  dict_get "content" note = None -> shown_content placeholder note = placeholder.
Proof.
  intros H. unfold shown_content. now rewrite (dict_get_default_missing "content" _ note H).
Qed.

Lemma render_note_md_shape (note : dict) (md : string) :
  Filter.render_note_md (VDict note) false = Ok md ->
  exists tags_str,
    md = Filter.note_md (shown "title" "Untitled" note)
           (shown "category" "uncategorized" note) tags_str
           (shown "slug" EmptyString note) (shown "updatedAt" EmptyString note)
           (shown_content "_No content_" note) /\
    (dict_get "tags" note = None -> tags_str = "_no tags_").
Proof.
  unfold Filter.render_note_md, py_get, shown, shown_content. cbn [rbind].
  destruct (dict_get "tags" note) as [tags|] eqn:Et.
  - destruct (if truthy (dict_get_default "tags" (VList []) note) then _ else _)
      as [tags_str|e]; cbn [rbind]; [|discriminate].
    intros [= <-]. exists tags_str. split; [reflexivity | discriminate].
  - rewrite (dict_get_default_missing "tags" _ note Et). cbn [truthy rbind].
    intros [= <-]. exists "_no tags_". split; [reflexivity | reflexivity].
Qed.

Lemma render_note_card_shape (note : dict) (html : string) :
  Pipe.render_note_card (VDict note) = Ok html ->
  exists tags_html,
    html = Pipe.note_card (shown "title" "Untitled" note)
             (shown "category" "uncategorized" note) tags_html
             (shown "slug" EmptyString note) (shown "updatedAt" EmptyString note)
             (shown_content "(empty)" note) /\
    (dict_get "tags" note = None ->
     tags_html = "<span style=" ++ dq ++ "color:#666;font-size:12px;" ++ dq
                 ++ ">no tags</span>").
Proof.
  unfold Pipe.render_note_card, py_get, shown, shown_content. cbn [rbind].
  destruct (dict_get "tags" note) as [tags|] eqn:Et.
  - destruct (if truthy (dict_get_default "tags" (VList []) note) then _ else _)
      as [tags_html|e]; cbn [rbind]; [|discriminate].
    intros [= <-]. exists tags_html. split; [reflexivity | discriminate].
  - rewrite (dict_get_default_missing "tags" _ note Et). cbn [truthy rbind].
    intros [= <-]. eexists. split; reflexivity.
Qed.

Lemma placeholders_occur (note : dict) (k md_part html_part md html : string) :
  dict_get k note = None ->
  In (k, md_part, html_part) placeholders ->
  Filter.render_note_md (VDict note) false = Ok md ->
  Pipe.render_note_card (VDict note) = Ok html ->
  contains md_part md = true /\ contains html_part html = true.
Proof.
  intros Hk Hin Hmd Hhtml.
  destruct (render_note_md_shape note md Hmd) as (tags_str & -> & Hts).
  destruct (render_note_card_shape note html Hhtml) as (tags_html & -> & Hth).
  unfold Filter.note_md, Pipe.note_card. simpl in Hin.
  destruct Hin as [H | [H | [H | [H | []]]]]; injection H as <- <- <-.
  - rewrite !(shown_missing "title" _ note Hk). split; occurs.
  - rewrite !(shown_missing "category" _ note Hk). split; occurs.
  - rewrite (Hts Hk), (Hth Hk). split; occurs.
  - rewrite !(shown_content_missing _ note Hk). split; occurs.
Qed.

Lemma renderers_return (note : dict) :
  listed_tags note = true ->
  exists md html,
    Filter.render_note_md (VDict note) false = Ok md /\
    Pipe.render_note_card (VDict note) = Ok html.
Proof.
  unfold listed_tags, Filter.render_note_md, Pipe.render_note_card, py_get.
  cbn [rbind]. unfold dict_get_default.
  destruct (dict_get "tags" note) as [[| | | |[|t l]|]|]; try discriminate; intros _;
    eexists; eexists; split; reflexivity.
Qed.

(** C9.  A note with no title is rendered as one titled [Untitled], a note
    with no category as one in [uncategorized], a note with no content as one
    whose content is [_No content_] (Markdown) or [(empty)] (HTML); a note
    with no tags shows [_no tags_] (Markdown) or [no tags] (HTML) where the
    tags go.  Whatever the renderers return for such a note holds the
    placeholder in the place of the field, and they do return when the tags
    are missing or a list. *)
Theorem missing_fields_get_placeholders :
  forall (note : dict) (k : string),
    dict_get k note = None ->
    ((k = "title" ->
      Filter.render_note_md (VDict note) false
      = Filter.render_note_md (VDict (dict_set "title" (VStr "Untitled") note)) false /\
      Pipe.render_note_card (VDict note)
      = Pipe.render_note_card (VDict (dict_set "title" (VStr "Untitled") note))) /\
     (k = "category" ->
      Filter.render_note_md (VDict note) false
      = Filter.render_note_md (VDict (dict_set "category" (VStr "uncategorized") note)) false /\
      Pipe.render_note_card (VDict note)
      = Pipe.render_note_card (VDict (dict_set "category" (VStr "uncategorized") note))) /\
     (k = "content" ->
      Filter.render_note_md (VDict note) false
      = Filter.render_note_md (VDict (dict_set "content" (VStr "_No content_") note)) false /\
      Pipe.render_note_card (VDict note)
      = Pipe.render_note_card (VDict (dict_set "content" (VStr "(empty)") note))) /\
     (k = "tags" ->
      Filter.render_note_md (VDict note) false
      = Ok (Filter.note_md (shown "title" "Untitled" note)
              (shown "category" "uncategorized" note) "_no tags_"
              (shown "slug" EmptyString note) (shown "updatedAt" EmptyString note)
              (shown_content "_No content_" note)) /\
      Pipe.render_note_card (VDict note)
      = Ok (Pipe.note_card (shown "title" "Untitled" note)
              (shown "category" "uncategorized" note)
              ("<span style=" ++ dq ++ "color:#666;font-size:12px;" ++ dq ++ ">no tags</span>")
              (shown "slug" EmptyString note) (shown "updatedAt" EmptyString note)
              (shown_content "(empty)" note)))) /\
    (forall md_part html_part md html,
       In (k, md_part, html_part) placeholders ->
       Filter.render_note_md (VDict note) false = Ok md ->
       Pipe.render_note_card (VDict note) = Ok html ->
       contains md_part md = true /\ contains html_part html = true) /\
    (listed_tags note = true ->
     exists md html,
       Filter.render_note_md (VDict note) false = Ok md /\
       Pipe.render_note_card (VDict note) = Ok html).
Proof.
  intros note k Hk.
  split; [|split; [intros md_part html_part md html Hin Hmd Hhtml;
                   now apply (placeholders_occur note k)
                  |apply renderers_return]].
  split; [|split; [|split]]; intros ->; split;
    unfold Filter.render_note_md, Pipe.render_note_card, py_get, rbind,
      shown, shown_content.
  - rewrite (dict_get_default_missing "title" _ note Hk), dict_get_default_set_same.
    rewrite !(dict_get_default_set_other "title") by discriminate. reflexivity.
  - rewrite (dict_get_default_missing "title" _ note Hk), dict_get_default_set_same.
    rewrite !(dict_get_default_set_other "title") by discriminate. reflexivity.
  - rewrite (dict_get_default_missing "category" _ note Hk), dict_get_default_set_same.
    rewrite !(dict_get_default_set_other "category") by discriminate. reflexivity.
  - rewrite (dict_get_default_missing "category" _ note Hk), dict_get_default_set_same.
    rewrite !(dict_get_default_set_other "category") by discriminate. reflexivity.
  - rewrite (dict_get_default_missing "content" _ note Hk), dict_get_default_set_same.
    rewrite !(dict_get_default_set_other "content") by discriminate. reflexivity.
  - rewrite (dict_get_default_missing "content" _ note Hk), dict_get_default_set_same.
    rewrite !(dict_get_default_set_other "content") by discriminate. reflexivity.
  - rewrite (dict_get_default_missing "tags" _ note Hk). reflexivity.
  - rewrite (dict_get_default_missing "tags" _ note Hk). reflexivity.
Qed.

Lemma missing_fields_get_placeholders_witness :
  exists md html,
    Filter.render_note_md (VDict [("slug", VStr "note-1")]) false = Ok md /\
    Pipe.render_note_card (VDict [("slug", VStr "note-1")]) = Ok html /\
    contains ("### Untitled" ++ nl) md = true /\
    contains ("<h3 class=" ++ dq ++ "note-title" ++ dq ++ ">Untitled</h3>") html = true.
Proof.
  destruct (missing_fields_get_placeholders [("slug", VStr "note-1")] "title" eq_refl)
    as (_ & Hocc & Hret).
  destruct (Hret eq_refl) as (md & html & Hmd & Hhtml).
  exists md, html. split; [exact Hmd|]. split; [exact Hhtml|].
  apply (Hocc _ _ md html); [simpl; auto | exact Hmd | exact Hhtml].
Defined.

(** A note that has only its slug, in full. *)
Example render_note_md_slug_only :
  Filter.render_note_md (VDict [("slug", VStr "note-1")]) false
  = Ok (Filter.note_md "Untitled" "uncategorized" "_no tags_" "note-1" EmptyString
          "_No content_").
Proof. reflexivity. Qed.

Example render_note_card_slug_only :
  Pipe.render_note_card (VDict [("slug", VStr "note-1")])
  = Ok (Pipe.note_card "Untitled" "uncategorized"
          ("<span style=" ++ dq ++ "color:#666;font-size:12px;" ++ dq ++ ">no tags</span>")
          "note-1" EmptyString "(empty)").
Proof. reflexivity. Qed.

(** ** Reading the chat turn *)

Lemma split_last_app {A : Type} (l init : list A) (x : A) :
  split_last l = Some (init, x) <-> l = (init ++ [x])%list.
Proof.
  split.
  - revert init. induction l as [|a l IH]; simpl; intros init H; [discriminate|].
    destruct (split_last l) as [[i y]|] eqn:E.
    + injection H as <- <-. simpl. f_equal. now apply IH.
    + injection H as <- <-. destruct l as [|b l]; [reflexivity|].
      simpl in E. destruct (split_last l) as [[? ?]|]; discriminate.
  - intros ->. induction init as [|a init IH]; simpl; [reflexivity | now rewrite IH].
Qed.

Lemma split_last_truthy (l : list pyval) (p : list pyval * pyval) :
  split_last l = Some p -> truthy (VList l) = true.
Proof. destruct l; simpl; [discriminate | reflexivity]. Qed.

Lemma inlet_reads_text (self : Filter.Valves) (svc : service) (order : SetOrder)
    (emitter : bool) (w : world) (text : string) :
  chat_text (w_body w) = Some text ->
  Filter.inlet self svc order emitter w
  = Filter.on_message self svc order emitter (strip text) w.
Proof.
  unfold chat_text. intros H.
  destruct (dict_get "messages" (w_body w)) as [[| | | |l|]|] eqn:Em; try discriminate.
  destruct (split_last l) as [[init [| | | | |m]]|] eqn:El; try discriminate.
  assert (Hd : dict_get_default "messages" (VList []) (w_body w) = VList l)
    by (unfold dict_get_default; now rewrite Em).
  unfold Filter.inlet, bind, get_body. rewrite !Hd, (split_last_truthy l _ El).
  cbn [negb lift py_last]. rewrite El. cbn [py_get].
  destruct (dict_get_default "content" (VStr EmptyString) m); try discriminate.
  cbn [py_strip]. now injection H as ->.
Qed.

Lemma pipe_reads_text (self : Pipe.Valves) (svc : service) (w : world) (text : string) :
  chat_text (w_body w) = Some text ->
  Pipe.pipe self svc w
  = (Pipe.run self svc (Pipe.parse (command_text text)) (strip text), w).
Proof.
  unfold chat_text. intros H.
  destruct (dict_get "messages" (w_body w)) as [[| | | |l|]|] eqn:Em; try discriminate.
  destruct (split_last l) as [[init [| | | | |m]]|] eqn:El; try discriminate.
  assert (Hd : dict_get_default "messages" (VList []) (w_body w) = VList l)
    by (unfold dict_get_default; now rewrite Em).
  unfold Pipe.pipe, bind, get_body. rewrite !Hd, (split_last_truthy l _ El).
  cbn [negb lift py_last]. rewrite El. cbn [py_get].
  destruct (dict_get_default "content" (VStr EmptyString) m); try discriminate.
  cbn [py_strip]. now injection H as ->.
Qed.


(** ** C7: a message that is no command and mentions no note *)



(** ** C10: what an adapter call changes in the payload *)

Lemma dict_keys_set_present (k : string) (v v0 : pyval) (d : dict) :
  dict_get k d = Some v0 -> dict_keys (dict_set k v d) = dict_keys d.
Proof.
  induction d as [|[k' v'] d IH]; simpl; intros H; [discriminate|].
  destruct (k' =? k); simpl; [reflexivity|]. f_equal. now apply IH.
Qed.

Lemma messages_frame_refl (x : option pyval) : messages_frame x x.
Proof.
  destruct x as [[| | | |l|]|]; simpl; try reflexivity.
  split; [reflexivity|]. split; [reflexivity|].
  intros i y y' _ H1 H2. rewrite H1 in H2. injection H2 as <-.
  destruct y; simpl; reflexivity.
Qed.

Lemma frame_refl (body : dict) : frame body body.
Proof.
  split; [reflexivity|]. split; [reflexivity|]. apply messages_frame_refl.
Qed.

Lemma stored_content_frame (body body' : dict) :
  stored_content body body' -> frame body body'.
Proof.
  intros (init & m & v & Hm & ->). unfold frame. rewrite dict_get_set_same, Hm.
  split; [now apply dict_keys_set_present with (v0 := VList (init ++ [VDict m])%list)|].
  split; [intros k Hk; now apply dict_get_set_other|].
  simpl. rewrite !length_app. simpl. split; [reflexivity|]. split.
  - intros i Hi. rewrite !nth_error_app1 by lia. reflexivity.
  - intros i y y' Hi Hy Hy'.
    assert (i = List.length init) as -> by lia.
    rewrite nth_error_app2, Nat.sub_diag in Hy, Hy' by lia.
    simpl in Hy, Hy'. injection Hy as <-. injection Hy' as <-.
    simpl. intros k Hk. now apply dict_get_set_other.
Qed.

Section Frames.

Context {A B : Type}.

Lemma keeps_ret (a : A) : keeps_body (ret a).
Proof. intros w. reflexivity. Qed.

Lemma keeps_lift (r : result A) : keeps_body (lift r).
Proof. intros w. reflexivity. Qed.

Lemma keeps_bind (m : M A) (f : A -> M B) :
  keeps_body m -> (forall a, keeps_body (f a)) -> keeps_body (bind m f).
Proof.
  intros Hm Hf w. unfold bind. specialize (Hm w).
  destruct (m w) as [[a|e] w']; simpl in *; [now rewrite Hf | exact Hm].
Qed.

Lemma stores_of_keeps (m : M A) : keeps_body m -> stores_at_most m.
Proof. intros H w. left. apply H. Qed.

Lemma stores_after_keeps (m : M A) (f : A -> M B) :
  keeps_body m -> (forall a, stores_at_most (f a)) -> stores_at_most (bind m f).
Proof.
  intros Hm Hf w. unfold bind. specialize (Hm w).
  destruct (m w) as [[a|e] w']; simpl in *.
  - rewrite <- Hm. apply Hf.
  - now left.
Qed.

Lemma keeps_after_stores (m : M A) (f : A -> M B) :
  stores_at_most m -> (forall a, keeps_body (f a)) -> stores_at_most (bind m f).
Proof.
  intros Hm Hf w. unfold bind. specialize (Hm w).
  destruct (m w) as [[a|e] w']; simpl in *; [rewrite Hf|]; exact Hm.
Qed.

Lemma read_only_ret (a : A) : read_only (ret a).
Proof. intros w. reflexivity. Qed.

Lemma read_only_lift (r : result A) : read_only (lift r).
Proof. intros w. reflexivity. Qed.

Lemma read_only_bind (m : M A) (f : A -> M B) :
  read_only m -> (forall a, read_only (f a)) -> read_only (bind m f).
Proof.
  intros Hm Hf w. unfold bind. specialize (Hm w).
  destruct (m w) as [[a|e] w']; simpl in *; subst w'; [apply Hf | reflexivity].
Qed.

End Frames.

Lemma keeps_get_body : keeps_body get_body.
Proof. intros w. reflexivity. Qed.

Lemma read_only_get_body : read_only get_body.
Proof. intros w. reflexivity. Qed.

Lemma keeps_return_body : keeps_body return_body.
Proof. intros w. reflexivity. Qed.

Lemma keeps_emit (emitter : bool) (event : pyval) : keeps_body (emit emitter event).
Proof. intros w. unfold emit. destruct emitter; reflexivity. Qed.

Lemma stores_set_last_content (text : string) : stores_at_most (set_last_content text).
Proof.
  intros w. unfold set_last_content, store_last.
  destruct (dict_get "messages" (w_body w)) as [[| | | |l|]|] eqn:Em; try (now left).
  destruct (split_last l) as [[init [| | | | |m]]|] eqn:El; try (now left).
  right. apply split_last_app in El. subst l.
  exists init, m, (VStr text). split; [exact Em | reflexivity].
Qed.

Create HintDb frames.

#[local] Hint Resolve keeps_ret keeps_lift keeps_get_body keeps_return_body keeps_emit
  stores_set_last_content : frames.

Ltac frames :=
  repeat first
    [ progress auto with frames
    | apply keeps_bind; [|intros ?]
    | apply keeps_after_stores; [|intros ?]
    | apply stores_after_keeps; [|intros ?]
    | apply stores_of_keeps ].

Lemma stores_auto_fetch (self : Filter.Valves) (svc : service) (order : SetOrder)
    (original_msg : string) :
  stores_at_most (Filter.auto_fetch self svc order original_msg).
Proof.
  unfold Filter.auto_fetch.
  destruct (Filter.enable_auto_fetch self); [|frames].
  destruct (Filter.mentioned_slugs order original_msg); [frames|].
  apply stores_after_keeps; [frames|]. intros [|part parts]; frames.
Qed.

Lemma stores_on_message (self : Filter.Valves) (svc : service) (order : SetOrder)
    (emitter : bool) (original_msg : string) :
  stores_at_most (Filter.on_message self svc order emitter original_msg).
Proof.
  unfold Filter.on_message, Filter.emit_status.
  destruct (Filter.enable_slash_commands self); [|apply stores_auto_fetch].
  destruct (Filter.parse (strip (lower original_msg))); try apply stores_auto_fetch.
  - apply stores_after_keeps; [frames|]. intros _.
    apply stores_after_keeps; [frames|]. intros notes.
    apply stores_after_keeps; [frames|]. intros md.
    apply stores_after_keeps; [frames|]. intros _.
    apply keeps_after_stores; frames.
  - apply stores_after_keeps; [frames|]. intros _.
    apply keeps_after_stores; [|frames].
    destruct (truthy (Filter.fetch_note self svc slug)).
    + apply stores_after_keeps; [frames|]. intros md.
      apply stores_after_keeps; frames.
    + apply stores_after_keeps; frames.
  - apply stores_after_keeps; [frames|]. intros form.
    apply keeps_after_stores; frames.
  - apply stores_after_keeps; [frames|]. intros _.
    apply stores_after_keeps; [frames|]. intros notes.
    apply stores_after_keeps.
    + destruct (truthy notes); frames.
    + intros md. apply keeps_after_stores; frames.
Qed.

Lemma stores_inlet (self : Filter.Valves) (svc : service) (order : SetOrder)
    (emitter : bool) :
  stores_at_most (Filter.inlet self svc order emitter).
Proof.
  unfold Filter.inlet.
  apply stores_after_keeps; [frames|]. intros body.
  destruct (negb _); [frames|].
  apply stores_after_keeps; [frames|]. intros last.
  apply stores_after_keeps; [frames|]. intros last_msg.
  destruct last_msg; try (frames; fail). apply stores_on_message.
Qed.

Lemma read_only_pipe (self : Pipe.Valves) (svc : service) :
  read_only (Pipe.pipe self svc).
Proof.
  unfold Pipe.pipe.
  apply read_only_bind; [apply read_only_get_body|]. intros body.
  destruct (negb _); [apply read_only_ret|].
  repeat (apply read_only_bind; [apply read_only_lift|]; intros ?).
  apply read_only_lift.
Qed.

Lemma returns_return_body : returns_body return_body.
Proof. intros w v H. simpl in H. now injection H as <-. Qed.

Lemma returns_bind {A : Type} (m : M A) (f : A -> M pyval) :
  (forall a, returns_body (f a)) -> returns_body (bind m f).
Proof.
  intros Hf w v. unfold bind. destruct (m w) as [[a|e] w']; [apply Hf | discriminate].
Qed.

Ltac returns :=
  repeat first [ apply returns_return_body | apply returns_bind; intros ? ].

(** What [inlet] returns is the payload the caller holds, as the call left
    it. *)
Lemma inlet_returns_the_payload (self : Filter.Valves) (svc : service)
    (order : SetOrder) (emitter : bool) :
  returns_body (Filter.inlet self svc order emitter).
Proof.
  unfold Filter.inlet. apply returns_bind. intros body.
  destruct (negb _); [returns|].
  apply returns_bind. intros last. apply returns_bind. intros last_msg.
  destruct last_msg; try (returns; fail).
  assert (Hauto : returns_body (Filter.auto_fetch self svc order (strip s))).
  { unfold Filter.auto_fetch. destruct (Filter.enable_auto_fetch self); [|returns].
    destruct (Filter.mentioned_slugs order (strip s)); [returns|].
    apply returns_bind. intros [|part parts]; returns. }
  unfold Filter.on_message.
  destruct (Filter.enable_slash_commands self); [|exact Hauto].
  destruct (Filter.parse (strip (lower (strip s)))); try exact Hauto; returns.
Qed.

(** C10.  Whatever the payload, the service and the configuration, and
    whether the call returns or raises: after [inlet] the payload has the
    keys it had, the same value under every key but [messages], and under
    [messages] the same messages but for the content of the last one, whose
    other fields are as they were; [pipe] leaves the payload, and the whole
    state, as it found it. *)
Theorem adapters_touch_only_last_content :
  forall (a : Filter.Valves) (b : Pipe.Valves) (svc : service) (order : SetOrder)
         (emitter : bool) (w : world),
    frame (w_body w) (w_body (snd (Filter.inlet a svc order emitter w))) /\
    snd (Pipe.pipe b svc w) = w.
Proof.
  intros a b svc order emitter w. split.
  - destruct (stores_inlet a svc order emitter w) as [-> | H].
    + apply frame_refl.
    + now apply stored_content_frame.
  - apply read_only_pipe.
Qed.

(** ** C5: the auto-fetch *)

Lemma mapR_strings (tags : list pyval) :
  forallb (fun t => match t with VStr _ => true | _ => false end) tags = true ->
  mapR (fun v => match v with VStr s => Ok s | _ => Raise TypeError end) tags
  = Ok (map py_str tags).
Proof.
  induction tags as [|t tags IH]; simpl; intros H; [reflexivity|].
  apply andb_true_iff in H as [Ht Hts]. rewrite (IH Hts).
  destruct t; try discriminate. reflexivity.
Qed.

Lemma context_part_real (slug : string) (note : pyval) :
  real_note note = true -> Filter.context_part slug note = Ok (note_block slug note).
Proof.
  destruct note as [| | | | |d]; try discriminate.
  unfold real_note, Filter.context_part, note_block, py_get. cbn [rbind].
  intros H. apply andb_true_iff in H as [_ H].
  destruct (dict_get "tags" d) as [[| | | |tags|]|] eqn:Et; try discriminate.
  - assert (Hd : dict_get_default "tags" (VList []) d = VList tags)
      by (unfold dict_get_default; now rewrite Et).
    rewrite Hd. unfold py_join. cbn [py_iter rbind].
    rewrite (mapR_strings tags H). reflexivity.
  - assert (Hd : dict_get_default "tags" (VList []) d = VList [])
      by (unfold dict_get_default; now rewrite Et).
    rewrite Hd. reflexivity.
Qed.

Lemma context_parts_real (self : Filter.Valves) (svc : service) (slugs : list string) :
  (forall slug, In slug slugs ->
     truthy (Filter.fetch_note self svc slug) = false \/
     real_note (Filter.fetch_note self svc slug) = true) ->
  Filter.context_parts self svc slugs
  = Ok (map (fun slug => note_block slug (Filter.fetch_note self svc slug))
          (filter (fun slug => truthy (Filter.fetch_note self svc slug)) slugs)).
Proof.
  induction slugs as [|slug slugs IH]; intros H; [reflexivity|].
  cbn [Filter.context_parts filter].
  rewrite IH by (intros s Hs; apply H; now right).
  destruct (H slug (or_introl eq_refl)) as [Hf | Hr].
  - now rewrite Hf.
  - destruct (truthy (Filter.fetch_note self svc slug)) eqn:Et.
    + now rewrite (context_part_real _ _ Hr).
    + reflexivity.
Qed.

Lemma chat_text_stored (body : dict) (old text : string) :
  chat_text body = Some old ->
  exists body', store_last "content" (VStr text) body = Some body' /\
                chat_text body' = Some text.
Proof.
  unfold chat_text, store_last. intros H.
  destruct (dict_get "messages" body) as [[| | | |l|]|]; try discriminate.
  destruct (split_last l) as [[init [| | | | |m]]|]; try discriminate.
  eexists. split; [reflexivity|].
  rewrite dict_get_set_same.
  rewrite (proj2 (split_last_app _ init _) eq_refl).
  now rewrite dict_get_default_set_same.
Qed.



Lemma last_char_app (a b : string) (c : ascii) :
  last_char (a ++ String c b) = last_char (String c b).
Proof.
  induction a as [|x a IH]; [reflexivity|].
  simpl in *. rewrite IH. destruct (last_char b); reflexivity.
Qed.


(** ** C6: a read or delete command with another argument *)




Ltac lower_literals :=
  repeat match goal with
  | |- context [lower_char (Ascii ?b0 ?b1 ?b2 ?b3 ?b4 ?b5 ?b6 ?b7)] =>
      let v := eval vm_compute in (lower_char (Ascii b0 b1 b2 b3 b4 b5 b6 b7)) in
      change (lower_char (Ascii b0 b1 b2 b3 b4 b5 b6 b7)) with v
  end.







Lemma lower_char_idem (c : ascii) : lower_char (lower_char c) = lower_char c.
Proof. destruct c as [[] [] [] [] [] [] [] []]; reflexivity. Qed.

Lemma lower_idem (s : string) : lower (lower s) = lower s.
Proof.
  induction s as [|c s IH]; simpl; [reflexivity | now rewrite lower_char_idem, IH].
Qed.

Lemma lower_command_text (text : string) :
  lower (command_text text) = command_text text.
Proof. unfold command_text. now rewrite lower_strip, lower_idem. Qed.








Example filter_reads_note_5_of_note_5abc :
  Filter.parse (command_text "read note-5abc") = ReadNote "note-5".
Proof. reflexivity. Qed.

(** ** C4: the scan for mentioned notes *)

Arguments is_digit c : simpl never.








Lemma take_app_length (a b : string) : take (String.length a) (a ++ b) = a.
Proof.
  unfold take. induction a as [|x a IH]; simpl.
  - destruct b; reflexivity.
  - now rewrite IH.
Qed.












Example two_casings_two_slugs :
  Filter.mentioned_slugs last_seen_order "note-5 NOTE-5" = ["note-5"; "NOTE-5"].
Proof. reflexivity. Qed.

(** * More of the adapters *)

(** ** The switches of the filter *)

Lemma on_message_disabled (self : Filter.Valves) (svc : service) (order : SetOrder)
    (emitter : bool) (original_msg : string) :
  Filter.enable_slash_commands self = false ->
  Filter.enable_auto_fetch self = false ->
  Filter.on_message self svc order emitter original_msg = return_body.
Proof.
  intros Hs Ha. unfold Filter.on_message, Filter.auto_fetch. now rewrite Hs, Ha.
Qed.

(** X1: with the slash commands and the auto-fetch both switched off, [inlet]
    changes nothing and emits nothing: it returns the payload as it got it, or
    raises on a payload of unexpected types; it returns it whenever the last
    message is a text, whatever the text says. *)
Theorem disabled_filter_passes_through :
  forall (self : Filter.Valves) (svc : service) (order : SetOrder) (emitter : bool)
         (w : world),
    Filter.enable_slash_commands self = false ->
    Filter.enable_auto_fetch self = false ->
    (Filter.inlet self svc order emitter w = (Ok (VDict (w_body w)), w) \/
     exists e, Filter.inlet self svc order emitter w = (Raise e, w)) /\
    (forall text, chat_text (w_body w) = Some text ->
       Filter.inlet self svc order emitter w = (Ok (VDict (w_body w)), w)).
Proof.
  intros self svc order emitter w Hs Ha. split.
  - unfold Filter.inlet, bind, get_body, lift.
    destruct (negb _); [now left|].
    destruct (py_last _) as [last|e]; [|right; now exists e].
    destruct (py_get last "content" (VStr EmptyString)) as [v|e]; [|right; now exists e].
    destruct v; try (now left).
    rewrite on_message_disabled by assumption. now left.
  - intros text Ht. rewrite (inlet_reads_text _ _ _ _ _ _ Ht).
    now rewrite on_message_disabled.
Qed.

Lemma disabled_filter_passes_through_witness :
  let w := {| w_body := body_with_text "/read note-5"; w_events := [] |} in
  Filter.inlet switched_off plan_service last_seen_order true w = (Ok (VDict (w_body w)), w).
Proof.
  exact (proj2 (disabled_filter_passes_through switched_off plan_service last_seen_order true
                  {| w_body := body_with_text "/read note-5"; w_events := [] |}
                  eq_refl eq_refl)
           "/read note-5" eq_refl).
Defined.

(** ** The answers of the service the adapters use *)

Section SameAnswers.

Context (self : Filter.Valves) (svc svc' : service) (order : SetOrder).
Hypothesis same_get : forall url, svc GET url = svc' GET url.

Lemma http_get_json_same (url : string) :
  http_get_json svc url = http_get_json svc' url.
Proof. unfold http_get_json. now rewrite same_get. Qed.

Lemma filter_api_get_same (endpoint : string) :
  Filter.api_get self svc endpoint = Filter.api_get self svc' endpoint.
Proof. unfold Filter.api_get. now rewrite http_get_json_same. Qed.

Lemma filter_context_parts_same (slugs : list string) :
  Filter.context_parts self svc slugs = Filter.context_parts self svc' slugs.
Proof.
  induction slugs as [|slug slugs IH]; [reflexivity|].
  cbn [Filter.context_parts]. unfold Filter.fetch_note.
  now rewrite IH, filter_api_get_same.
Qed.

Lemma filter_on_message_same (emitter : bool) (original_msg : string) :
  Filter.on_message self svc order emitter original_msg
  = Filter.on_message self svc' order emitter original_msg.
Proof.
  unfold Filter.on_message, Filter.auto_fetch, Filter.render_creation_form,
    Filter.fetch_notes, Filter.fetch_categories, Filter.fetch_tags, Filter.fetch_note.
  destruct (Filter.enable_slash_commands self);
    [destruct (Filter.parse (strip (lower original_msg)))|];
    destruct (Filter.enable_auto_fetch self);
    try destruct (Filter.mentioned_slugs order original_msg);
    rewrite ?filter_context_parts_same, ?filter_api_get_same; reflexivity.
Qed.

End SameAnswers.

(** X2: what [inlet] does depends on the service through its answers to GET
    requests only.  Two services that answer every GET alike, whatever they
    answer to a DELETE, give the same run of [inlet]: the same value, the same
    payload, the same events. *)
Theorem inlet_depends_on_get_answers_only :
  forall (self : Filter.Valves) (svc svc' : service) (order : SetOrder) (emitter : bool)
         (w : world),
    (forall url, svc GET url = svc' GET url) ->
    Filter.inlet self svc order emitter w = Filter.inlet self svc' order emitter w.
Proof.
  intros self svc svc' order emitter w H.
  unfold Filter.inlet, bind, get_body, lift.
  destruct (negb _); [reflexivity|].
  destruct (py_last _) as [last|e]; [|reflexivity].
  destruct (py_get last "content" (VStr EmptyString)) as [v|e]; [|reflexivity].
  destruct v; try reflexivity.
  now rewrite (filter_on_message_same self svc svc' order H).
Qed.

Lemma inlet_depends_on_get_answers_only_witness :
  let w := {| w_body := body_with_text "delete note-5"; w_events := [] |} in
  Filter.inlet Filter.default_valves plan_service last_seen_order true w
  = Filter.inlet Filter.default_valves plan_service_deleting last_seen_order true w.
Proof.
  exact (inlet_depends_on_get_answers_only Filter.default_valves plan_service
           plan_service_deleting
           last_seen_order true
           {| w_body := body_with_text "delete note-5"; w_events := [] |}
           (fun url => eq_refl)).
Defined.

(** X3: what the pipe answers to a command depends on the service through
    its answer to one request only, the one of [request_of]: a GET for a
    list, a note, a search, the categories or the tags, a DELETE for a
    deletion; for the help and for a message that is no command it depends
    on nothing of the service.  Two services that answer that request alike
    give the same result, whatever else they differ in. *)
Theorem run_depends_on_one_answer :
  forall (self : Pipe.Valves) (svc svc' : service) (c : command) (user_msg : string),
    match request_of c with
    | Some (method, endpoint) =>
        svc method (Pipe.mariposa_url self ++ endpoint)
        = svc' method (Pipe.mariposa_url self ++ endpoint)
    | None => True
    end ->
    Pipe.run self svc c user_msg = Pipe.run self svc' c user_msg.
Proof.
  intros self svc svc' c user_msg H.
  destruct c; cbn [request_of] in H;
    unfold Pipe.run, Pipe.fetch_notes, Pipe.fetch_note, Pipe.fetch_categories,
      Pipe.fetch_tags, Pipe.api_get, Pipe.api_delete, http_get_json;
    cbn [query_string append] in *; try rewrite H; reflexivity.
Qed.

Lemma run_depends_on_one_answer_witness :
  Pipe.run Pipe.default_valves plan_service (ReadNote "note-5") "read note-5"
  = Pipe.run Pipe.default_valves plan_service_deleting (ReadNote "note-5") "read note-5".
Proof.
  exact (run_depends_on_one_answer Pipe.default_valves plan_service plan_service_deleting
           (ReadNote "note-5") "read note-5" eq_refl).
Defined.

(** X4: what the pipe answers to a deletion.  It sends one DELETE for the
    note; status 204 gives the card of a deleted note, any other status the
    error card with that status (a 404 as much as a 200), no reply the error
    card with the text of the failure.  It never raises. *)
Theorem pipe_delete_outcomes :
  forall (self : Pipe.Valves) (svc : service) (slug user_msg : string),
    Pipe.run self svc (DeleteNote slug) user_msg
    = Ok (Pipe.artifact
            match svc DELETE (Pipe.mariposa_url self ++ "/api/notes/" ++ slug) with
            | Reply r =>
                if (status_code r =? 204)%Z then Pipe.render_deleted slug
                else Pipe.render_error "Delete Failed"
                       ("Could not delete " ++ slug ++ ": Status "
                        ++ str_of_int (status_code r))
            | NoReply msg =>
                Pipe.render_error "Delete Failed" ("Could not delete " ++ slug ++ ": " ++ msg)
            end).
Proof.
  intros self svc slug user_msg. unfold Pipe.run, Pipe.api_delete.
  destruct (svc DELETE _) as [msg|r]; [reflexivity|].
  destruct (status_code r =? 204)%Z; reflexivity.
Qed.

(** ** The event emitter of the filter *)

Section SideChannel.

Context {A B : Type}.

Lemma quiet_ret (a : A) : quiet (ret a).
Proof. intros w0 w1 H. now repeat split. Qed.

Lemma quiet_lift (r : result A) : quiet (lift r).
Proof. intros w0 w1 H. now repeat split. Qed.

Lemma quiet_bind (m : M A) (f : A -> M B) :
  quiet m -> (forall a, quiet (f a)) -> quiet (bind m f).
Proof.
  intros Hm Hf w0 w1 H. unfold bind.
  destruct (Hm w0 w1 H) as (Hr & Hb & He).
  destruct (m w0) as [r0 w0'], (m w1) as [r1 w1']. simpl in *. subst r1.
  destruct r0 as [a|e].
  - destruct (Hf a w0' w1' (eq_sym Hb)) as (Hr' & Hb' & He').
    repeat split; congruence.
  - now repeat split.
Qed.

Lemma side_quiet (n : nat) (c : M A) : quiet c -> side_channel n (fun _ => c).
Proof.
  intros Hc w0 w1 H. destruct (Hc w0 w1 H) as (Hr & Hb & He).
  destruct (Hc w0 w0 eq_refl) as (_ & _ & He0).
  repeat split; try assumption.
  exists []. rewrite app_nil_r. repeat split; [assumption | simpl; lia | constructor].
Qed.

Lemma side_bind (n k : nat) (m : bool -> M A) (f : bool -> A -> M B) :
  side_channel n m -> (forall a, side_channel k (fun b => f b a)) ->
  side_channel (n + k) (fun b => bind (m b) (f b)).
Proof.
  intros Hm Hf w0 w1 H. unfold bind.
  destruct (Hm w0 w1 H) as (Hr & Hb & He & new & Hnew & Hlen & Hst).
  destruct (m false w0) as [r0 w0'], (m true w1) as [r1 w1']. simpl in *. subst r1.
  destruct r0 as [a|e].
  - destruct (Hf a w0' w1' (eq_sym Hb)) as (Hr' & Hb' & He' & new' & Hnew' & Hlen' & Hst').
    repeat split; try congruence.
    exists (new ++ new')%list. rewrite Hnew', Hnew, app_assoc, length_app.
    repeat split; [lia | now apply Forall_app].
  - repeat split; try assumption.
    exists new. repeat split; [assumption | lia | assumption].
Qed.

End SideChannel.

Lemma quiet_get_body : quiet get_body.
Proof. intros w0 w1 H. simpl. repeat split; congruence. Qed.

Lemma quiet_return_body : quiet return_body.
Proof. intros w0 w1 H. simpl. repeat split; congruence. Qed.

Lemma quiet_set_last_content (text : string) : quiet (set_last_content text).
Proof.
  intros w0 w1 H. unfold set_last_content. rewrite H.
  destruct (store_last "content" (VStr text) (w_body w1)); simpl; repeat split; congruence.
Qed.

Lemma side_emit_status (description : string) (done : bool) :
  side_channel 1 (fun b => Filter.emit_status b description done).
Proof.
  intros w0 w1 H. unfold Filter.emit_status, emit. simpl.
  repeat split; try congruence.
  exists [status_event description done].
  repeat split; [simpl; lia|]. constructor; [|constructor].
  now exists description, done.
Qed.

Create HintDb quiet.
#[local] Hint Resolve quiet_ret quiet_lift quiet_get_body quiet_return_body
  quiet_set_last_content : quiet.

Ltac quiet :=
  repeat first [ progress auto with quiet | apply quiet_bind; [|intros ?] ].

Lemma quiet_auto_fetch (self : Filter.Valves) (svc : service) (order : SetOrder)
    (original_msg : string) :
  quiet (Filter.auto_fetch self svc order original_msg).
Proof.
  unfold Filter.auto_fetch.
  destruct (Filter.enable_auto_fetch self); [|quiet].
  destruct (Filter.mentioned_slugs order original_msg); [quiet|].
  apply quiet_bind; [quiet|]. intros [|part parts]; quiet.
Qed.

Ltac side_step n k :=
  apply (side_bind n k); [first [apply side_emit_status | apply side_quiet; quiet]|intros ?].

Lemma side_on_message (self : Filter.Valves) (svc : service) (order : SetOrder)
    (original_msg : string) :
  side_channel 2 (fun b => Filter.on_message self svc order b original_msg).
Proof.
  unfold Filter.on_message.
  destruct (Filter.enable_slash_commands self);
    [|apply side_quiet, quiet_auto_fetch].
  destruct (Filter.parse (strip (lower original_msg)));
    try (apply side_quiet, quiet_auto_fetch).
  - side_step 1 1. side_step 0 1. side_step 0 1. side_step 1 0.
    apply side_quiet. quiet.
  - side_step 1 1. apply (side_bind 1 0); [|intros ?; apply side_quiet; quiet].
    destruct (truthy (Filter.fetch_note self svc slug)).
    + side_step 0 1. side_step 1 0. apply side_quiet. quiet.
    + side_step 1 0. apply side_quiet. quiet.
  - apply side_quiet. quiet.
  - side_step 1 1. side_step 0 1.
    apply (side_bind 1 0); [|intros ?; apply side_quiet; quiet].
    destruct (truthy _).
    + side_step 0 1. side_step 0 1. side_step 1 0. apply side_quiet. quiet.
    + side_step 1 0. apply side_quiet. quiet.
Qed.

Lemma side_inlet (self : Filter.Valves) (svc : service) (order : SetOrder) :
  side_channel 2 (fun b => Filter.inlet self svc order b).
Proof.
  unfold Filter.inlet.
  apply (side_bind 0 2); [apply side_quiet; quiet|]. intros body.
  destruct (negb _); [apply side_quiet; quiet|].
  apply (side_bind 0 2); [apply side_quiet; quiet|]. intros last.
  apply (side_bind 0 2); [apply side_quiet; quiet|]. intros last_msg.
  destruct last_msg; try (apply side_quiet; quiet). apply side_on_message.
Qed.

(** X5: the event emitter is a side channel of the filter.  With or without
    one, [inlet] returns the same value and leaves the same payload; without
    one no event is emitted; with one, at most two events are appended to
    those already sent, each a status event. *)
Theorem status_events_are_a_side_channel :
  forall (self : Filter.Valves) (svc : service) (order : SetOrder) (w : world),
    let without := Filter.inlet self svc order false w in
    let with_it := Filter.inlet self svc order true w in
    fst with_it = fst without /\
    w_body (snd with_it) = w_body (snd without) /\
    w_events (snd without) = w_events w /\
    exists new,
      w_events (snd with_it) = (w_events w ++ new)%list /\
      List.length new <= 2 /\ Forall is_status_event new.
Proof.
  intros self svc order w. exact (side_inlet self svc order w w eq_refl).
Qed.

(** ** Commands that take an argument *)

Lemma star_greedy_some (icase : bool) (cc : cclass) (xs rest : string)
    (k : string -> option matched) (r : matched) :
  all_chars (cc_match icase cc) xs = true ->
  starts_with (cc_match icase cc) rest = false ->
  k rest = Some r ->
  star_greedy icase cc (xs ++ rest) k = Some r.
Proof.
  intros Hxs Hrest Hk. induction xs as [|a xs IH].
  - destruct rest as [|c rest]; simpl; [exact Hk|].
    simpl in Hrest. now rewrite Hrest.
  - simpl in Hxs. apply andb_true_iff in Hxs as [Ha Hxs].
    simpl. now rewrite Ha, (IH Hxs).
Qed.

Lemma take_front (front rest : string) :
  take (String.length (front ++ rest) - String.length rest) (front ++ rest) = front.
Proof. rewrite append_length, Nat.add_sub. apply take_app_length. Qed.

(** The parts of a slug. *)
Lemma is_slug_parts (slug : string) :
  is_slug slug = true ->
  exists d ds, slug = "note-" ++ String d ds /\
               is_digit d = true /\ all_chars is_digit ds = true.
Proof.
  unfold is_slug. intros H.
  destruct slug as [|a1 [|a2 [|a3 [|a4 [|a5 [|d ds]]]]]];
    cbn -[is_digit] in H; try discriminate H;
    repeat match type of H with
    | context [Ascii.eqb ?a ?b] => destruct (Ascii.eqb a b) eqn:?; try discriminate H
    end.
  repeat match goal with
  | E : Ascii.eqb _ _ = true |- _ => apply Ascii.eqb_eq in E; subst
  end.
  apply andb_true_iff in H as [Hd Hds]. now exists d, ds.
Qed.

Lemma slug_argument_some (icase : bool) (whole ws slug tail : string)
    (g : option string) (k : string -> option string -> option matched) (r : matched) :
  ws <> EmptyString ->
  all_chars is_space ws = true ->
  is_slug slug = true ->
  starts_with is_digit tail = false ->
  k tail (Some slug) = Some r ->
  rmatch icase whole slug_argument (ws ++ slug ++ tail) g k = Some r.
Proof.
  intros Hne Hws Hslug Htail Hk.
  destruct (is_slug_parts slug Hslug) as (d & ds & -> & Hd & Hds).
  destruct ws as [|a ws]; [contradiction|].
  simpl in Hws. apply andb_true_iff in Hws as [Ha Hws].
  unfold slug_argument. cbn [rmatch]. simpl append at 1. cbn [cc_match]. rewrite Ha.
  apply star_greedy_some; [exact Hws | reflexivity |].
  unfold slug_re. simpl append. cbn -[is_digit star_greedy String.length take].
  destruct icase; lower_literals; cbn -[is_digit star_greedy String.length take];
    rewrite Hd; change (String d (ds ++ tail)) with (String d ds ++ tail);
    (apply star_greedy_some; [exact Hds | exact Htail |]);
    rewrite <- Hk; do 2 f_equal; exact (take_front ("note-" ++ String d ds) tail).
Qed.

Lemma slug_argument_some_at_end (icase : bool) (whole ws slug : string)
    (g : option string) (k : string -> option string -> option matched) (r : matched) :
  ws <> EmptyString ->
  all_chars is_space ws = true ->
  is_slug slug = true ->
  k EmptyString (Some slug) = Some r ->
  rmatch icase whole slug_argument (ws ++ slug) g k = Some r.
Proof.
  intros Hne Hws Hslug Hk. rewrite <- (append_nil_r slug) at 1.
  now apply slug_argument_some.
Qed.

Lemma digits_end_with_digit (d : ascii) (ds : string) :
  is_digit d = true -> all_chars is_digit ds = true ->
  ends_with_digit (String d ds) = true.
Proof.
  unfold ends_with_digit. revert d. induction ds as [|c ds IH]; intros d Hd Hds.
  - simpl. exact Hd.
  - simpl in Hds. apply andb_true_iff in Hds as [Hc Hds].
    specialize (IH c Hc Hds). simpl in IH |- *.
    destruct (last_char ds); exact IH.
Qed.

Lemma slug_ends_with_digit (front slug : string) :
  is_slug slug = true -> ends_with_digit (front ++ slug) = true.
Proof.
  intros H. destruct (is_slug_parts slug H) as (d & ds & -> & Hd & Hds).
  rewrite <- append_assoc. unfold ends_with_digit. rewrite last_char_app.
  now apply digits_end_with_digit.
Qed.

Lemma one_of_no_digit_end (cmd : string) (keywords : list string) :
  ends_with_digit cmd = true ->
  forallb (fun kw => negb (ends_with_digit kw)) keywords = true ->
  Pipe.one_of cmd keywords = false.
Proof.
  intros Hc. unfold Pipe.one_of. induction keywords as [|kw kws IH]; [reflexivity|].
  simpl. intros H. apply andb_true_iff in H as [Hkw Hkws]. rewrite (IH Hkws).
  destruct (String.eqb cmd kw) eqn:E; [|reflexivity].
  apply String.eqb_eq in E. subst kw. rewrite Hc in Hkw. discriminate Hkw.
Qed.

Ltac no_keyword H :=
  rewrite !(one_of_no_digit_end _ _ H) by reflexivity.

(** X6: a read or delete command with a slug is parsed to that slug.  After
    one or more spaces, a slug ([note-] and digits) after [read], [show],
    [open] or [view] makes the pipe read that note, after [delete] delete it,
    each with or without the slash; the filter reads the note after [read],
    and there whatever ASCII text follows the digits of the slug is
    ignored. *)
Theorem slug_commands_take_their_slug :
  forall (ws slug : string),
    ws <> EmptyString ->
    all_chars is_space ws = true ->
    is_slug slug = true ->
    (forall word, In word pipe_read_words ->
       Pipe.parse (word ++ ws ++ slug) = ReadNote slug) /\
    (forall word, In word delete_words ->
       Pipe.parse (word ++ ws ++ slug) = DeleteNote slug) /\
    (forall word tail, In word read_words -> ascii_text tail = true ->
       starts_with is_digit tail = false ->
       Filter.parse (word ++ ws ++ slug ++ tail) = ReadNote slug).
Proof.
  intros ws slug Hne Hws Hslug. split; [|split].
  - intros word Hin.
    assert (Hend : ends_with_digit (word ++ ws ++ slug) = true)
      by (rewrite <- append_assoc; now apply slug_ends_with_digit).
    unfold Pipe.parse. no_keyword Hend.
    simpl in Hin.
    repeat (destruct Hin as [<- | Hin];
      [unfold re_group1, re_match, Pipe.read_re;
       simpl append; cbn -[slug_argument Nat.eqb append]; rewrite ?Nat.eqb_refl;
       rewrite (slug_argument_some_at_end false _ ws slug None _
                  (EmptyString, Some slug)) by (try assumption; reflexivity);
       reflexivity|]).
    contradiction.
  - intros word Hin.
    assert (Hend : ends_with_digit (word ++ ws ++ slug) = true)
      by (rewrite <- append_assoc; now apply slug_ends_with_digit).
    unfold Pipe.parse. no_keyword Hend.
    simpl in Hin.
    repeat (destruct Hin as [<- | Hin];
      [unfold re_group1, re_match, Pipe.read_re, Pipe.search_re, Pipe.delete_re;
       simpl append; cbn -[slug_argument Nat.eqb append]; rewrite ?Nat.eqb_refl;
       rewrite (slug_argument_some_at_end false _ ws slug None _
                  (EmptyString, Some slug)) by (try assumption; reflexivity);
       reflexivity|]).
    contradiction.
  - intros word tail Hin _ Htail. simpl in Hin.
    repeat (destruct Hin as [<- | Hin];
      [unfold Filter.parse, re_group1, re_match, Filter.read_re;
       simpl append; cbn -[slug_argument append]; lower_literals;
       cbn -[slug_argument append];
       rewrite (slug_argument_some true _ ws slug tail None _
                  (tail, Some slug)) by (try assumption; reflexivity);
       reflexivity|]).
    contradiction.
Qed.

Lemma slug_commands_take_their_slug_witness :
  Pipe.parse ("show" ++ " " ++ "note-5") = ReadNote "note-5" /\
  Pipe.parse ("/delete" ++ " " ++ "note-5") = DeleteNote "note-5" /\
  Filter.parse ("read" ++ " " ++ "note-5" ++ " please") = ReadNote "note-5".
Proof.
  pose proof (slug_commands_take_their_slug " " "note-5") as H.
  destruct H as (Hread & Hdelete & Hfilter); [discriminate | reflexivity | reflexivity |].
  split; [|split].
  - apply Hread. simpl. auto.
  - apply Hdelete. simpl. auto.
  - apply Hfilter; [simpl; auto | reflexivity | reflexivity].
Defined.

Lemma space_is_newline_or_not (c : ascii) : is_space c = false -> not_newline c = true.
Proof. destruct c as [[] [] [] [] [] [] [] []]; intros H; try reflexivity; discriminate H. Qed.

Lemma line_argument_some (icase : bool) (whole ws line rest : string)
    (g : option string) (k : string -> option string -> option matched) (r : matched) :
  ws <> EmptyString ->
  all_chars is_space ws = true ->
  starts_with is_space line = false ->
  line <> EmptyString ->
  all_chars not_newline line = true ->
  starts_with not_newline rest = false ->
  k rest (Some line) = Some r ->
  rmatch icase whole line_argument (ws ++ line ++ rest) g k = Some r.
Proof.
  intros Hne Hws Hfirst Hline Hnl Hrest Hk.
  destruct ws as [|a ws]; [contradiction|].
  simpl in Hws. apply andb_true_iff in Hws as [Ha Hws].
  unfold line_argument. cbn [rmatch]. simpl append at 1. cbn [cc_match]. rewrite Ha.
  apply star_greedy_some; [exact Hws | |].
  - destruct line as [|c line]; [contradiction|]. exact Hfirst.
  - destruct line as [|c line]; [contradiction|].
    simpl in Hnl. apply andb_true_iff in Hnl as [Hc Hnl].
    simpl append. cbn -[String.length take]. fold (not_newline c). rewrite Hc.
    apply star_greedy_some; [exact Hnl | exact Hrest |].
    rewrite <- Hk. do 2 f_equal. exact (take_front (String c line) rest).
Qed.

(** X7: the search of the filter takes the rest of the line.  In a text of
    ASCII characters, after [search] or [/search] and one or more spaces, the
    query is the text up to the first line feed, or to the end. *)
Theorem filter_search_takes_the_line :
  forall (word ws line rest : string),
    In word search_words ->
    ws <> EmptyString ->
    all_chars is_space ws = true ->
    starts_with is_space line = false ->
    line <> EmptyString ->
    all_chars not_newline line = true ->
    starts_with not_newline rest = false ->
    ascii_text (line ++ rest) = true ->
    Filter.parse (word ++ ws ++ line ++ rest) = SearchNotes line.
Proof.
  intros word ws line rest Hin Hne Hws Hfirst Hline Hnl Hrest _. simpl in Hin.
  destruct Hin as [<- | [<- | []]];
    unfold Filter.parse, re_group1, re_match, Filter.read_re, Filter.search_re;
    change (RPlus CSpace +++ RGroup (RPlus CDot)) with line_argument;
    simpl append; cbn -[slug_argument line_argument append]; lower_literals;
    cbn -[slug_argument line_argument append];
    rewrite (line_argument_some true _ ws line rest None _ (rest, Some line))
      by (try assumption; reflexivity);
    reflexivity.
Qed.

Lemma filter_search_takes_the_line_witness :
  Filter.parse ("/search" ++ " " ++ "plan q1" ++ EmptyString) = SearchNotes "plan q1".
Proof.
  apply (filter_search_takes_the_line "/search" " " "plan q1" EmptyString);
    first [reflexivity | discriminate | (simpl; auto)].
Defined.

Lemma closing_none (whole s : string) (g : option string)
    (k : string -> option string -> option matched) :
  closes s = false -> rmatch false whole closing s g k = None.
Proof.
  unfold closes, closing. intros H.
  apply orb_false_iff in H as [H1 H3]. apply orb_false_iff in H1 as [H1 H2].
  cbn -[String.eqb nl]. rewrite H1, H2. cbn [orb].
  destruct s as [|a s']; [reflexivity|].
  unfold is_quote in H3. cbn -[String.eqb nl].
  destruct (Ascii.eqb a "034"); [|destruct (Ascii.eqb a "'")];
    cbn [orb andb] in H3 |- *; try rewrite H3; reflexivity.
Qed.

Lemma closing_at_end (whole : string) (g : option string)
    (k : string -> option string -> option matched) :
  rmatch false whole closing EmptyString g k = k EmptyString g.
Proof. reflexivity. Qed.

Lemma closing_quote (whole : string) (q2 : ascii) (g : option string)
    (k : string -> option string -> option matched) (r : matched) :
  is_quote q2 = true -> k EmptyString g = Some r ->
  rmatch false whole closing (String q2 EmptyString) g k = Some r.
Proof.
  unfold is_quote, closing. intros Hq Hk. cbn -[String.eqb nl].
  destruct (Ascii.eqb q2 "034"); [|destruct (Ascii.eqb q2 "'"); [|discriminate Hq]];
    cbn [orb]; cbn; now rewrite Hk.
Qed.

Lemma star_lazy_some (icase : bool) (cc : cclass) (xs rest : string)
    (k : string -> option matched) (r : matched) :
  all_chars (cc_match icase cc) xs = true ->
  (forall p c t, xs = p ++ String c t -> k (String c t ++ rest) = None) ->
  k rest = Some r ->
  star_lazy icase cc (xs ++ rest) k = Some r.
Proof.
  intros Hxs Hnone Hk. induction xs as [|a xs IH].
  - destruct rest; simpl; now rewrite Hk.
  - simpl in Hxs. apply andb_true_iff in Hxs as [Ha Hxs].
    pose proof (Hnone EmptyString a xs eq_refl) as H0. simpl in H0.
    simpl. rewrite H0, Ha.
    apply IH; [exact Hxs|]. intros p c t ->. now apply (Hnone (String a p) c t).
Qed.

Lemma all_chars_app (p : ascii -> bool) (a b : string) :
  all_chars p (a ++ b) = all_chars p a && all_chars p b.
Proof.
  induction a as [|x a IH]; simpl; [reflexivity | now rewrite IH, andb_assoc].
Qed.

Lemma quote_is_no_newline (c : ascii) : is_quote c = true -> not_newline c = true.
Proof. destruct c as [[] [] [] [] [] [] [] []]; intros H; try reflexivity; discriminate H. Qed.

Lemma quote_is_no_space (c : ascii) : is_quote c = true -> is_space c = false.
Proof. destruct c as [[] [] [] [] [] [] [] []]; intros H; try reflexivity; discriminate H. Qed.

Lemma eqb_nl (s : string) :
  (s =? nl) = true -> s = nl.
Proof. apply String.eqb_eq. Qed.

(** No proper tail of a quoted query closes the pattern. *)
Lemma tail_before_quote_stays_open (c q2 : ascii) (t : string) :
  is_quote q2 = true ->
  closes (String c t ++ String q2 EmptyString) = false.
Proof.
  intros Hq. pose proof (quote_is_no_newline q2 Hq) as Hn.
  unfold closes. simpl append.
  assert (H0 : forall x, (x ++ String q2 EmptyString =? EmptyString) = false)
    by (intros [|? ?]; reflexivity).
  assert (H1 : forall x, (x ++ String q2 EmptyString =? nl) = false).
  { intros [|y x]; simpl.
    - unfold not_newline in Hn. apply negb_true_iff in Hn. now rewrite Hn.
    - rewrite H0. now destruct (Ascii.eqb y "010"). }
  replace (String c (t ++ String q2 EmptyString) =? EmptyString) with false by reflexivity.
  replace (String c (t ++ String q2 EmptyString) =? nl)
    with (Ascii.eqb c "010" && (t ++ String q2 EmptyString =? EmptyString))
    by (simpl; now destruct (Ascii.eqb c "010")).
  rewrite H0, H1, andb_false_r. cbn [orb]. now rewrite andb_false_r.
Qed.

(** Nor does a proper tail of a bare query that has no line feed and does
    not end with a quote. *)
Lemma tail_of_bare_query_stays_open (c : ascii) (t : string) :
  all_chars not_newline (String c t) = true ->
  (forall e, last_char (String c t) = Some e -> is_quote e = false) ->
  closes (String c t ++ EmptyString) = false.
Proof.
  intros Hn Hlast. rewrite append_nil_r. unfold closes.
  simpl in Hn. apply andb_true_iff in Hn as [Hc Ht].
  unfold not_newline in Hc. apply negb_true_iff in Hc.
  replace (String c t =? EmptyString) with false by reflexivity.
  replace (String c t =? nl) with false by (simpl; now rewrite Hc).
  cbn [orb].
  destruct (is_quote c) eqn:Eq; [|reflexivity]. cbn [andb].
  destruct t as [|x t].
  - specialize (Hlast c eq_refl). congruence.
  - replace (String x t =? EmptyString) with false by reflexivity.
    simpl in Ht. apply andb_true_iff in Ht as [Hx _].
    unfold not_newline in Hx. apply negb_true_iff in Hx.
    simpl. now rewrite Hx.
Qed.

Lemma cc_match_quote (icase : bool) (a : ascii) :
  cc_match icase (CSet ["034"%char; "'"%char]) a = is_quote a.
Proof. unfold is_quote. simpl. now rewrite orb_false_r. Qed.

(** The lazy group stops at the first place where the pattern can close. *)
Lemma lazy_query (whole q rest s : string) (g : option string)
    (k : string -> option string -> option matched) (r : matched) :
  s = q ++ rest ->
  q <> EmptyString ->
  all_chars not_newline q = true ->
  (forall p c t, q = p ++ String c t -> p <> EmptyString ->
     closes (String c t ++ rest) = false) ->
  rmatch false whole closing rest (Some q) k = Some r ->
  rmatch false whole (RGroup (RPlusLazy CDot) +++ closing) s g k = Some r.
Proof.
  intros -> Hq Hnl Hopen Hclose.
  destruct q as [|c q]; [contradiction|].
  simpl in Hnl. apply andb_true_iff in Hnl as [Hc Hnl].
  cbn [rmatch]. simpl append. cbn [cc_match]. fold (not_newline c). rewrite Hc.
  apply star_lazy_some; [exact Hnl | |].
  - intros p c2 t ->. apply closing_none.
    apply (Hopen (String c p) c2 t eq_refl). discriminate.
  - change (String c (q ++ rest)) with (String c q ++ rest).
    rewrite take_front. exact Hclose.
Qed.

Lemma spaces_then (icase : bool) (whole ws rest : string) (R : regex)
    (g : option string) (k : string -> option string -> option matched) (r : matched) :
  ws <> EmptyString ->
  all_chars is_space ws = true ->
  starts_with is_space rest = false ->
  rmatch icase whole R rest g k = Some r ->
  rmatch icase whole (RPlus CSpace +++ R) (ws ++ rest) g k = Some r.
Proof.
  intros Hne Hws Hrest HR.
  destruct ws as [|a ws]; [contradiction|].
  simpl in Hws. apply andb_true_iff in Hws as [Ha Hws].
  cbn [rmatch]. simpl append. cbn [cc_match]. rewrite Ha.
  now apply star_greedy_some.
Qed.

Lemma opening_quote_taken (whole s : string) (q1 : ascii) (R : regex)
    (g : option string) (k : string -> option string -> option matched) (r : matched) :
  is_quote q1 = true ->
  rmatch false whole R s g k = Some r ->
  rmatch false whole (ROpt (RChr (CSet ["034"%char; "'"%char])) +++ R) (String q1 s) g k
  = Some r.
Proof. intros Hq HR. cbn [rmatch]. now rewrite cc_match_quote, Hq, HR. Qed.

Lemma opening_quote_skipped (whole s : string) (R : regex)
    (g : option string) (k : string -> option string -> option matched) :
  starts_with is_quote s = false ->
  rmatch false whole (ROpt (RChr (CSet ["034"%char; "'"%char])) +++ R) s g k
  = rmatch false whole R s g k.
Proof.
  intros Hs. cbn [rmatch]. destruct s as [|c s]; [reflexivity|].
  rewrite cc_match_quote. simpl in Hs. now rewrite Hs.
Qed.

Lemma quoted_argument_quoted (whole ws q : string) (q1 q2 : ascii)
    (g : option string) (k : string -> option string -> option matched) (r : matched) :
  ws <> EmptyString ->
  all_chars is_space ws = true ->
  q <> EmptyString ->
  all_chars not_newline q = true ->
  is_quote q1 = true ->
  is_quote q2 = true ->
  k EmptyString (Some q) = Some r ->
  rmatch false whole quoted_argument (ws ++ String q1 (q ++ String q2 EmptyString)) g k
  = Some r.
Proof.
  intros Hne Hws Hq Hnl H1 H2 Hk. unfold quoted_argument.
  apply spaces_then; [assumption | assumption | exact (quote_is_no_space q1 H1) |].
  apply opening_quote_taken; [assumption|].
  apply (lazy_query whole q (String q2 EmptyString)); try assumption; [reflexivity | |].
  - intros p c t _ _. now apply tail_before_quote_stays_open.
  - now apply closing_quote.
Qed.

Lemma quoted_argument_bare (whole ws q : string)
    (g : option string) (k : string -> option string -> option matched) (r : matched) :
  ws <> EmptyString ->
  all_chars is_space ws = true ->
  q <> EmptyString ->
  all_chars not_newline q = true ->
  starts_with is_space q = false ->
  starts_with is_quote q = false ->
  ends_with_quote q = false ->
  k EmptyString (Some q) = Some r ->
  rmatch false whole quoted_argument (ws ++ q) g k = Some r.
Proof.
  intros Hne Hws Hq Hnl Hsp Hfirst Hlast Hk. unfold quoted_argument.
  apply spaces_then; [assumption | assumption | assumption |].
  rewrite opening_quote_skipped by assumption.
  apply (lazy_query whole q EmptyString); try assumption.
  - now rewrite append_nil_r.
  - intros p c t -> _. apply tail_of_bare_query_stays_open.
    + rewrite all_chars_app in Hnl. now apply andb_true_iff in Hnl as [_ Hnl].
    + intros e He. unfold ends_with_quote in Hlast.
      rewrite last_char_app, He in Hlast. exact Hlast.
Qed.

(** X8: the search of the pipe takes the query out of its quotes.  After
    [search] or [/search] and one or more spaces, an ASCII text of one line
    between two quotes, single or double and not needing to be the same, is
    the query without the two quotes; an ASCII text of one line that begins
    with no quote and no space and ends with no quote is the query as it
    stands. *)
Theorem pipe_search_takes_the_query :
  forall (word ws q : string),
    In word search_words ->
    ws <> EmptyString ->
    all_chars is_space ws = true ->
    q <> EmptyString ->
    all_chars not_newline q = true ->
    ascii_text q = true ->
    (forall q1 q2, is_quote q1 = true -> is_quote q2 = true ->
       Pipe.parse (word ++ ws ++ String q1 (q ++ String q2 EmptyString)) = SearchNotes q) /\
    (starts_with is_space q = false -> starts_with is_quote q = false ->
     ends_with_quote q = false ->
       Pipe.parse (word ++ ws ++ q) = SearchNotes q).
Proof.
  intros word ws q Hin Hne Hws Hq Hnl _. simpl in Hin. split.
  - intros q1 q2 H1 H2.
    destruct Hin as [<- | [<- | []]];
      unfold Pipe.parse, re_group1, re_match, Pipe.read_re, Pipe.search_re;
      change (RPlus CSpace +++ ROpt (RChr (CSet ["034"%char; "'"%char]))
              +++ RGroup (RPlusLazy CDot)
              +++ ROpt (RChr (CSet ["034"%char; "'"%char])) +++ REol)
        with quoted_argument;
      simpl append; cbn -[slug_argument quoted_argument Nat.eqb append];
      rewrite ?Nat.eqb_refl;
      rewrite (quoted_argument_quoted _ ws q q1 q2 None _ (EmptyString, Some q))
        by (try assumption; reflexivity);
      reflexivity.
  - intros Hsp Hfirst Hlast.
    destruct Hin as [<- | [<- | []]];
      unfold Pipe.parse, re_group1, re_match, Pipe.read_re, Pipe.search_re;
      change (RPlus CSpace +++ ROpt (RChr (CSet ["034"%char; "'"%char]))
              +++ RGroup (RPlusLazy CDot)
              +++ ROpt (RChr (CSet ["034"%char; "'"%char])) +++ REol)
        with quoted_argument;
      simpl append; cbn -[slug_argument quoted_argument Nat.eqb append];
      rewrite ?Nat.eqb_refl;
      rewrite (quoted_argument_bare _ ws q None _ (EmptyString, Some q))
        by (try assumption; reflexivity);
      reflexivity.
Qed.

Lemma pipe_search_takes_the_query_witness :
  Pipe.parse ("search" ++ " " ++ String "'" ("plan q1" ++ String "034" EmptyString))
  = SearchNotes "plan q1" /\
  Pipe.parse ("/search" ++ " " ++ "plan q1") = SearchNotes "plan q1".
Proof.
  pose proof (pipe_search_takes_the_query "search" " " "plan q1") as H1.
  pose proof (pipe_search_takes_the_query "/search" " " "plan q1") as H2.
  destruct H1 as [H1 _]; [simpl; auto | discriminate | reflexivity | discriminate
                         | reflexivity | reflexivity |].
  destruct H2 as [_ H2]; [simpl; auto | discriminate | reflexivity | discriminate
                         | reflexivity | reflexivity |].
  split; [apply H1; reflexivity | apply H2; reflexivity].
Defined.

(** ** What a pattern captures *)

Section Captured.

Context (P : ascii -> bool).

Lemma all_chars_take (n : nat) (s : string) :
  all_chars P s = true -> all_chars P (take n s) = true.
Proof.
  unfold take. revert n. induction s as [|c s IH]; intros [|n] H; try reflexivity.
  simpl in H |- *. apply andb_true_iff in H as [Hc Hs].
  now rewrite Hc, (IH n Hs).
Qed.

Lemma star_greedy_keeps (icase : bool) (cc : cclass) (s : string)
    (k : string -> option matched) (Q : matched -> Prop) :
  all_chars P s = true ->
  (forall s1 m, all_chars P s1 = true -> k s1 = Some m -> Q m) ->
  forall m, star_greedy icase cc s k = Some m -> Q m.
Proof.
  intros Hs Hk. induction s as [|c s IH]; intros m; simpl.
  - now apply Hk.
  - simpl in Hs. pose proof Hs as Hcs. apply andb_true_iff in Hs as [Hc Hs].
    destruct (cc_match icase cc c).
    + destruct (star_greedy icase cc s k) as [m'|] eqn:E.
      * intros [= <-]. now apply IH.
      * apply Hk. simpl. exact Hcs.
    + apply Hk. simpl. exact Hcs.
Qed.

Lemma star_lazy_keeps (icase : bool) (cc : cclass) (s : string)
    (k : string -> option matched) (Q : matched -> Prop) :
  all_chars P s = true ->
  (forall s1 m, all_chars P s1 = true -> k s1 = Some m -> Q m) ->
  forall m, star_lazy icase cc s k = Some m -> Q m.
Proof.
  intros Hs Hk. induction s as [|c s IH]; intros m; simpl.
  - destruct (k EmptyString) eqn:E; [|discriminate]. intros [= <-]. now apply (Hk EmptyString).
  - simpl in Hs. pose proof Hs as Hcs. apply andb_true_iff in Hs as [Hc Hs].
    destruct (k (String c s)) eqn:E.
    + intros [= <-]. now apply (Hk (String c s)).
    + destruct (cc_match icase cc c); [now apply IH | discriminate].
Qed.

Lemma rmatch_keeps (icase : bool) (whole : string) (r : regex) (Q : matched -> Prop) :
  forall (s : string) (g : option string) (k : string -> option string -> option matched),
    all_chars P s = true ->
    group_of P g ->
    (forall s1 g1 m, all_chars P s1 = true -> group_of P g1 -> k s1 g1 = Some m -> Q m) ->
    forall m, rmatch icase whole r s g k = Some m -> Q m.
Proof.
  induction r as [|cc|r1 IH1 r2 IH2|r1 IH1 r2 IH2|r1 IH1|cc|cc|r1 IH1| |];
    intros s g k Hs Hg Hk m; cbn [rmatch].
  - now apply Hk.
  - destruct s as [|c s]; [discriminate|].
    simpl in Hs. apply andb_true_iff in Hs as [_ Hs].
    destruct (cc_match icase cc c); [now apply Hk | discriminate].
  - apply IH1; [assumption | assumption |].
    intros s1 g1 m1 Hs1 Hg1. now apply IH2.
  - destruct (rmatch icase whole r1 s g k) as [m'|] eqn:E.
    + intros [= <-]. now apply (IH1 s g k).
    + now apply IH2.
  - destruct (rmatch icase whole r1 s g k) as [m'|] eqn:E.
    + intros [= <-]. now apply (IH1 s g k).
    + now apply Hk.
  - destruct s as [|c s]; [discriminate|].
    simpl in Hs. apply andb_true_iff in Hs as [_ Hs].
    destruct (cc_match icase cc c); [|discriminate].
    apply star_greedy_keeps; [assumption|].
    intros s1 m1 Hs1. now apply Hk.
  - destruct s as [|c s]; [discriminate|].
    simpl in Hs. apply andb_true_iff in Hs as [_ Hs].
    destruct (cc_match icase cc c); [|discriminate].
    apply star_lazy_keeps; [assumption|].
    intros s1 m1 Hs1. now apply Hk.
  - apply IH1; [assumption | assumption |].
    intros s1 g1 m1 Hs1 _. apply Hk; [assumption|].
    intros q [= <-]. now apply all_chars_take.
  - destruct (_ =? _)%nat; [now apply Hk | discriminate].
  - destruct (_ || _); [now apply Hk | discriminate].
Qed.

Lemma re_group1_keeps (icase : bool) (r : regex) (s q : string) :
  all_chars P s = true -> re_group1 icase r s = Some q -> all_chars P q = true.
Proof.
  intros Hs. unfold re_group1, re_match.
  destruct (rmatch icase s r s None (fun rest g => Some (rest, g))) as [[rest g]|] eqn:E;
    [|discriminate].
  assert (Hg : group_of P (snd (rest, g))).
  { apply (rmatch_keeps icase s r (fun m => group_of P (snd m)) s None
             (fun rest g => Some (rest, g)) Hs); [discriminate | | exact E].
    intros s1 g1 m _ Hg1 [= <-]. exact Hg1. }
  simpl in Hg.
  destruct g as [g|]; [|discriminate]. intros [= <-]. now apply Hg.
Qed.

End Captured.

Lemma lowered_lower (s : string) : all_chars is_lowered (lower s) = true.
Proof.
  induction s as [|c s IH]; [reflexivity|].
  simpl. rewrite IH. unfold is_lowered. now rewrite lower_char_idem, Ascii.eqb_refl.
Qed.

Lemma lower_lowered (s : string) : all_chars is_lowered s = true -> lower s = s.
Proof.
  induction s as [|c s IH]; [reflexivity|].
  simpl. intros H. apply andb_true_iff in H as [Hc Hs].
  apply Ascii.eqb_eq in Hc. now rewrite Hc, (IH Hs).
Qed.

(** The argument of a command is cut out of the command text. *)
Lemma filter_argument_keeps (P : ascii -> bool) (cmd arg : string) :
  all_chars P cmd = true ->
  argument (Filter.parse cmd) = Some arg -> all_chars P arg = true.
Proof.
  intros Hc. unfold Filter.parse.
  destruct (_ || _); [discriminate|].
  destruct (re_group1 true Filter.read_re cmd) as [slug|] eqn:Er.
  - intros [= <-]. exact (re_group1_keeps P _ _ _ _ Hc Er).
  - destruct (_ || _); [discriminate|].
    destruct (re_group1 true Filter.search_re cmd) as [query|] eqn:Es; [|discriminate].
    intros [= <-]. exact (re_group1_keeps P _ _ _ _ Hc Es).
Qed.

Lemma pipe_argument_keeps (P : ascii -> bool) (cmd arg : string) :
  all_chars P cmd = true ->
  argument (Pipe.parse cmd) = Some arg -> all_chars P arg = true.
Proof.
  intros Hc. unfold Pipe.parse.
  destruct (Pipe.one_of cmd Pipe.help_keywords); [discriminate|].
  destruct (Pipe.one_of cmd Pipe.notes_keywords); [discriminate|].
  destruct (re_group1 false Pipe.read_re cmd) as [slug|] eqn:Er.
  - intros [= <-]. exact (re_group1_keeps P _ _ _ _ Hc Er).
  - destruct (re_group1 false Pipe.search_re cmd) as [query|] eqn:Es.
    + intros [= <-]. exact (re_group1_keeps P _ _ _ _ Hc Es).
    + destruct (Pipe.one_of cmd Pipe.categories_keywords); [discriminate|].
      destruct (Pipe.one_of cmd Pipe.tags_keywords); [discriminate|].
      destruct (re_group1 false Pipe.delete_re cmd) as [slug|] eqn:Ed; [|discriminate].
      intros [= <-]. exact (re_group1_keeps P _ _ _ _ Hc Ed).
Qed.

Lemma all_chars_lstrip (P : ascii -> bool) (s : string) :
  all_chars P s = true -> all_chars P (lstrip s) = true.
Proof.
  induction s as [|c s IH]; [reflexivity|].
  intros H. simpl. destruct (is_space c); [|exact H].
  simpl in H. apply andb_true_iff in H as [_ H]. now apply IH.
Qed.

Lemma all_chars_rstrip (P : ascii -> bool) (s : string) :
  all_chars P s = true -> all_chars P (rstrip s) = true.
Proof.
  induction s as [|c s IH]; [reflexivity|].
  intros H. simpl in H. apply andb_true_iff in H as [Hc Hs]. specialize (IH Hs).
  simpl. destruct (rstrip s) as [|x r].
  - destruct (is_space c); simpl; [reflexivity | now rewrite Hc].
  - change (all_chars P (String c (String x r)) = true). simpl in IH |- *.
    now rewrite Hc, IH.
Qed.

Lemma is_ascii_lower (c : ascii) : is_ascii (lower_char c) = is_ascii c.
Proof. destruct c as [[] [] [] [] [] [] [] []]; reflexivity. Qed.

Lemma ascii_lower (s : string) : ascii_text (lower s) = ascii_text s.
Proof.
  unfold ascii_text. induction s as [|c s IH]; [reflexivity|].
  simpl. now rewrite is_ascii_lower, IH.
Qed.

Lemma ascii_command_text (text : string) :
  ascii_text text = true -> ascii_text (command_text text) = true.
Proof.
  intros H. unfold command_text, strip.
  apply all_chars_rstrip, all_chars_lstrip. fold (ascii_text (lower (rstrip (lstrip text)))).
  rewrite ascii_lower. now apply all_chars_rstrip, all_chars_lstrip.
Qed.

(** X9: the commands are read off the lower-cased text, so what a command
    carries is lower-case: for a message of ASCII text, the slug of a read or
    a delete and the query of a search, in either adapter, are ASCII text
    that [str.lower] leaves as it is, whatever the casing of the message. *)
Theorem command_arguments_are_lower_case :
  forall (text arg : string),
    ascii_text text = true ->
    argument (Filter.parse (command_text text)) = Some arg \/
    argument (Pipe.parse (command_text text)) = Some arg ->
    ascii_text arg = true /\ lower arg = arg.
Proof.
  intros text arg Ha H.
  assert (Hc : all_chars is_lowered (command_text text) = true)
    by (rewrite <- lower_command_text; apply lowered_lower).
  pose proof (ascii_command_text text Ha) as Hac.
  split; [|apply lower_lowered]; destruct H as [H | H].
  - exact (filter_argument_keeps _ _ _ Hac H).
  - exact (pipe_argument_keeps _ _ _ Hac H).
  - exact (filter_argument_keeps _ _ _ Hc H).
  - exact (pipe_argument_keeps _ _ _ Hc H).
Qed.

Lemma command_arguments_are_lower_case_witness :
  argument (Pipe.parse (command_text " Search 'Plan Q1' ")) = Some "plan q1" /\
  ascii_text "plan q1" = true /\ lower "plan q1" = "plan q1".
Proof.
  split; [reflexivity|].
  apply (command_arguments_are_lower_case " Search 'Plan Q1' " "plan q1");
    [reflexivity|].
  right. reflexivity.
Defined.

(** ** The adapters when the service fails *)

Lemma filter_api_get_offline (self : Filter.Valves) (svc : service) (endpoint : string) :
  offline svc -> Filter.api_get self svc endpoint = VNone.
Proof.
  intros H. unfold Filter.api_get, http_get_json.
  specialize (H (Filter.mariposa_url self ++ endpoint)). unfold failed in H.
  destruct (svc GET _) as [msg|r]; [reflexivity|].
  destruct (error_status r); [reflexivity|].
  destruct (json r); [reflexivity | discriminate H].
Qed.

Lemma context_parts_offline (self : Filter.Valves) (svc : service) (slugs : list string) :
  offline svc -> Filter.context_parts self svc slugs = Ok [].
Proof.
  intros H. induction slugs as [|slug slugs IH]; [reflexivity|].
  cbn [Filter.context_parts]. unfold Filter.fetch_note.
  now rewrite filter_api_get_offline.
Qed.

Lemma auto_fetch_offline (self : Filter.Valves) (svc : service) (order : SetOrder)
    (original_msg : string) (w : world) :
  offline svc ->
  Filter.auto_fetch self svc order original_msg w = (Ok (VDict (w_body w)), w).
Proof.
  intros H. unfold Filter.auto_fetch.
  destruct (Filter.enable_auto_fetch self); [|reflexivity].
  destruct (Filter.mentioned_slugs order original_msg); [reflexivity|].
  unfold bind, lift. now rewrite context_parts_offline.
Qed.

(** X10: the filter hides a failing service.  When every GET fails, [inlet]
    on a message of ASCII text never raises, and what it stores as the last
    message
    tells nothing of the failure: the list of notes is shown as empty, a note
    as not found, a search as without results, and the form for a new note
    offers the placeholder category and no tag.  A message that is no
    command, or any message when the commands are switched off, leaves the
    payload as it came, mentioned notes or not. *)
Theorem filter_hides_a_failing_service :
  forall (self : Filter.Valves) (svc : service) (order : SetOrder) (emitter : bool)
         (w : world) (text : string),
    chat_text (w_body w) = Some text ->
    ascii_text text = true ->
    offline svc ->
    let c := if Filter.enable_slash_commands self
             then Filter.parse (command_text text) else Unrecognized in
    let body' := match offline_answer c with
                 | Some answer => with_last_content answer (w_body w)
                 | None => w_body w
                 end in
    fst (Filter.inlet self svc order emitter w) = Ok (VDict body') /\
    w_body (snd (Filter.inlet self svc order emitter w)) = body' /\
    (forall answer, offline_answer c = Some answer -> chat_text body' = Some answer).
Proof.
  intros self svc order emitter w text Ht _ Hoff c body'.
  rewrite (inlet_reads_text _ _ _ _ _ _ Ht).
  unfold Filter.on_message. fold (command_text text). subst body' c.
  destruct (Filter.enable_slash_commands self);
    [|rewrite auto_fetch_offline by assumption; repeat split; discriminate].
  destruct (Filter.parse (command_text text)) eqn:Ec;
    try (rewrite auto_fetch_offline by assumption; repeat split; discriminate);
    cbn [offline_answer];
    match goal with
    | |- context [with_last_content ?answer _] =>
        destruct (chat_text_stored (w_body w) text answer Ht) as (b & Hb & Hc);
        unfold with_last_content; rewrite Hb
    end;
    unfold Filter.render_creation_form, Filter.fetch_notes, Filter.fetch_categories,
      Filter.fetch_tags, Filter.fetch_note;
    rewrite ?filter_api_get_offline by assumption;
    unfold bind, lift, Filter.emit_status, emit, set_last_content, return_body, get_body, ret;
    destruct emitter; cbn -[append nl Filter.render_error_md Filter.creation_form];
    rewrite Hb; cbn -[append nl Filter.render_error_md Filter.creation_form];
    (split; [reflexivity | split; [reflexivity | now intros answer [= <-]]]).
Qed.

Lemma filter_hides_a_failing_service_witness :
  let w := {| w_body := body_with_text "/notes"; w_events := [] |} in
  fst (Filter.inlet Filter.default_valves unreachable last_seen_order true w)
  = Ok (VDict (with_last_content
                 ("[User requested note list. Display this to them:]" ++ nl ++ nl
                  ++ "⚠️ **No notes found.** Use `/new` to create one.")
                 (w_body w))).
Proof.
  exact (proj1 (filter_hides_a_failing_service Filter.default_valves unreachable
                  last_seen_order true
                  {| w_body := body_with_text "/notes"; w_events := [] |} "/notes"
                  eq_refl eq_refl (fun url => eq_refl))).
Defined.

Lemma pipe_api_get_offline (self : Pipe.Valves) (svc : service) (endpoint : string) :
  offline svc ->
  Pipe.api_get self svc endpoint
  = VDict [("error", VStr (failure_text ListCategoriesOp
                             (svc GET (Pipe.mariposa_url self ++ endpoint))))].
Proof.
  intros H. unfold Pipe.api_get, http_get_json.
  specialize (H (Pipe.mariposa_url self ++ endpoint)). unfold failed in H.
  unfold failure_text.
  destruct (svc GET _) as [msg|r]; [reflexivity|].
  destruct (error_status r); [reflexivity|].
  destruct (json r); [reflexivity | discriminate H].
Qed.

(** X11: what the pipe answers to a message of ASCII text when every GET
    fails.  The list of notes and
    the search show an error card with the text of the failure; a read shows
    the note as not found, the categories and the tags show as none found,
    and none of these three tells of the failure; the help is the help. *)
Theorem pipe_reports_a_failing_service :
  forall (self : Pipe.Valves) (svc : service) (w : world) (text card : string),
    chat_text (w_body w) = Some text ->
    ascii_text text = true ->
    offline svc ->
    offline_card
      (fun endpoint =>
         failure_text ListCategoriesOp (svc GET (Pipe.mariposa_url self ++ endpoint)))
      (Pipe.parse (command_text text)) = Some card ->
    Pipe.pipe self svc w = (Ok (Pipe.artifact card), w).
Proof.
  intros self svc w text card Ht _ Hoff Hcard.
  rewrite (pipe_reads_text _ _ _ _ Ht). f_equal.
  destruct (Pipe.parse (command_text text)); cbn [offline_card] in Hcard;
    try discriminate Hcard; injection Hcard as <-;
    unfold Pipe.run, Pipe.fetch_notes, Pipe.fetch_note, Pipe.fetch_categories,
      Pipe.fetch_tags;
    rewrite ?pipe_api_get_offline by assumption; reflexivity.
Qed.

Lemma pipe_reports_a_failing_service_witness :
  let w := {| w_body := body_with_text "notes"; w_events := [] |} in
  Pipe.pipe Pipe.default_valves unreachable w
  = (Ok (Pipe.artifact (Pipe.render_error "Connection Error"
                          "Could not reach Mariposa: connection refused")), w).
Proof.
  exact (pipe_reports_a_failing_service Pipe.default_valves unreachable
           {| w_body := body_with_text "notes"; w_events := [] |} "notes" _
           eq_refl eq_refl (fun url => eq_refl) eq_refl).
Defined.

(** ** The adapters on sound data *)

Section Runs.

Context {A B : Type}.

Lemma runs_ret (a : A) : runs (ret a).
Proof. intros w H. now exists a, w. Qed.

Lemma runs_lift (a : A) : runs (lift (Ok a)).
Proof. intros w H. now exists a, w. Qed.

Lemma runs_bind (m : M A) (f : A -> M B) :
  runs m -> (forall a, runs (f a)) -> runs (bind m f).
Proof.
  intros Hm Hf w H. unfold bind.
  destruct (Hm w H) as (a & w' & E & H'). rewrite E. exact (Hf a w' H').
Qed.

End Runs.

Lemma runs_lift_ok {A : Type} (r : result A) : (exists a, r = Ok a) -> runs (lift r).
Proof. intros [a ->]. apply runs_lift. Qed.

Lemma runs_lift_bind {A B : Type} (a : A) (f : A -> M B) :
  runs (f a) -> runs (bind (lift (Ok a)) f).
Proof. intros H w Hw. exact (H w Hw). Qed.

Lemma runs_return_body : runs return_body.
Proof. intros w H. now exists (VDict (w_body w)), w. Qed.

Lemma runs_emit_status (emitter : bool) (description : string) (done : bool) :
  runs (Filter.emit_status emitter description done).
Proof.
  intros w H. unfold Filter.emit_status, emit.
  destruct emitter; eexists; eexists; split; try reflexivity; exact H.
Qed.

Lemma runs_set_last_content (text : string) : runs (set_last_content text).
Proof.
  intros w [old H]. unfold set_last_content.
  destruct (chat_text_stored (w_body w) old text H) as (b & Hb & Hc).
  rewrite Hb. eexists; eexists; split; [reflexivity|]. now exists text.
Qed.

Lemma mapR_ok {X Y : Type} (f : X -> result Y) (l : list X) :
  (forall x, In x l -> exists y, f x = Ok y) -> exists ys, mapR f l = Ok ys.
Proof.
  induction l as [|x l IH]; intros H; [now exists []|].
  destruct (H x (or_introl eq_refl)) as [y Hy].
  destruct IH as [ys Hys]; [intros x' Hx'; apply H; now right|].
  exists (y :: ys). simpl. now rewrite Hy, Hys.
Qed.

Lemma real_note_tags (d : dict) :
  real_note (VDict d) = true ->
  exists tags, dict_get_default "tags" (VList []) d = VList tags /\
               forallb (fun t => match t with VStr _ => true | _ => false end) tags = true.
Proof.
  unfold real_note, dict_get_default. intros H. apply andb_true_iff in H as [_ H].
  destruct (dict_get "tags" d) as [[| | | |tags|]|]; try discriminate.
  - now exists tags.
  - now exists [].
Qed.

Lemma notes_list_line_ok (n : pyval) :
  real_note n = true -> exists line, Filter.notes_list_line n = Ok line.
Proof.
  destruct n as [| | | | |d]; try discriminate. intros H.
  destruct (real_note_tags d H) as (tags & Ht & Hs).
  unfold Filter.notes_list_line, py_get. cbn [rbind]. rewrite Ht.
  destruct (truthy (VList tags)); [|eexists; reflexivity].
  unfold py_join. cbn [py_iter rbind]. rewrite (mapR_strings tags Hs).
  eexists; reflexivity.
Qed.

Lemma render_notes_list_md_ok (notes : pyval) :
  sound_notes notes = true -> exists md, Filter.render_notes_list_md notes = Ok md.
Proof.
  unfold sound_notes, Filter.render_notes_list_md. intros H.
  destruct (truthy notes); [|eexists; reflexivity]. cbn [negb orb] in H |- *.
  destruct notes as [| | | |l|]; try discriminate. cbn [py_len py_iter rbind].
  destruct (mapR_ok Filter.notes_list_line l) as [lines Hl].
  { intros n Hn. apply notes_list_line_ok.
    exact (proj1 (forallb_forall _ _) H n Hn). }
  rewrite Hl. eexists; reflexivity.
Qed.

Lemma render_note_md_ok (note : pyval) :
  real_note note = true -> exists md, Filter.render_note_md note false = Ok md.
Proof.
  destruct note as [| | | | |d]; try discriminate. intros H.
  destruct (real_note_tags d H) as (tags & Ht & Hs).
  unfold Filter.render_note_md, py_get. cbn [rbind]. rewrite Ht.
  destruct (truthy (VList tags)); cbn [py_iter rbind]; eexists; reflexivity.
Qed.

Lemma listing_ok (key : string) (sound : pyval -> bool) (data : pyval) :
  sound_listing key sound data = true ->
  sound (VList []) = true ->
  exists v, (if truthy data then py_get data key (VList []) else Ok (VList [])) = Ok v /\
            sound v = true.
Proof.
  unfold sound_listing. intros H H0.
  destruct (truthy data); [|now exists (VList [])]. cbn [negb orb] in H.
  destruct data as [| | | | |d]; try discriminate.
  unfold sound_object in H. unfold py_get, dict_get_default.
  destruct (dict_get key d) as [v|]; [now exists v | now exists (VList [])].
Qed.

Lemma sound_names_nil : sound_names (VList []) = true.
Proof. reflexivity. Qed.

Lemma sound_notes_nil : sound_notes (VList []) = true.
Proof. reflexivity. Qed.

Lemma backticked_ok (names : pyval) (placeholder : string) :
  sound_names names = true ->
  exists s,
    (if truthy names
     then items <~ py_iter names ;;
          Ok (join ", " (map (fun c => "`" ++ py_str c ++ "`") items))
     else Ok placeholder) = Ok s.
Proof.
  unfold sound_names. intros H.
  destruct (truthy names); [|eexists; reflexivity]. cbn [negb orb] in H.
  destruct names as [| | | |l|]; try discriminate. eexists; reflexivity.
Qed.

Section SoundService.

Context (self : Filter.Valves) (svc : service) (order : SetOrder).
Hypothesis sound : sound_for_filter self svc.

Lemma fetch_notes_ok (params : option dict) :
  exists notes, Filter.fetch_notes self svc params = Ok notes /\ sound_notes notes = true.
Proof.
  destruct sound as (_ & H & _). unfold Filter.fetch_notes.
  exact (listing_ok "notes" sound_notes _ (H params) sound_notes_nil).
Qed.

Lemma render_creation_form_ok :
  exists form, Filter.render_creation_form self svc = Ok form.
Proof.
  destruct sound as (_ & _ & Hc & Ht). unfold Filter.render_creation_form.
  destruct (listing_ok "categories" sound_names _ Hc sound_names_nil) as (cs & Ec & Hcs).
  destruct (listing_ok "tags" sound_names _ Ht sound_names_nil) as (ts & Et & Hts).
  unfold Filter.fetch_categories, Filter.fetch_tags. rewrite Ec, Et. cbn [rbind].
  destruct (backticked_ok cs "`uncategorized`" Hcs) as [s1 ->].
  destruct (backticked_ok ts "_none yet_" Hts) as [s2 ->].
  eexists; reflexivity.
Qed.

Lemma runs_auto_fetch (original_msg : string) :
  runs (Filter.auto_fetch self svc order original_msg).
Proof.
  destruct sound as (Hn & _). unfold Filter.auto_fetch.
  destruct (Filter.enable_auto_fetch self); [|apply runs_return_body].
  destruct (Filter.mentioned_slugs order original_msg) as [|slug slugs];
    [apply runs_return_body|].
  rewrite (context_parts_real self svc (slug :: slugs)) by (intros ? _; apply Hn).
  apply runs_bind; [apply runs_lift|]. intros [|part parts]; [apply runs_return_body|].
  apply runs_bind; [apply runs_set_last_content | intros _; apply runs_return_body].
Qed.

Ltac runs_step :=
  first [ apply runs_return_body | apply runs_ret | apply runs_emit_status
        | apply runs_set_last_content | apply runs_lift_bind
        | apply runs_bind; [|intros ?] ].

Lemma runs_on_message (emitter : bool) (original_msg : string) :
  runs (Filter.on_message self svc order emitter original_msg).
Proof.
  unfold Filter.on_message.
  destruct (Filter.enable_slash_commands self); [|apply runs_auto_fetch].
  destruct (Filter.parse (strip (lower original_msg)));
    try apply runs_auto_fetch.
  - destruct (fetch_notes_ok None) as (notes & -> & Hs).
    destruct (render_notes_list_md_ok notes Hs) as [md Hmd].
    do 2 runs_step. rewrite Hmd. repeat runs_step.
  - destruct sound as (Hn & _).
    apply runs_bind; [apply runs_emit_status | intros _].
    apply runs_bind; [|intros _; apply runs_return_body].
    destruct (Hn slug) as [-> | Hr].
    + repeat runs_step.
    + destruct (render_note_md_ok _ Hr) as [md ->].
      destruct (truthy _); repeat runs_step.
  - destruct render_creation_form_ok as [form ->]. repeat runs_step.
  - destruct (fetch_notes_ok (Some [("search", VStr query)])) as (notes & -> & Hs).
    destruct (render_notes_list_md_ok notes Hs) as [md Hmd].
    do 2 runs_step.
    apply runs_bind; [|intros ?; repeat runs_step].
    destruct (truthy notes) eqn:Et; [|repeat runs_step].
    rewrite Hmd. runs_step.
    unfold sound_notes in Hs. rewrite Et in Hs. cbn [negb orb] in Hs.
    destruct notes as [| | | |l|]; try discriminate. cbn [py_len].
    repeat runs_step.
Qed.

Lemma runs_inlet (emitter : bool) :
  runs (Filter.inlet self svc order emitter).
Proof.
  intros w [text Ht]. rewrite (inlet_reads_text _ _ _ _ _ _ Ht).
  apply runs_on_message. now exists text.
Qed.

End SoundService.

(** X12: on sound data the filter never raises.  When the service answers
    a note with nothing or with a real note, the list of notes with nothing
    or with an object whose notes, if any, are real notes, the categories and
    the tags with nothing or with an object holding a list, or fails, then
    [inlet] on a payload whose last message is a text returns that payload,
    its last message still a text, whatever the text is. *)
Theorem filter_is_safe_on_sound_data :
  forall (self : Filter.Valves) (svc : service) (order : SetOrder) (emitter : bool)
         (w : world) (text : string),
    chat_text (w_body w) = Some text ->
    sound_for_filter self svc ->
    exists body' events text',
      Filter.inlet self svc order emitter w
      = (Ok (VDict body'), {| w_body := body'; w_events := events |}) /\
      chat_text body' = Some text'.
Proof.
  intros self svc order emitter w text Ht Hs.
  destruct (runs_inlet self svc order Hs emitter w) as (v & w' & E & text' & Ht');
    [now exists text|].
  pose proof (inlet_returns_the_payload self svc order emitter w v) as Hv.
  rewrite E in Hv. specialize (Hv eq_refl). simpl in Hv. subst v.
  exists (w_body w'), (w_events w'), text'. split; [|exact Ht'].
  rewrite E. now destruct w'.
Qed.

Lemma note_list_item_ok (n : pyval) :
  real_note n = true ->
  exists item,
    (title <~ py_get n "title" (VStr "Untitled") ;;
     slug <~ py_get n "slug" (VStr EmptyString) ;;
     category <~ py_get n "category" (VStr EmptyString) ;;
     tags <~ py_get n "tags" (VList []) ;;
     tag_count <~ py_len tags ;;
     Ok (Pipe.note_list_item (py_str title) (py_str category)
           (str_of_int tag_count) (py_str slug))) = Ok item.
Proof.
  destruct n as [| | | | |d]; try discriminate. intros H.
  destruct (real_note_tags d H) as (tags & Ht & Hs).
  unfold py_get. cbn [rbind]. rewrite Ht. eexists; reflexivity.
Qed.

Lemma render_note_list_ok (notes : pyval) :
  sound_notes notes = true -> exists html, Pipe.render_note_list notes = Ok html.
Proof.
  unfold sound_notes, Pipe.render_note_list. intros H.
  destruct (truthy notes); [|eexists; reflexivity]. cbn [negb orb] in H |- *.
  destruct notes as [| | | |l|]; try discriminate. cbn [py_iter rbind].
  match goal with
  | |- context [mapR ?f l] => destruct (mapR_ok f l) as [items Hl]
  end.
  { intros n Hn. apply note_list_item_ok.
    exact (proj1 (forallb_forall _ _) H n Hn). }
  rewrite Hl. eexists; reflexivity.
Qed.

Lemma render_note_card_ok (note : pyval) :
  real_note note = true -> exists html, Pipe.render_note_card note = Ok html.
Proof.
  destruct note as [| | | | |d]; try discriminate. intros H.
  destruct (real_note_tags d H) as (tags & Ht & Hs).
  unfold Pipe.render_note_card, py_get. cbn [rbind]. rewrite Ht.
  destruct (truthy (VList tags)); cbn [py_iter rbind]; eexists; reflexivity.
Qed.

Lemma pipe_listing_ok (key : string) (data : pyval) :
  sound_listing key sound_names data = true ->
  exists names,
    (if truthy data then
       present <~ py_contains key data ;;
       if present then py_item data key else Ok (VList [])
     else Ok (VList [])) = Ok names /\ sound_names names = true.
Proof.
  unfold sound_listing. intros H.
  destruct (truthy data); [|now exists (VList [])]. cbn [negb orb] in H.
  destruct data as [| | | | |d]; try discriminate.
  unfold sound_object in H. unfold py_contains, py_item. cbn [rbind].
  destruct (dict_get key d) as [v|]; [now exists v | now exists (VList [])].
Qed.

Lemma chips_ok (names : pyval) (card : string -> string) (none : string) :
  sound_names names = true ->
  exists html,
    (if negb (truthy names) then Ok none
     else cs <~ py_iter names ;; Ok (card (join EmptyString (map Pipe.chip cs)))) = Ok html.
Proof.
  unfold sound_names. intros H.
  destruct (truthy names); [|eexists; reflexivity]. cbn [negb orb] in H |- *.
  destruct names as [| | | |l|]; try discriminate. eexists; reflexivity.
Qed.

Lemma run_ok (self : Pipe.Valves) (svc : service) (c : command) (user_msg : string) :
  sound_for_pipe self svc -> exists answer, Pipe.run self svc c user_msg = Ok answer.
Proof.
  intros (Hnote & Hnotes & Hcats & Htags). destruct c; cbn [Pipe.run].
  - specialize (Hnotes None). destruct (Pipe.fetch_notes self svc None) as [| | | | |d];
      try discriminate. unfold sound_object in Hnotes.
    unfold py_contains, py_item, py_get, dict_get_default. cbn [rbind].
    destruct (dict_get "error" d); cbn [rbind]; [eexists; reflexivity|].
    destruct (render_note_list_ok
                match dict_get "notes" d with Some v => v | None => VList [] end)
      as [html ->]; [destruct (dict_get "notes" d); [exact Hnotes | reflexivity]|].
    eexists; reflexivity.
  - destruct (Hnote slug) as [H | H].
    + rewrite H. eexists; reflexivity.
    + destruct (render_note_card_ok _ H) as [html Hh]. rewrite Hh.
      destruct (Pipe.fetch_note self svc slug) as [| | | | |d]; try discriminate.
      destruct (negb _); cbn [rbind py_contains];
        destruct (dict_get "error" d); eexists; reflexivity.
  - eexists; reflexivity.
  - specialize (Hnotes (Some [("search", VStr query)])).
    destruct (Pipe.fetch_notes self svc _) as [| | | | |d];
      try discriminate. unfold sound_object in Hnotes.
    unfold py_contains, py_item, py_get, dict_get_default. cbn [rbind].
    destruct (dict_get "error" d); cbn [rbind]; [eexists; reflexivity|].
    destruct (render_note_list_ok
                match dict_get "notes" d with Some v => v | None => VList [] end)
      as [html ->]; [destruct (dict_get "notes" d); [exact Hnotes | reflexivity]|].
    destruct (negb _); eexists; reflexivity.
  - destruct (Pipe.api_delete self svc _) eqn:E; unfold Pipe.api_delete in E;
      destruct (svc DELETE _); try destruct (_ =? _)%Z; try discriminate E;
      injection E as <-; eexists; reflexivity.
  - unfold Pipe.fetch_categories.
    destruct (pipe_listing_ok "categories" _ Hcats) as (names & -> & Hs).
    unfold Pipe.render_categories. cbn [rbind].
    destruct (chips_ok names Pipe.categories_card
                (Pipe.render_error "No categories" "No categories found.") Hs) as [html ->]. eexists; reflexivity.
  - unfold Pipe.fetch_tags.
    destruct (pipe_listing_ok "tags" _ Htags) as (names & -> & Hs).
    unfold Pipe.render_tags_list. cbn [rbind].
    destruct (chips_ok names Pipe.tags_card
                (Pipe.render_error "No tags" "No tags found.") Hs) as [html ->]. eexists; reflexivity.
  - eexists; reflexivity.
  - eexists; reflexivity.
Qed.

(** X13: on sound data the pipe never raises.  When the service answers a
    note with nothing or with a real note, the list of notes with an object
    whose notes, if any, are real notes, the categories and the tags with
    nothing or with an object holding a list, or fails, then [pipe] on a
    payload whose last message is a text returns a string and leaves the
    payload as it came, whatever the text is. *)
Theorem pipe_is_safe_on_sound_data :
  forall (self : Pipe.Valves) (svc : service) (w : world) (text : string),
    chat_text (w_body w) = Some text ->
    sound_for_pipe self svc ->
    exists answer, Pipe.pipe self svc w = (Ok answer, w).
Proof.
  intros self svc w text Ht Hs. rewrite (pipe_reads_text _ _ _ _ Ht).
  destruct (run_ok self svc (Pipe.parse (command_text text)) (strip text) Hs) as [answer ->].
  now exists answer.
Qed.

Ltac any_url :=
  match goal with
  | |- context [notebook GET ?u] =>
      generalize u; intros url; unfold notebook; cbv zeta;
      repeat match goal with |- context [String.eqb ?u ?lit] => destruct (String.eqb u lit) end
  end.

Lemma notebook_sound_for_filter : sound_for_filter Filter.default_valves notebook.
Proof.
  split; [|split; [|split]]; try reflexivity.
  - intros slug. unfold Filter.fetch_note, Filter.api_get, http_get_json.
    any_url; first [left; reflexivity | right; reflexivity].
  - intros params. unfold Filter.api_get, http_get_json. any_url; reflexivity.
Qed.

Lemma notebook_sound_for_pipe : sound_for_pipe Pipe.default_valves notebook.
Proof.
  split; [|split; [|split]]; try reflexivity.
  - intros slug. unfold Pipe.fetch_note, Pipe.api_get, http_get_json.
    any_url; first [left; reflexivity | right; reflexivity].
  - intros params. unfold Pipe.fetch_notes, Pipe.api_get, http_get_json.
    any_url; reflexivity.
Qed.

Lemma filter_is_safe_on_sound_data_witness :
  let w := {| w_body := body_with_text "/notes"; w_events := [] |} in
  exists body' events text',
    Filter.inlet Filter.default_valves notebook last_seen_order true w
    = (Ok (VDict body'), {| w_body := body'; w_events := events |}) /\
    chat_text body' = Some text'.
Proof.
  exact (filter_is_safe_on_sound_data Filter.default_valves notebook last_seen_order true
           {| w_body := body_with_text "/notes"; w_events := [] |} "/notes"
           eq_refl notebook_sound_for_filter).
Defined.

Lemma pipe_is_safe_on_sound_data_witness :
  let w := {| w_body := body_with_text "notes"; w_events := [] |} in
  exists answer, Pipe.pipe Pipe.default_valves notebook w = (Ok answer, w).
Proof.
  exact (pipe_is_safe_on_sound_data Pipe.default_valves notebook
           {| w_body := body_with_text "notes"; w_events := [] |} "notes"
           eq_refl notebook_sound_for_pipe).
Defined.

(** ** Keywords *)

Ltac keyword_cases Hin H1 H2 Hk :=
  simpl in Hin;
  repeat (destruct Hin as [<- | Hin]; [
    rewrite command_text_padded by (try assumption; rewrite Hk; reflexivity);
    rewrite Hk; reflexivity |]);
  contradiction.

(** X14: the keyword commands are matched in any letter casing and with
    whitespace around them, and each adapter has keywords the other does not
    know: the keywords for the help, the categories and the tags are commands
    of the pipe and nothing to the filter; [new] and [/new] ask the filter for
    the form of a new note and are nothing to the pipe. *)
Theorem keywords_in_any_case :
  forall (ws1 text ws2 keyword : string),
    all_chars is_space ws1 = true ->
    all_chars is_space ws2 = true ->
    lower text = keyword ->
    let cmd := command_text (ws1 ++ text ++ ws2) in
    (In keyword Pipe.help_keywords ->
     Pipe.parse cmd = Help /\ Filter.parse cmd = Unrecognized) /\
    (In keyword Pipe.categories_keywords ->
     Pipe.parse cmd = ListCategories /\ Filter.parse cmd = Unrecognized) /\
    (In keyword Pipe.tags_keywords ->
     Pipe.parse cmd = ListTags /\ Filter.parse cmd = Unrecognized) /\
    (In keyword new_keywords ->
     Filter.parse cmd = CreateNote /\ Pipe.parse cmd = Unrecognized).
Proof.
  intros ws1 text ws2 keyword H1 H2 Hk cmd. subst cmd.
  split; [|split; [|split]]; intros Hin; split;
    keyword_cases Hin H1 H2 Hk.
Qed.

Lemma keywords_in_any_case_witness :
  Pipe.parse (command_text (" " ++ "Show Categories" ++ " ")) = ListCategories /\
  Filter.parse (command_text (" " ++ "Show Categories" ++ " ")) = Unrecognized.
Proof.
  apply (keywords_in_any_case " " "Show Categories" " " "show categories"
           eq_refl eq_refl eq_refl).
  simpl. auto.
Defined.

Lemma last_char_lower (s : string) :
  last_char (lower s) = option_map lower_char (last_char s).
Proof.
  induction s as [|c s IH]; [reflexivity|].
  simpl. rewrite IH. destruct (last_char s); reflexivity.
Qed.

(** X15: the filter lists the notes for [/notes] and a space, in any letter
    casing, whatever ASCII text follows on; to the pipe the same message is
    no command. *)
Theorem notes_with_an_argument :
  forall (ws1 head rest ws2 : string) (b : ascii),
    all_chars is_space ws1 = true ->
    all_chars is_space ws2 = true ->
    lower head = "/notes " ->
    ascii_text rest = true ->
    last_char rest = Some b ->
    is_space b = false ->
    let cmd := command_text (ws1 ++ (head ++ rest) ++ ws2) in
    Filter.parse cmd = ListNotes /\ Pipe.parse cmd = Unrecognized.
Proof.
  intros ws1 head rest ws2 b H1 H2 Hh _ Hl Hb cmd.
  assert (Hcmd : cmd = "/notes " ++ lower rest).
  { subst cmd. rewrite command_text_padded; try assumption.
    - now rewrite lower_app, Hh.
    - unfold trimmed. rewrite last_char_lower.
      destruct rest as [|c rest]; [discriminate|].
      rewrite last_char_app, Hl, lower_app, Hh. simpl.
      now rewrite is_space_lower, Hb. }
  rewrite Hcmd. split.
  - unfold Filter.parse, startswith. simpl. now destruct (lower rest).
  - unfold Pipe.parse, re_group1, re_match, Pipe.read_re, Pipe.search_re, Pipe.delete_re.
    simpl. rewrite Nat.eqb_refl. reflexivity.
Qed.

Lemma notes_with_an_argument_witness :
  Filter.parse (command_text (" " ++ ("/Notes " ++ "about work") ++ " ")) = ListNotes /\
  Pipe.parse (command_text (" " ++ ("/Notes " ++ "about work") ++ " ")) = Unrecognized.
Proof.
  exact (notes_with_an_argument " " "/Notes " "about work" " " "k"
           eq_refl eq_refl eq_refl eq_refl eq_refl eq_refl).
Defined.

(** ** The status events of the filter *)

Lemma appends_bind {A B : Type} (P Q R : list pyval -> Prop) (m : M A) (f : A -> M B) :
  appends P m -> (forall a, appends Q (f a)) ->
  (forall n1 n2, P n1 -> Q n2 -> R (n1 ++ n2)%list) ->
  appends R (bind m f).
Proof.
  intros Hm Hf HR w b w'. unfold bind.
  destruct (m w) as [[a|e] w1] eqn:E; [|discriminate]. intros E'.
  destruct (Hm w a w1 E) as (n1 & H1 & HP).
  destruct (Hf a w1 b w' E') as (n2 & H2 & HQ).
  exists (n1 ++ n2)%list. split; [now rewrite H2, H1, app_assoc | now apply HR].
Qed.

Lemma appends_quiet {A : Type} (m : M A) : quiet m -> appends no_event m.
Proof.
  intros H w a w' E. exists []. split; [|reflexivity].
  destruct (H w w eq_refl) as (_ & _ & He). rewrite E in He. simpl in He.
  now rewrite app_nil_r.
Qed.

Lemma appends_closing (description : string) :
  appends closing_status (Filter.emit_status true description true).
Proof.
  intros w a w' [= _ <-]. exists [status_event description true].
  split; [reflexivity | now exists description].
Qed.

(** Quiet steps before or after the closing status. *)
Lemma closing_after {A B : Type} (m : M A) (f : A -> M B) :
  quiet m -> (forall a, appends closing_status (f a)) -> appends closing_status (bind m f).
Proof.
  intros Hm Hf. apply (appends_bind no_event closing_status); [now apply appends_quiet | exact Hf |].
  now intros n1 n2 -> H.
Qed.

Lemma closing_before {A B : Type} (m : M A) (f : A -> M B) :
  appends closing_status m -> (forall a, quiet (f a)) -> appends closing_status (bind m f).
Proof.
  intros Hm Hf.
  apply (appends_bind closing_status no_event); [exact Hm | intros a; now apply appends_quiet |].
  intros n1 n2 H ->. now rewrite app_nil_r.
Qed.

Lemma pair_opened {B : Type} (description : string) (m : M B) :
  appends closing_status m ->
  appends status_pair (bind (Filter.emit_status true description false) (fun _ => m)).
Proof.
  intros Hm w b w'. unfold bind, Filter.emit_status, emit. cbn [fst snd].
  intros E. destruct (Hm _ b w' E) as (new & Hn & d2 & ->).
  exists [status_event description false; status_event d2 true]. split.
  - rewrite Hn. cbn [w_events]. now rewrite <- app_assoc.
  - right. now exists description, d2.
Qed.

Lemma pair_quiet {A : Type} (m : M A) : quiet m -> appends status_pair m.
Proof.
  intros H w a w' E. destruct (appends_quiet m H w a w' E) as (new & Hn & ->).
  exists []. split; [exact Hn | now left].
Qed.

Ltac closing :=
  repeat first
    [ apply appends_closing
    | apply closing_after; [solve [quiet]|intros ?]
    | apply closing_before; [|intros ?; solve [quiet]] ].

Lemma pair_on_message (self : Filter.Valves) (svc : service) (order : SetOrder)
    (original_msg : string) :
  appends status_pair (Filter.on_message self svc order true original_msg).
Proof.
  unfold Filter.on_message.
  destruct (Filter.enable_slash_commands self);
    [|apply pair_quiet, quiet_auto_fetch].
  destruct (Filter.parse (strip (lower original_msg)));
    try (apply pair_quiet, quiet_auto_fetch).
  - apply pair_opened. closing.
  - apply pair_opened. apply closing_before; [|intros ?; quiet].
    destruct (truthy _); closing.
  - apply pair_quiet. quiet.
  - apply pair_opened. apply closing_after; [quiet|intros notes].
    apply closing_before; [|intros ?; quiet].
    destruct (truthy notes); closing.
Qed.

(** X16: a status the filter opens is closed when it returns.  The events
    that a returning [inlet] has handed to the emitter are none, or two: a
    status that is not done, then a status that is done. *)
Theorem a_status_is_always_closed :
  forall (self : Filter.Valves) (svc : service) (order : SetOrder) (w w' : world)
         (v : pyval),
    Filter.inlet self svc order true w = (Ok v, w') ->
    exists new, w_events w' = (w_events w ++ new)%list /\ status_pair new.
Proof.
  intros self svc order w w' v. revert w v w'.
  change (appends status_pair (Filter.inlet self svc order true)).
  unfold Filter.inlet.
  apply (appends_bind no_event status_pair); [apply appends_quiet; quiet | |
    now intros n1 n2 -> H].
  intros body. destruct (negb _); [apply pair_quiet; quiet|].
  apply (appends_bind no_event status_pair); [apply appends_quiet; quiet | |
    now intros n1 n2 -> H].
  intros last.
  apply (appends_bind no_event status_pair); [apply appends_quiet; quiet | |
    now intros n1 n2 -> H].
  intros last_msg. destruct last_msg; try (apply pair_quiet; solve [quiet]).
  apply pair_on_message.
Qed.

Lemma a_status_is_always_closed_witness :
  let w := {| w_body := body_with_text "/notes"; w_events := [] |} in
  exists new,
    w_events (snd (Filter.inlet Filter.default_valves notebook last_seen_order true w))
    = (w_events w ++ new)%list /\
    status_pair new.
Proof.
  refine (a_status_is_always_closed Filter.default_valves notebook last_seen_order
            {| w_body := body_with_text "/notes"; w_events := [] |}
            (snd (Filter.inlet Filter.default_valves notebook last_seen_order true
                    {| w_body := body_with_text "/notes"; w_events := [] |}))
            (VDict (w_body
                      (snd (Filter.inlet Filter.default_valves notebook last_seen_order true
                              {| w_body := body_with_text "/notes"; w_events := [] |}))))
            _).
  vm_compute. reflexivity.
Defined.

(** ** Commands and the auto-fetch *)

Lemma filter_parse_range (cmd : string) :
  Filter.parse cmd = Unrecognized \/ filter_command (Filter.parse cmd) = true.
Proof.
  unfold Filter.parse.
  destruct (_ || _); [now right|].
  destruct (re_group1 true Filter.read_re cmd); [now right|].
  destruct (_ || _); [now right|].
  destruct (re_group1 true Filter.search_re cmd); [now right | now left].
Qed.

(** X17: a command skips the auto-fetch.  When the commands are on and the
    text is one, [inlet] does the same with the auto-fetch on as with it off:
    notes mentioned in a command are not fetched for the context. *)
Theorem commands_skip_the_auto_fetch :
  forall (url : string) (svc : service) (order : SetOrder) (emitter : bool)
         (w : world) (text : string),
    chat_text (w_body w) = Some text ->
    Filter.parse (command_text text) <> Unrecognized ->
    Filter.inlet (commanding url true) svc order emitter w
    = Filter.inlet (commanding url false) svc order emitter w.
Proof.
  intros url svc order emitter w text Ht Hc.
  rewrite !(inlet_reads_text _ _ _ _ _ _ Ht).
  unfold Filter.on_message. fold (command_text text). cbn [commanding Filter.enable_slash_commands].
  destruct (filter_parse_range (command_text text)) as [H | H]; [contradiction|].
  destruct (Filter.parse (command_text text)); try discriminate H; reflexivity.
Qed.

Lemma commands_skip_the_auto_fetch_witness :
  let w := {| w_body := body_with_text "/search note-5"; w_events := [] |} in
  Filter.inlet (commanding "http://host.docker.internal:3020" true) plan_service
    last_seen_order true w
  = Filter.inlet (commanding "http://host.docker.internal:3020" false) plan_service
      last_seen_order true w.
Proof.
  apply (commands_skip_the_auto_fetch "http://host.docker.internal:3020" plan_service
           last_seen_order true
           {| w_body := body_with_text "/search note-5"; w_events := [] |}
           "/search note-5" eq_refl).
  discriminate.
Defined.

(** ** The flag of the command patterns *)

Lemma cc_match_flag (cc : cclass) (a : ascii) :
  lowered_class cc = true -> is_lowered a = true ->
  cc_match true cc a = cc_match false cc a.
Proof.
  destruct cc as [c| | | |]; try reflexivity.
  unfold lowered_class, is_lowered. intros Hc Ha.
  apply Ascii.eqb_eq in Hc, Ha. simpl. now rewrite Hc, Ha.
Qed.

Lemma star_greedy_flag (cc : cclass) (s : string) (k k' : string -> option matched) :
  lowered_class cc = true ->
  all_chars is_lowered s = true ->
  (forall s1, all_chars is_lowered s1 = true -> k s1 = k' s1) ->
  star_greedy true cc s k = star_greedy false cc s k'.
Proof.
  intros Hcc Hs Hk. induction s as [|c s IH]; simpl.
  - now apply Hk.
  - pose proof Hs as Hcs. simpl in Hs. apply andb_true_iff in Hs as [Hc Hs].
    rewrite (cc_match_flag cc c Hcc Hc), (IH Hs), (Hk (String c s) Hcs). reflexivity.
Qed.

Lemma star_lazy_flag (cc : cclass) (s : string) (k k' : string -> option matched) :
  lowered_class cc = true ->
  all_chars is_lowered s = true ->
  (forall s1, all_chars is_lowered s1 = true -> k s1 = k' s1) ->
  star_lazy true cc s k = star_lazy false cc s k'.
Proof.
  intros Hcc Hs Hk. induction s as [|c s IH]; simpl.
  - now rewrite (Hk EmptyString eq_refl).
  - pose proof Hs as Hcs. simpl in Hs. apply andb_true_iff in Hs as [Hc Hs].
    rewrite (cc_match_flag cc c Hcc Hc), (IH Hs), (Hk (String c s) Hcs). reflexivity.
Qed.

Lemma rmatch_flag (whole : string) (r : regex) :
  lowered_regex r = true ->
  forall (s : string) (g : option string)
         (k k' : string -> option string -> option matched),
    all_chars is_lowered s = true ->
    (forall s1 g1, all_chars is_lowered s1 = true -> k s1 g1 = k' s1 g1) ->
    rmatch true whole r s g k = rmatch false whole r s g k'.
Proof.
  induction r as [|cc|r1 IH1 r2 IH2|r1 IH1 r2 IH2|r1 IH1|cc|cc|r1 IH1| |];
    cbn [lowered_regex]; intros Hr s g k k' Hs Hk; cbn [rmatch].
  - now apply Hk.
  - destruct s as [|c s]; [reflexivity|].
    simpl in Hs. apply andb_true_iff in Hs as [Hc Hs].
    now rewrite (cc_match_flag cc c Hr Hc), (Hk s g Hs).
  - apply andb_true_iff in Hr as [Hr1 Hr2].
    apply IH1; [assumption | assumption |].
    intros s1 g1 Hs1. now apply IH2.
  - apply andb_true_iff in Hr as [Hr1 Hr2].
    now rewrite (IH1 Hr1 s g k k' Hs Hk), (IH2 Hr2 s g k k' Hs Hk).
  - now rewrite (IH1 Hr s g k k' Hs Hk), (Hk s g Hs).
  - destruct s as [|c s]; [reflexivity|].
    simpl in Hs. apply andb_true_iff in Hs as [Hc Hs].
    rewrite (cc_match_flag cc c Hr Hc).
    rewrite (star_greedy_flag cc s (fun s1 => k s1 g) (fun s1 => k' s1 g) Hr Hs);
      [reflexivity | intros s1 Hs1; now apply Hk].
  - destruct s as [|c s]; [reflexivity|].
    simpl in Hs. apply andb_true_iff in Hs as [Hc Hs].
    rewrite (cc_match_flag cc c Hr Hc).
    rewrite (star_lazy_flag cc s (fun s1 => k s1 g) (fun s1 => k' s1 g) Hr Hs);
      [reflexivity | intros s1 Hs1; now apply Hk].
  - apply IH1; [assumption | assumption |].
    intros s1 g1 Hs1. now apply Hk.
  - now rewrite (Hk s g Hs).
  - now rewrite (Hk s g Hs).
Qed.

(** X18: on a message of ASCII text the IGNORECASE flag of the two command
    patterns of the filter changes nothing: on the text the commands are
    matched against, which is lower-cased, either pattern matches with the
    flag what it matches without it, with the same group. *)
Theorem ignorecase_changes_no_command :
  forall (text : string) (r : regex),
    ascii_text text = true ->
    In r [Filter.read_re; Filter.search_re] ->
    re_group1 true r (command_text text) = re_group1 false r (command_text text).
Proof.
  intros text r _ Hin.
  assert (Hr : lowered_regex r = true)
    by (destruct Hin as [<- | [<- | []]]; reflexivity).
  assert (Hc : all_chars is_lowered (command_text text) = true)
    by (rewrite <- lower_command_text; apply lowered_lower).
  unfold re_group1, re_match.
  now rewrite (rmatch_flag (command_text text) r Hr (command_text text) None
                 (fun rest g => Some (rest, g)) (fun rest g => Some (rest, g)) Hc).
Qed.

Lemma ignorecase_changes_no_command_witness :
  re_group1 true Filter.read_re (command_text " /Read Note-5 ")
  = re_group1 false Filter.read_re (command_text " /Read Note-5 ").
Proof.
  apply (ignorecase_changes_no_command " /Read Note-5 " Filter.read_re eq_refl).
  simpl. auto.
Defined.
